(** * Basket reconciliation of the hardware kiosk agent

    A shallow embedding of [src/pages/api/agent.ts]: the intent
    classifiers, [normalizeQuery], the keyword fallback picker
    [pickByKeywords] and the server-side validation/merge part of
    [handler], followed by the properties the specification states
    about them.

    Conventions of the embedding.
    - A JavaScript string is a Rocq [string] holding its UTF-8 bytes.
      Substring search on UTF-8 bytes coincides with substring search on
      code points.  Case folding, diacritic stripping, white space and
      word boundaries are exact for text over U+0000..U+00FF (Basic Latin
      and Latin-1 Supplement, which covers Spanish); the combining
      diacritics of U+0300..U+036F are stripped as well; other characters
      pass through unchanged.
    - A JavaScript [number] used as a stock level or as a quantity of the
      cart (which the request type declares a number, and which the chat
      pane builds with [Math.max(1, Number(..))]) is a [Z].  The quantity
      of a basket line is a [JsNumber]: an integer or [NaN]; a proposed
      line carries the number that [Number] makes of its [qty] value
      ([NaN] for a value that is not numeric, as ["dos"]), an absent
      (undefined / null) quantity is [None].  The handler reads the
      quantity of a line only through [Number]; on an upsell line, which
      it passes on unread, the field stands for the value as proposed.
    - A JavaScript [Map] is an association list in insertion order, with
      [map_set] updating in place or appending, as [Map.prototype.set].
    - The database reads that feed the candidate map from the utterance
      (phrase, normalised phrase, token and synonym search) are an input,
      [hits]: the rows in the order they are stored into [bySku].  The
      product table itself is the input [catalog], one snapshot per turn;
      the reads by SKU ([.in], [.eq]) are filters over it and always
      answer.  A turn whose search fails answers 500 before any of the
      code below runs and is not represented.
    - The generative step is an input, [Proposal]: either text that
      [JSON.parse] rejects, or the parsed object. *)

From Stdlib Require Import List Bool Arith ZArith Lia Ascii String Permutation Sorted.
Import ListNotations.

Local Open Scope string_scope.
Local Open Scope list_scope.

(* ================================================================== *)
(** * Text primitives *)
(* ================================================================== *)

Module Text.

Definition code (c : ascii) : nat := nat_of_ascii c.

Definition between (lo hi n : nat) : bool := (lo <=? n)%nat && (n <=? hi)%nat.

(** [\w] of a regular expression without the [u] flag: [A-Za-z0-9_]. *)
Definition isWordChar (c : ascii) : bool :=
let n := code c in
between 48 57 n || between 65 90 n || between 97 122 n || (n =? 95)%nat.

Definition isDigit (c : ascii) : bool := between 48 57 (code c).

(** [String.prototype.toLowerCase]: A-Z, and U+00C0..U+00DE except the
  multiplication sign U+00D7 (bytes C3 80..9E except C3 97). *)
Fixpoint toLowerCase (s : string) : string :=
match s with
| EmptyString => EmptyString
| String c s' =>
    let n := code c in
    if between 65 90 n then String (ascii_of_nat (n + 32)) (toLowerCase s')
    else if (n =? 195)%nat then
      match s' with
      | String d s'' =>
          let m := code d in
          if between 128 158 m && negb (m =? 151)%nat
          then String c (String (ascii_of_nat (m + 32)) (toLowerCase s''))
          else String c (String d (toLowerCase s''))
      | EmptyString => String c EmptyString
      end
    else String c (toLowerCase s')
end.

(** Base letter of the Latin-1 letter with second UTF-8 byte [m] after
  the lead byte C3, when its canonical decomposition is a base letter
  followed by a combining diacritic. *)
Definition baseLetter (m : nat) : option ascii :=
if between 128 133 m then Some "A"%char
else if (m =? 135)%nat then Some "C"%char
else if between 136 139 m then Some "E"%char
else if between 140 143 m then Some "I"%char
else if (m =? 145)%nat then Some "N"%char
else if between 146 150 m then Some "O"%char
else if between 153 156 m then Some "U"%char
else if (m =? 157)%nat then Some "Y"%char
else if between 160 165 m then Some "a"%char
else if (m =? 167)%nat then Some "c"%char
else if between 168 171 m then Some "e"%char
else if between 172 175 m then Some "i"%char
else if (m =? 177)%nat then Some "n"%char
else if between 178 182 m then Some "o"%char
else if between 185 188 m then Some "u"%char
else if (m =? 189)%nat || (m =? 191)%nat then Some "y"%char
else None.

(** Second bytes after C2 of the spacing diacritics U+00A8, U+00AF,
  U+00B4, U+00B7, U+00B8. *)
Definition spacingDiacritic (m : nat) : bool :=
(m =? 168)%nat || (m =? 175)%nat || (m =? 180)%nat || (m =? 183)%nat || (m =? 184)%nat.

(** Second bytes after CD of the combining diacritics U+0340..U+034E,
  U+0350..U+0357, U+035D..U+0362 (all of CC 80..BF is diacritic). *)
Definition combiningCD (m : nat) : bool :=
between 128 142 m || between 144 151 m || between 157 162 m.

(** [s.normalize("NFD").replace(/\p{Diacritic}/gu, "")]. *)
Fixpoint stripDiacritics (s : string) : string :=
match s with
| EmptyString => EmptyString
| String c s' =>
    let n := code c in
    if (n =? 94)%nat || (n =? 96)%nat then stripDiacritics s'
    else if between 194 205 n && negb (between 196 203 n) then
      match s' with
      | String d s'' =>
          let m := code d in
          if (n =? 195)%nat then
            match baseLetter m with
            | Some b => String b (stripDiacritics s'')
            | None => String c (String d (stripDiacritics s''))
            end
          else if (n =? 194)%nat then
            if spacingDiacritic m then stripDiacritics s''
            else String c (String d (stripDiacritics s''))
          else if (n =? 204)%nat then stripDiacritics s''
          else if combiningCD m then stripDiacritics s''
          else String c (String d (stripDiacritics s''))
      | EmptyString => String c EmptyString
      end
    else String c (stripDiacritics s')
end.

(** White space of [trim] and of [\s]: U+0009..U+000D, U+0020 and the
  no-break space U+00A0 (bytes C2 A0). *)
Definition isAsciiSpace (c : ascii) : bool :=
let n := code c in between 9 13 n || (n =? 32)%nat.

Fixpoint skipWs (s : string) : string :=
match s with
| String c s' =>
    if isAsciiSpace c then skipWs s'
    else if (code c =? 194)%nat then
      match s' with
      | String d s'' => if (code d =? 160)%nat then skipWs s'' else s
      | EmptyString => s
      end
    else s
| EmptyString => s
end.

Fixpoint rev_string (acc s : string) : string :=
match s with
| EmptyString => acc
| String c s' => rev_string (String c acc) s'
end.

(** White space at the end of a string, read backwards: A0 C2. *)
Fixpoint skipWsRev (s : string) : string :=
match s with
| String c s' =>
    if isAsciiSpace c then skipWsRev s'
    else if (code c =? 160)%nat then
      match s' with
      | String d s'' => if (code d =? 194)%nat then skipWsRev s'' else s
      | EmptyString => s
      end
    else s
| EmptyString => s
end.

Definition trim (s : string) : string :=
rev_string "" (skipWsRev (rev_string "" (skipWs s))).

Fixpoint drop (n : nat) (s : string) : string :=
match n, s with
| O, _ => s
| S n', String _ s' => drop n' s'
| S _, EmptyString => EmptyString
end.

(** [s.includes(w)]. *)
Fixpoint includes (s w : string) : bool :=
prefix w s ||
match s with
| EmptyString => false
| String _ s' => includes s' w
end.

Definition startsWithWordChar (s : string) : bool :=
match s with
| String c _ => isWordChar c
| EmptyString => false
end.

(** An occurrence of the word [w] (first and last characters in [\w]) in
  [s], preceded by a word boundary when [bBefore] and followed by one
  when [bAfter].  [prevWord] tells whether the character before [s] is
  in [\w]. *)
Fixpoint occursFrom (bBefore bAfter : bool) (w : string) (prevWord : bool) (s : string) : bool :=
(prefix w s
 && (negb bBefore || negb prevWord)
 && (negb bAfter || negb (startsWithWordChar (drop (length w) s))))
||
match s with
| EmptyString => false
| String c s' => occursFrom bBefore bAfter w (isWordChar c) s'
end.

(** [/(w1|...|wn)\b/.test(s)] *)
Definition testWordsEnd (ws : list string) (s : string) : bool :=
existsb (fun w => occursFrom false true w false s) ws.

(** [/\b(w1|...|wn)\b/.test(s)] *)
Definition testWords (ws : list string) (s : string) : bool :=
existsb (fun w => occursFrom true true w false s) ws.

(** [/w1|...|wn/i.test(s)] for lower-case alternatives. *)
Definition testAnyCI (ws : list string) (s : string) : bool :=
existsb (includes (toLowerCase s)) ws.

(** [group.some((k) => text.includes(k))] *)
Definition someIncluded (group : list string) (text : string) : bool :=
existsb (includes text) group.

Fixpoint spanDigits (s : string) : string * string :=
match s with
| String c s' =>
    if isDigit c then let (d, r) := spanDigits s' in (String c d, r)
    else (EmptyString, s)
| EmptyString => (EmptyString, EmptyString)
end.

(** One attempt of [/\b(\d+\s*\/\s*\d+)\b/] at the start of [s] (the
  caller has checked the leading boundary); the capture with its white
  space removed. *)
Definition matchFraction (s : string) : option string :=
let (d1, r1) := spanDigits s in
if (length d1 =? 0)%nat then None
else
  match skipWs r1 with
  | String "/"%char r3 =>
      let (d2, r5) := spanDigits (skipWs r3) in
      if (length d2 =? 0)%nat then None
      else if startsWithWordChar r5 then None
      else Some (d1 ++ "/" ++ d2)%string
  | _ => None
  end.

Fixpoint findFraction (prevWord : bool) (s : string) : option string :=
match (if prevWord then None else matchFraction s) with
| Some f => Some f
| None =>
    match s with
    | EmptyString => None
    | String c s' => findFraction (isWordChar c) s'
    end
end.

Fixpoint join (sep : string) (l : list string) : string :=
match l with
| [] => ""
| [x] => x
| x :: l' => (x ++ sep ++ join sep l')%string
end.

(** [Array.from(new Set(t))]: first occurrences, in order. *)
Fixpoint dedup (seen : list string) (l : list string) : list string :=
match l with
| [] => []
| x :: l' =>
    if existsb (String.eqb x) seen then dedup seen l'
    else x :: dedup (x :: seen) l'
end.

End Text.

Import Text.

(* ================================================================== *)
(** * Query normalisation and intents *)
(* ================================================================== *)

(** [if (b) t.push(x)] *)
Definition pushIfB (b : bool) (x : string) (t : list string) : list string :=
  if b then t ++ [x] else t.

(** [normalizeQuery]: the material and size tokens found in the
    utterance, or the utterance itself when there is none. *)
Definition normalizeQuery (q : string) : string :=
  let s := toLowerCase q in
  let t := [] in
  let t := pushIfB (includes s "pvc") "pvc" t in
  let t := pushIfB (includes s "cpvc") "cpvc" t in
  let t := pushIfB (includes s "cobre") "cobre" t in
  let t := pushIfB (includes s "pex") "pex" t in
  let t := pushIfB (includes s "tablaroca" || includes s "drywall") "tablaroca" t in
  let t := pushIfB (includes s "madera") "madera" t in
  let t := match findFraction false s with Some f => t ++ [f] | None => t end in
  let t := pushIfB (includes s "media") "1/2" t in
  let t := pushIfB (includes s "tres cuartos") "3/4" t in
  let t := pushIfB (includes s "un cuarto" || includes s "cuarto") "1/4" t in
  let t := pushIfB (includes s "tres octavos") "3/8" t in
  let t := pushIfB (includes s "cinco octavos") "5/8" t in
  let t := pushIfB (includes s "una pulgada" || includes s "1 pulgada"
                    || includes s (String "1" (String (ascii_of_nat 34) "")))
                   (String "1" (String (ascii_of_nat 34) "")) t in
  let t := pushIfB (includes s "media pulgada") "1/2" t in
  let compact := trim (join " " (dedup [] t)) in
  if (length compact =? 0)%nat then q else compact.

Definition endPhrases : list string :=
  ["no"; "no gracias"; "eso es todo"; "listo"; "estoy bien"; "nada mas"; "nada más"].

(** [/^(no|no gracias|eso es todo|listo|estoy bien|nada mas|nada más)\.?$/]
    on the lower-cased, trimmed utterance. *)
Definition endIntent (text : string) : bool :=
  let s := trim (toLowerCase text) in
  existsb (fun w => String.eqb s w || String.eqb s (w ++ ".")%string) endPhrases.

(** [/(mejor|prefiero|cambial|cambia|en lugar de|en vez de|mejor pon|mejor usa)\b/]
    on the lower-cased utterance without diacritics. *)
Definition replaceIntent (text : string) : bool :=
  let s := stripDiacritics (toLowerCase text) in
  testWordsEnd ["mejor"; "prefiero"; "cambial"; "cambia"; "en lugar de"; "en vez de";
                "mejor pon"; "mejor usa"] s.

(** [/(quita|remueve|borra|elimina|saca)\b|sin\b/] on the lower-cased
    utterance. *)
Definition removeIntent (text : string) : bool :=
  let s := toLowerCase text in
  testWordsEnd ["quita"; "remueve"; "borra"; "elimina"; "saca"; "sin"] s.

(** [/\b(si|agrega|agregalo|anade|ponlo|sumalo|dame|me lo llevo|tambien|incluyelo|mete)\b/]
    on the lower-cased utterance without diacritics. *)
Definition addIntent (text : string) : bool :=
  let s := stripDiacritics (toLowerCase text) in
  testWords ["si"; "agrega"; "agregalo"; "anade"; "ponlo"; "sumalo"; "dame";
             "me lo llevo"; "tambien"; "incluyelo"; "mete"] s.

(** The regular expressions of [handler] that are tested on the raw
    utterance or on a line's text with the [i] flag:
    [/repuesto|disco|cuchilla/i], [/tefl[oó]n|ptfe|ptf/i],
    [/un[ií]on|roscada/i] (the accent is on the i, unlike the keyword
    "unión" of [pickByKeywords]) and [/cortatubo|corta tubo/i]. *)
Definition spareWords : list string := ["repuesto"; "disco"; "cuchilla"].
Definition teflonWords : list string := ["teflon"; "teflón"; "ptfe"; "ptf"].
Definition unionWords : list string := ["union"; "uníon"; "roscada"].
Definition cutterWords : list string := ["cortatubo"; "corta tubo"].

(** [/un(?:i|í)on|roscada|tefl(?:o|ó)n|ptfe|ptf|repuesto|disco|cuchilla/i] *)
Definition mentionsAlternates (q : string) : bool :=
  testAnyCI (unionWords ++ teflonWords ++ spareWords) q.

(* ================================================================== *)
(** * Data model *)
(* ================================================================== *)

(** A row of the [products] table, with the columns the handler selects.
    A null text column is the empty string. *)
Record Product := mkProduct {
  p_sku : string;
  p_name : string;
  p_description : string;
  p_category : string;
  p_subcategory : string;
  p_price : Z;
  p_currency : string;
  p_stock : Z;
  p_image_url : string
}.

(** [type CartItem = { sku: string; qty?: number }] *)
Record CartItem := mkCartItem {
  ci_sku : string;
  ci_qty : option Z
}.

(** A number as [Number(x)] yields it: an integer, or NaN for a value
    that is not numeric. *)
Inductive JsNumber :=
| Finite (z : Z)
| NaN.

(** [Math.max(1, x)]: NaN when [x] is NaN. *)
Definition jsMax1 (x : JsNumber) : JsNumber :=
  match x with
  | Finite z => Finite (Z.max 1 z)
  | NaN => NaN
  end.

(** A basket or upsell line.  The text fields of a proposed line are the
    strings its template literals render; its [qty] is absent or the
    number [Number(it.qty)] yields. *)
Record Line := mkLine {
  sku : string;
  name : string;
  qty : option JsNumber;
  price : Z;
  currency : string;
  stock : Z;
  image_url : string;
  why : string
}.

Definition setQty (it : Line) (n : JsNumber) : Line :=
  mkLine (sku it) (name it) (Some n) (price it) (currency it) (stock it) (image_url it) (why it).

(** An element of a proposed [basket] or [upsell] array: an object with
    a string [sku], or anything else (null, a primitive, an object
    without a string [sku]). *)
Inductive RawItem :=
| RLine (l : Line)
| RJunk.

(** The parsed proposal [{ plan, reply }].  An array field that is
    missing or not an array is [None]; a missing or empty string is
    [None] or [Some ""], both falsy. *)
Record Parsed := mkParsed {
  r_title : string;
  r_steps : list string;
  r_basket : option (list RawItem);
  r_upsell : option (list RawItem);
  r_confirm : option string;
  r_reply : option string
}.

Inductive Proposal :=
| Malformed
| Valid (p : Parsed).

Record Plan := mkPlan {
  title : string;
  steps : list string;
  basket : list Line;
  upsell : list Line;
  confirm : option string
}.

Inductive Response :=
| Status200 (plan : Plan) (reply : string)
| Status400 (error : string).

(** ** Insertion-ordered maps keyed by SKU *)

Section SkuMap.
Context {V : Type}.

Fixpoint map_set (k : string) (v : V) (m : list (string * V)) : list (string * V) :=
  match m with
  | [] => [(k, v)]
  | (k', v') :: m' =>
      if String.eqb k' k then (k, v) :: m' else (k', v') :: map_set k v m'
  end.

Fixpoint map_get (k : string) (m : list (string * V)) : option V :=
  match m with
  | [] => None
  | (k', v') :: m' => if String.eqb k' k then Some v' else map_get k m'
  end.

Definition map_has (k : string) (m : list (string * V)) : bool :=
  match map_get k m with Some _ => true | None => false end.

Definition map_keys (m : list (string * V)) : list string := map fst m.
Definition map_values (m : list (string * V)) : list V := map snd m.
End SkuMap.

(** [x || d] on an optional string. *)
Definition orElse (x : option string) (d : string) : string :=
  match x with
  | Some s => if (length s =? 0)%nat then d else s
  | None => d
  end.

Definition orElseOpt (x : option string) (d : string) : option string :=
  Some (orElse x d).

(** [new Set(...).has(s)] *)
Definition setHas (s : string) (l : list string) : bool :=
  existsb (String.eqb s) l.

(** [arr.some((x) => x.sku === s)] *)
Definition hasSku (s : string) (l : list Line) : bool :=
  existsb (fun x => String.eqb (sku x) s) l.

(* ================================================================== *)
(** * Keyword fallback picker *)
(* ================================================================== *)

Definition keywords : list (list string) :=
  [ ["union"; "unión"; "roscada"];
    ["teflon"; "teflón"; "ptf"; "ptfe"; "cinta"];
    ["cople"; "acople"; "empalme"];
    ["cortatubo"; "corta tubo"];
    ["repuesto"; "disco"; "cuchilla"];
    ["pegamento"; "cemento"; "adhesivo"; "pvc"];
    ["primer"; "limpiador"] ].

Definition pickText (q qNorm : string) : string :=
  toLowerCase (q ++ " " ++ qNorm)%string.

Definition hay (c : Product) : string :=
  toLowerCase (p_name c ++ " " ++ p_description c ++ " " ++ p_category c ++ " "
               ++ p_subcategory c)%string.

(** The body of the [for (const group of keywords)] loop. *)
Definition groupHit (text hayC : string) (group : list string) : bool :=
  someIncluded group text && someIncluded group hayC.

Definition scoreOf (text : string) (c : Product) : Z :=
  let score := fold_left (fun score group =>
                            if groupHit text (hay c) group then score + 2 else score)%Z
                         keywords 0%Z in
  if (p_stock c >? 0)%Z then (score + 1)%Z else score.

(** [Array.prototype.sort] is stable; [sortDesc] is the stable sort for
    the comparator [(a, b) => b.score - a.score]. *)
Fixpoint insertDesc {A} (x : A * Z) (l : list (A * Z)) : list (A * Z) :=
  match l with
  | [] => [x]
  | y :: l' => if (snd y <=? snd x)%Z then x :: y :: l' else y :: insertDesc x l'
  end.

Fixpoint sortDesc {A} (l : list (A * Z)) : list (A * Z) :=
  match l with
  | [] => []
  | x :: l' => insertDesc x (sortDesc l')
  end.

(** [arr.slice(0, max)], also for a negative [max]. *)
Definition slice0 {A} (max : Z) (l : list A) : list A :=
  if (0 <=? max)%Z then firstn (Z.to_nat max) l
  else firstn (List.length l - Z.to_nat (- max)) l.

Definition pickByKeywords (q qNorm : string) (candidates : list Product) (max : Z)
  : list Product :=
  let text := pickText q qNorm in
  let scored := map (fun c => (c, scoreOf text c)) candidates in
  map fst (slice0 max (sortDesc (filter (fun s => (snd s >? 0)%Z) scored))).

(* ================================================================== *)
(** * The handler: validation and merge *)
(* ================================================================== *)

(** ** Reads of the product table *)

(** [.in("sku", skus)] *)
Definition selectIn (catalog : list Product) (skus : list string) : list Product :=
  filter (fun p => setHas (p_sku p) skus) catalog.

(** [.eq("sku", s).limit(1).maybeSingle()] *)
Definition selectOne (catalog : list Product) (s : string) : option Product :=
  find (fun p => String.eqb (p_sku p) s) catalog.

(** ** Candidate map and cart quantity map *)

Definition setAll (ps : list Product) (m : list (string * Product)) : list (string * Product) :=
  fold_left (fun m p => map_set (p_sku p) p m) ps m.

(** [bySku] as it stands at [const candidates = Array.from(bySku.values())]:
    the search rows, then the rows of the cart's SKUs. *)
Definition buildBySku (hits : list Product) (cart : list CartItem) (catalog : list Product)
  : list (string * Product) :=
  let bySku := setAll hits [] in
  let cartSkuList := dedup [] (map ci_sku cart) in
  if (List.length cartSkuList =? 0)%nat then bySku
  else setAll (selectIn catalog cartSkuList) bySku.

(** [Number(ci.qty || 1)] *)
Definition numberOr1 (x : option Z) : Z :=
  match x with
  | Some z => if (z =? 0)%Z then 1%Z else z
  | None => 1%Z
  end.

Definition buildCartBySku (cart : list CartItem) : list (string * Z) :=
  fold_left (fun m ci => map_set (ci_sku ci) (Z.max 1 (numberOr1 (ci_qty ci))) m) cart [].

(** ** Validation filter *)

Definition rawSkuIn (candidateSkus : list string) (x : RawItem) : bool :=
  match x with
  | RLine l => setHas (sku l) candidateSkus
  | RJunk => false
  end.

Definition linesOf (arr : list RawItem) : list Line :=
  flat_map (fun x => match x with RLine l => [l] | RJunk => [] end) arr.

Definition filterToCandidates (candidateSkus : list string) (arr : option (list RawItem))
  : list Line :=
  linesOf (filter (rawSkuIn candidateSkus) (match arr with Some a => a | None => [] end)).

(** [it.qty = Math.max(1, Number(cartQty ?? it.qty ?? 1))] *)
Definition preferClientQty (cartBySku : list (string * Z)) (it : Line) : Line :=
  let n := match map_get (sku it) cartBySku with
           | Some c => Finite c
           | None => match qty it with Some x => x | None => Finite 1 end
           end in
  setQty it (jsMax1 n).

(** The object literal [{ sku: s, name: src.name, qty: n, price: src.price, ..., why }]. *)
Definition lineFrom (s : string) (src : Product) (n : Z) (w : string) : Line :=
  mkLine s (p_name src) (Some (Finite n)) (p_price src) (p_currency src) (p_stock src)
         (p_image_url src) w.

Definition withBasket (plan : Plan) (b : list Line) : Plan :=
  mkPlan (title plan) (steps plan) b (upsell plan) (confirm plan).

Definition withConfirm (plan : Plan) (c : option string) : Plan :=
  mkPlan (title plan) (steps plan) (basket plan) (upsell plan) c.

(** ** Add path *)

(** [`${p.name} ${p.description}`] and [`${x.name} ${x.sku}`] *)
Definition nameDesc (p : Product) : string := (p_name p ++ " " ++ p_description p)%string.
Definition nameSku (x : Line) : string := (name x ++ " " ++ sku x)%string.

Definition whyKept : string := "Conservado de tu selección previa.".
Definition whySpare : string := "Agregado a tu pedido como repuesto del cortatubo.".
Definition whyTeflon : string := "Agregado para sellar roscas (cinta de teflón).".
Definition whyPicked : string := "Seleccionado según tu preferencia.".
Definition whyPrior : string := "Pedido previo del cliente.".

(** The loop "re-add client cart items (preserve qty)". *)
Definition readdCart (candidateSkus : list string) (bySku : list (string * Product))
    (cartBySku : list (string * Z)) (ensured : list Line) : list Line :=
  fold_left
    (fun ens (e : string * Z) =>
       let (s, n) := e in
       if negb (hasSku s ens) && setHas s candidateSkus then
         match map_get s bySku with
         | Some src => ens ++ [lineFrom s src n whyKept]
         | None => ens
         end
       else ens)
    cartBySku ensured.

Definition pushIf (candidates : list Product) (predicate : Product -> bool) (w : string)
    (ensured : list Line) : list Line :=
  match find predicate candidates with
  | Some pick =>
      if negb (hasSku (p_sku pick) ensured)
      then ensured ++ [lineFrom (p_sku pick) pick 1 w]
      else ensured
  | None => ensured
  end.

Definition TEFLON_SKUS : list string := ["PTF-12"].

(** "Fallback TEFLÓN": the pinned SKU set, read from the table. *)
Definition teflonFallback (catalog : list Product) (ensured : list Line) : list Line :=
  if negb (existsb (fun x => testAnyCI teflonWords (nameSku x)) ensured) then
    let tfetch := selectIn catalog TEFLON_SKUS in
    let t := match find (fun p => (p_stock p >? 0)%Z) tfetch with
             | Some p => Some p
             | None => hd_error tfetch
             end in
    match t with
    | Some t =>
        if negb (hasSku (p_sku t) ensured)
        then ensured ++ [lineFrom (p_sku t) t 1 whyTeflon]
        else ensured
    | None => ensured
    end
  else ensured.

(** "Case-1 assist": the spare of the copper pipe cutter.  Returns the
    basket and the candidate map, which the fetched row is stored into. *)
Definition spareAssist (catalog : list Product) (bySku : list (string * Product))
    (cartBySku : list (string * Z)) (ensured : list Line)
  : list Line * list (string * Product) :=
  if map_has "CORTA-COBRE-001" cartBySku && negb (hasSku "REP-CORTA-001" ensured) then
    let (rep, bySku') :=
      match map_get "REP-CORTA-001" bySku with
      | Some r => (Some r, bySku)
      | None =>
          match selectOne catalog "REP-CORTA-001" with
          | Some repFetch => (Some repFetch, map_set (p_sku repFetch) repFetch bySku)
          | None => (None, bySku)
          end
      end in
    match rep with
    | Some rep => (ensured ++ [lineFrom (p_sku rep) rep 1 whySpare], bySku')
    | None => (ensured, bySku')
    end
  else (ensured, bySku).

Definition addPath (q : string) (catalog candidates : list Product)
    (candidateSkus : list string) (bySku : list (string * Product))
    (cartBySku : list (string * Z)) (plan : Plan)
  : Plan * list (string * Product) :=
  let wantsSpare := testAnyCI spareWords q in
  let wantsTeflon := testAnyCI teflonWords q in
  let ensured := filter (fun it => setHas (sku it) candidateSkus) (basket plan) in
  let ensured := readdCart candidateSkus bySku cartBySku ensured in
  let ensured :=
    if wantsSpare then
      pushIf candidates
             (fun p => testAnyCI spareWords (nameDesc p) && testAnyCI cutterWords (nameDesc p))
             whySpare ensured
    else ensured in
  let ensured :=
    if wantsTeflon then
      pushIf candidates (fun p => testAnyCI teflonWords (nameDesc p)) whyTeflon ensured
    else ensured in
  let ensured := if wantsTeflon then teflonFallback catalog ensured else ensured in
  let (ensured, bySku) :=
    if wantsSpare then spareAssist catalog bySku cartBySku ensured else (ensured, bySku) in
  (withConfirm (withBasket plan ensured)
     (orElseOpt (confirm plan)
        "¿Deseas algo más? Si está todo, pulsa **Confirmar e imprimir**."),
   bySku).

(** ** Strong replace path *)

Definition shouldForceReplace (q : string) (userDidAdd isReplace : bool)
    (cartBySku : list (string * Z)) (b : list Line) : bool :=
  negb userDidAdd
  && (isReplace
      || (mentionsAlternates q
          && (0 <? List.length b)%nat
          && forallb (fun x => setHas (sku x) (map_keys cartBySku)) b)).

(** "drop items previously in cart" *)
Definition dropPrevious (cartBySku : list (string * Z)) (b : list Line) : list Line :=
  filter (fun x => negb (setHas (sku x) (map_keys cartBySku))) b.

Definition pickedLine (src : Product) : Line := lineFrom (p_sku src) src 1 whyPicked.

Definition appendPicks (picks : list Product) (b : list Line) : list Line :=
  fold_left (fun b src => if negb (hasSku (p_sku src) b) then b ++ [pickedLine src] else b)
            picks b.

(** [if (cartQty) it.qty = Math.max(1, Number(cartQty))] *)
Definition reassertCartQty (cartBySku : list (string * Z)) (it : Line) : Line :=
  match map_get (sku it) cartBySku with
  | Some c => if (c =? 0)%Z then it else setQty it (Finite (Z.max 1 c))
  | None => it
  end.

Definition strongReplace (q qNorm : string) (candidates : list Product)
    (cartBySku : list (string * Z)) (b : list Line) : list Line :=
  let b := dropPrevious cartBySku b in
  let b :=
    if (List.length b =? 0)%nat then
      map pickedLine (pickByKeywords q qNorm candidates 3)
    else if mentionsAlternates q then
      let wantUnion := testAnyCI unionWords q in
      let wantTeflon := testAnyCI teflonWords q in
      let wantSpare := testAnyCI spareWords q in
      let hasUnion := existsb (fun x => testAnyCI unionWords (nameSku x)) b in
      let hasTeflon := existsb (fun x => testAnyCI teflonWords (nameSku x)) b in
      let hasSpare := existsb (fun x => testAnyCI spareWords (nameSku x)) b in
      if (wantUnion && negb hasUnion) || (wantTeflon && negb hasTeflon)
         || (wantSpare && negb hasSpare)
      then appendPicks (pickByKeywords q qNorm candidates 3) b
      else b
    else b in
  map (reassertCartQty cartBySku) b.

(** ** Empty basket handling *)

(** "restore previous cart" *)
Definition restoreCart (candidateSkus : list string) (bySku : list (string * Product))
    (cartBySku : list (string * Z)) : list Line :=
  fold_left
    (fun b (e : string * Z) =>
       let (s, n) := e in
       if negb (setHas s candidateSkus) then b
       else match map_get s bySku with
            | Some src => b ++ [lineFrom (p_sku src) src n whyKept]
            | None => b
            end)
    cartBySku [].

Definition emptyBasketHandling (q qNorm : string) (isReplace userDidAdd userWantsRemoval : bool)
    (candidates : list Product) (candidateSkus : list string)
    (bySku : list (string * Product)) (cartBySku : list (string * Z)) (plan : Plan) : Plan :=
  if (List.length (basket plan) =? 0)%nat then
    if isReplace && negb userDidAdd then
      withConfirm (withBasket plan (map pickedLine (pickByKeywords q qNorm candidates 3)))
        (orElseOpt (confirm plan)
           "¿Así está bien el cambio? Si sí, pulsa **Confirmar e imprimir**.")
    else if negb userWantsRemoval && (0 <? List.length cartBySku)%nat then
      withConfirm (withBasket plan (restoreCart candidateSkus bySku cartBySku))
        (orElseOpt (confirm plan)
           "Pulsa **Confirmar e imprimir** para finalizar, o indica cambios.")
    else plan
  else plan.

(** ** Cart preservation on normal turns *)

Definition readdOmitted (candidateSkus : list string) (bySku : list (string * Product))
    (cartBySku : list (string * Z)) (b : list Line) : list Line :=
  fold_left
    (fun b (e : string * Z) =>
       let (s, n) := e in
       if negb (hasSku s b) && setHas s candidateSkus then
         match map_get s bySku with
         | Some src => b ++ [lineFrom (p_sku src) src n whyPrior]
         | None => b
         end
       else b)
    cartBySku b.

(** ** PVC-leak out-of-stock nudge *)

Definition oosPrefix : string :=
  ("El **cople recto 1/2" ++ String (ascii_of_nat 34) "** está agotado. ")%string.

Definition oosConfirm : string :=
  ("¿Desea confirmar la **Unión roscada 1/2" ++ String (ascii_of_nat 34)
     "** como alternativa?")%string.

Definition pvcLeakNudge (q : string) (catalog : list Product) (st : Plan * string)
  : Plan * string :=
  let (plan, reply) := st in
  let looksLikePVCLek := testAnyCI ["fuga"] q && testAnyCI ["pvc"] q in
  if looksLikePVCLek then
    let cople := selectOne catalog "PVC-CPL-050" in
    let basketHasUnion := hasSku "PVC-UNION-050" (basket plan) in
    match cople with
    | Some cople =>
        if (p_stock cople =? 0)%Z && basketHasUnion then
          if negb (testAnyCI ["agotad"] reply) then
            (withConfirm plan (orElseOpt (confirm plan) oosConfirm),
             (oosPrefix ++ reply)%string)
          else (plan, reply)
        else (plan, reply)
    | None => (plan, reply)
    end
  else (plan, reply).

(** ** The turn *)

Definition endPlan : Plan :=
  mkPlan "" [] [] [] (Some "Pulsa **Confirmar e imprimir** para finalizar.").
Definition endReply : string :=
  "Perfecto. Pulsa **Confirmar e imprimir** para terminar. ¡Éxitos con tu proyecto!".

Definition fallbackPlan : Plan :=
  mkPlan "" [] [] [] (Some "¿Deseas confirmar ahora?").
Definition fallbackReply : string :=
  "Tengo una sugerencia lista. ¿Deseas confirmar ahora?".

(** The candidate list of a turn, [Array.from(bySku.values())]. *)
Definition candidatesOf (hits : list Product) (cart : list CartItem) (catalog : list Product)
  : list Product :=
  map_values (buildBySku hits cart catalog).

(** [candidateSkus], the candidate set of the turn. *)
Definition candidateSkusOf (hits : list Product) (cart : list CartItem)
    (catalog : list Product) : list string :=
  map p_sku (candidatesOf hits cart catalog).

(** The proposal after the validation filter and the first quantity
    loop ("prefer client qty if present"). *)
Definition validated (candidateSkus : list string) (cartBySku : list (string * Z))
    (parsed : Parsed) : Plan :=
  mkPlan (r_title parsed) (r_steps parsed)
         (map (preferClientQty cartBySku) (filterToCandidates candidateSkus (r_basket parsed)))
         (filterToCandidates candidateSkus (r_upsell parsed))
         (r_confirm parsed).

(** The empty basket handling and the cart preservation, the two steps
    that follow the strong replace path. *)
Definition finishMerge (q : string) (userDidAdd : bool) (candidates : list Product)
    (bySku : list (string * Product)) (cartBySku : list (string * Z)) (plan : Plan)
  : Plan :=
  let qNorm := normalizeQuery q in
  let isReplace := replaceIntent q in
  let userWantsRemoval := removeIntent q in
  let candidateSkus := map p_sku candidates in
  let plan :=
    emptyBasketHandling q qNorm isReplace userDidAdd userWantsRemoval
                        candidates candidateSkus bySku cartBySku plan in
  if negb isReplace && negb userWantsRemoval
  then withBasket plan (readdOmitted candidateSkus bySku cartBySku (basket plan))
  else plan.

(** Everything between the validation and the nudge. *)
Definition merge (q : string) (cart : list CartItem) (hits catalog : list Product)
    (plan : Plan) : Plan :=
  let qNorm := normalizeQuery q in
  let isReplace := replaceIntent q in
  let isAdd := addIntent q in
  let bySku := buildBySku hits cart catalog in
  let candidates := map_values bySku in
  let candidateSkus := map p_sku candidates in
  let cartBySku := buildCartBySku cart in
  let userWantsRemoval := removeIntent q in
  let (plan, bySku) :=
    if isAdd then addPath q catalog candidates candidateSkus bySku cartBySku plan
    else (plan, bySku) in
  let userDidAdd := isAdd in
  let plan :=
    if shouldForceReplace q userDidAdd isReplace cartBySku (basket plan)
    then withBasket plan (strongReplace q qNorm candidates cartBySku (basket plan))
    else plan in
  let plan :=
    emptyBasketHandling q qNorm isReplace userDidAdd userWantsRemoval
                        candidates candidateSkus bySku cartBySku plan in
  if negb isReplace && negb userWantsRemoval
  then withBasket plan (readdOmitted candidateSkus bySku cartBySku (basket plan))
  else plan.

(** [handler], from the parsed request body on.  The prompt and the
    conversation history do not reach the response and are left out; the
    [__debug] echo of a request with [?debug=1] is added by
    [handlerDebug] below. *)
Definition handler (q : string) (cart : list CartItem) (hits catalog : list Product)
    (proposal : Proposal) : Response :=
  if (String.length q =? 0)%nat then Status400 "q required"
  else if endIntent q then Status200 endPlan endReply
  else
    match proposal with
    | Malformed => Status200 fallbackPlan fallbackReply
    | Valid parsed =>
        let candidateSkus := candidateSkusOf hits cart catalog in
        let cartBySku := buildCartBySku cart in
        let plan := validated candidateSkus cartBySku parsed in
        let reply := orElse (r_reply parsed) "Listo. ¿Algo más?" in
        let plan := merge q cart hits catalog plan in
        let (plan, reply) := pvcLeakNudge q catalog (plan, reply) in
        Status200 plan reply
    end.

(** [plan.__debug = { isReplace, isAdd, q }], which a request with
    [?debug=1] gets inside the plan. *)
Record DebugEcho := mkDebugEcho {
  dbg_isReplace : bool;
  dbg_isAdd : bool;
  dbg_q : string
}.

(** [handler] with the [debug] query parameter ([debug] is
    [req.query.debug === "1"]).  The echo is attached just before the
    last [return], which the turns reach that got a proposal that
    parses; the 400 answer, the End shortcut and the fallback for a
    malformed proposal return before it. *)
Definition handlerDebug (debug : bool) (q : string) (cart : list CartItem)
    (hits catalog : list Product) (proposal : Proposal)
  : Response * option DebugEcho :=
  let reachesLastReturn :=
    negb (String.length q =? 0)%nat && negb (endIntent q)
    && match proposal with Valid _ => true | Malformed => false end in
  (handler q cart hits catalog proposal,
   if debug && reachesLastReturn
   then Some (mkDebugEcho (replaceIntent q) (addIntent q) q)
   else None).

(* ================================================================== *)
(** * Vocabulary of the properties *)
(* ================================================================== *)

(** The basket and the upsell list a response carries (none for an
    error response). *)
Definition basketOf (r : Response) : list Line :=
  match r with
  | Status200 plan _ => basket plan
  | Status400 _ => []
  end.

Definition upsellOf (r : Response) : list Line :=
  match r with
  | Status200 plan _ => upsell plan
  | Status400 _ => []
  end.

(** The second keyword group of [pickByKeywords]. *)
Definition teflonGroup : list string := ["teflon"; "teflón"; "ptf"; "ptfe"; "cinta"].

(** Number of keyword groups with a member both in the utterance text
    and in the candidate's text. *)
Definition groupsHit (text : string) (c : Product) : nat :=
  List.length (filter (groupHit text (hay c)) keywords).

(** The candidates with a positive score, best first, before the cut
    at [max]. *)
Definition ranked (q qNorm : string) (candidates : list Product) : list Product :=
  let text := pickText q qNorm in
  map fst (sortDesc (filter (fun s => (snd s >? 0)%Z)
                            (map (fun c => (c, scoreOf text c)) candidates))).

(** Order of the scored pairs after [sortDesc]. *)
Definition geScore {A} (a b : A * Z) : Prop := (snd b <= snd a)%Z.

(** A scored list whose second components are the scores of the first. *)
Definition tagged {A} (g : A -> Z) (l : list (A * Z)) : Prop :=
  Forall (fun e => snd e = g (fst e)) l.

(** Every entry of the candidate map is stored under its own SKU. *)
Definition keyed (m : list (string * Product)) : Prop :=
  Forall (fun e => p_sku (snd e) = fst e) m.

(** A candidate that matches the teflon group for the utterance text
    and is in stock. *)
Definition stockedTeflonMatch (text : string) (c : Product) : bool :=
  groupHit text (hay c) teflonGroup && (p_stock c >? 0)%Z.

(** The trigger of the strong replace path as the specification words
    it: not an Add turn, and Replace was classified or the utterance
    mentions alternate vocabulary while the whole basket is a subset of
    the previous cart's SKUs. *)
Definition forceReplaceAsSpecified (q : string) (userDidAdd isReplace : bool)
    (cartBySku : list (string * Z)) (b : list Line) : bool :=
  negb userDidAdd
  && (isReplace
      || (mentionsAlternates q
          && forallb (fun x => setHas (sku x) (map_keys cartBySku)) b)).

(** ** Sample catalogue rows and proposals *)

Module Sample.
Definition row (s n d : string) (st : Z) : Product :=
  mkProduct s n d "Plomería" "" 4500 "MXN" st "".

Definition corta : Product :=
  row "CORTA-COBRE-001" "Cortatubo para cobre" "Cortatubo de 1/8 a 1-1/8" 4.
Definition rep : Product :=
  row "REP-CORTA-001" "Disco de repuesto" "Repuesto para cortatubo de cobre" 9.
Definition teflon : Product :=
  row "PTF-12" "Cinta de teflón 1/2 x 12m" "Sella roscas" 20.
Definition tape34 : Product :=
  row "PTF-34" "Cinta teflon PTFE 3/4 x 10m" "Sellador de roscas" 12.
Definition glue : Product :=
  row "PVC-GLUE-240" "Pegamento para PVC 240ml" "Cemento solvente" 7.
Definition union : Product :=
  row "PVC-UNION-050" "Unión roscada PVC 1/2" "Unión roscada" 3.
Definition cople : Product :=
  row "PVC-CPL-050" "Cople recto PVC 1/2" "Cople" 0.

Definition rawLine (s : string) (n : option Z) : RawItem :=
  RLine (mkLine s "propuesto" (option_map Finite n) 4500 "MXN" 1 "" "Sugerido.").

(** A proposed line whose [qty] is not numeric, as ["qty": "dos"]. *)
Definition rawLineNaN (s : string) : RawItem :=
  RLine (mkLine s "propuesto" (Some NaN) 4500 "MXN" 1 "" "Sugerido.").

Definition proposalOf (b : list RawItem) : Proposal :=
  Valid (mkParsed "Plan" ["Paso 1"; "Paso 2"; "Paso 3"] (Some b) (Some []) None
                  (Some "Listo.")).

Definition skuQty (l : Line) : string * option JsNumber := (sku l, qty l).
End Sample.

(** ** Where the lines of a merged basket come from *)

Section Origin.
Variables (q : string) (cart : list CartItem) (hits catalog : list Product).
Variable b0 : list Line.

(** A line of the basket after [merge], started from the basket [b0]:
    a line of [b0], possibly with the cart's quantity reasserted; a
    line built from a candidate row, at the cart's quantity when the
    cart has the SKU and at 1 otherwise; or, on an Add turn, a line of
    quantity 1 built from a pinned row read from the product table,
    for a SKU the cart does not have. *)
Inductive origin : Line -> Prop :=
| from_proposal l :
    In l b0 -> origin l
| from_proposal_requantified l :
    In l b0 -> origin (reassertCartQty (buildCartBySku cart) l)
| from_candidate src n w :
    In src (map_values (buildBySku hits cart catalog)) ->
    match map_get (p_sku src) (buildCartBySku cart) with
    | Some c => n = c
    | None => n = 1%Z
    end ->
    origin (lineFrom (p_sku src) src n w)
| from_pinned t w :
    addIntent q = true ->
    In t catalog ->
    p_sku t = "PTF-12" \/ p_sku t = "REP-CORTA-001" ->
    map_get (p_sku t) (buildCartBySku cart) = None ->
    origin (lineFrom (p_sku t) t 1 w).

(** Every SKU of the cart that is a candidate has a line in [ens]. *)
Definition covers (ens : list Line) : Prop :=
  forall s, In s (map_keys (buildCartBySku cart)) ->
            In s (map p_sku (map_values (buildBySku hits cart catalog))) ->
            In s (map sku ens).

(** [bySku'] reads like the candidate map on every candidate SKU. *)
Definition agrees (bySku' : list (string * Product)) : Prop :=
  forall s, In s (map p_sku (map_values (buildBySku hits cart catalog))) ->
            map_get s bySku' = map_get s (buildBySku hits cart catalog).
End Origin.

(** A proposed quantity floored at 1, 1 when it is absent:
    [Math.max(1, Number(it.qty ?? 1))]. *)
Definition floor1 (x : option JsNumber) : JsNumber :=
  jsMax1 (match x with Some v => v | None => Finite 1 end).

(** The SKUs a basket line may carry besides the candidates: the pinned
    rows the add path reads from the product table. *)
Definition pinnedSku (s : string) : Prop := s = "PTF-12" \/ s = "REP-CORTA-001".

(* ================================================================== *)
(** * The other functions of the repository *)
(* ================================================================== *)

(** ** [likeNeedle] (pages/api/agent.ts) *)

(** [.replace(/[(),]/g, " ")] *)
Fixpoint replaceSeparators (s : string) : string :=
  match s with
  | EmptyString => EmptyString
  | String c s' =>
      let n := code c in
      if (n =? 40)%nat || (n =? 41)%nat || (n =? 44)%nat
      then String " "%char (replaceSeparators s')
      else String c (replaceSeparators s')
  end.

(** [.replace(/\s+/g, " ")]: every maximal run of white space becomes
    one space.  [inRun] tells whether the previous character was white
    space. *)
Fixpoint collapseWs (inRun : bool) (s : string) : string :=
  match s with
  | EmptyString => EmptyString
  | String c s' =>
      if isAsciiSpace c then
        if inRun then collapseWs true s' else String " "%char (collapseWs true s')
      else if (code c =? 194)%nat then
        match s' with
        | String d s'' =>
            if (code d =? 160)%nat then
              if inRun then collapseWs true s'' else String " "%char (collapseWs true s'')
            else String c (collapseWs false s')
        | EmptyString => String c EmptyString
        end
      else String c (collapseWs false s')
  end.

Definition likeNeedle (val : string) : string :=
  ("%" ++ trim (collapseWs false (replaceSeparators val)) ++ "%")%string.

(** ** [suggestUpsell] (lib/upsell.ts) *)

Record Item := mkItem {
  i_sku : string;
  i_name : string
}.

Definition teflonItem : Item :=
  mkItem "PTF-12" ("Cinta de teflón 1/2" ++ String (ascii_of_nat 34) "x12m")%string.
Definition wrenchItem : Item :=
  mkItem "WR-8IN" ("Llave ajustable 8" ++ String (ascii_of_nat 34) "")%string.
Definition maskingItem : Item := mkItem "MASK-TAPE-36" "Cinta masking 36mm".

Definition suggestUpsell (basketSkus : list string) : list Item :=
  let s := dedup [] basketSkus in
  let ups := @nil Item in
  let ups :=
    if setHas "PVC-GLUE-240" s || setHas "PVC-CPL-050" s then
      let ups := if negb (setHas "PTF-12" s) then ups ++ [teflonItem] else ups in
      let ups := if negb (setHas "WR-8IN" s) then ups ++ [wrenchItem] else ups in
      ups
    else ups in
  let ups :=
    if negb (setHas "MASK-TAPE-36" s) && existsb (fun k => prefix "PAINT-" k) s
    then ups ++ [maskingItem]
    else ups in
  slice0 2 ups.

(** ** The product lookup endpoint (pages/api/get.ts) *)

Inductive GetResponse :=
| GetOk (products : list Product)
| GetBadRequest (error : string).

(** [handler] of pages/api/get.ts for a POST whose read of the table
    answers: [new Map(data.map((p) => [p.sku, p]))], then
    [skus.map((s) => bySku.get(s)).filter(Boolean)]. *)
Definition getHandler (catalog : list Product) (skus : list string) : GetResponse :=
  if (List.length skus =? 0)%nat then GetBadRequest "skus[] required"
  else
    let data := selectIn catalog skus in
    let bySku := setAll data [] in
    GetOk (flat_map (fun s => match map_get s bySku with
                              | Some p => [p]
                              | None => []
                              end) skus).

(** ** The search endpoint (pages/api/search.ts) *)

(** The candidate list of pages/api/search.ts from the rows of its two
    reads: [[...products, ...synProducts].forEach((p) => map.set(p.sku, p))],
    then [Array.from(map.values())]. *)
Definition searchCandidates (products synProducts : list Product) : list Product :=
  map_values (setAll (products ++ synProducts) []).

(** ** The client side of the cart (components, pages/index.tsx) *)

(** [Number(b.qty || 1)] on the quantity of a returned line: an absent
    quantity, 0 and NaN (sent as null) are falsy. *)
Definition lineQtyOr1 (x : option JsNumber) : Z :=
  match x with
  | Some (Finite z) => if (z =? 0)%Z then 1%Z else z
  | Some NaN => 1%Z
  | None => 1%Z
  end.


(** BasketPane: [Math.max(1, Number(it.qty || 1))] *)
Definition currentQty (it : Line) : Z := Z.max 1 (lineQtyOr1 (qty it)).

(** BasketPane, [handleInc]: the quantity handed to [onQtyChange],
    [Math.min(current + 1, Math.max(1, it.stock || 0))]. *)
Definition handleInc (it : Line) : Z :=
  Z.min (currentQty it + 1) (Z.max 1 (stock it)).

(** BasketPane, [handleDec]: [Math.max(1, current - 1)]. *)
Definition handleDec (it : Line) : Z := Z.max 1 (currentQty it - 1).

(** pages/index.tsx, [handleQtyChange] on the basket of a plan. *)
Definition handleQtyChange (s : string) (n : Z) (b : list Line) : list Line :=
  map (fun it => if String.eqb (sku it) s
                 then setQty it (Finite (Z.max 1 (numberOr1 (Some n))))
                 else it) b.

(** ** [escapeHtml] (pages/index.tsx) *)

(** [s.replace(/c/g, r)] for a single character [c]. *)
Fixpoint replaceChar (c : ascii) (r : string) (s : string) : string :=
  match s with
  | EmptyString => EmptyString
  | String d s' =>
      if Ascii.eqb d c then (r ++ replaceChar c r s')%string
      else String d (replaceChar c r s')
  end.

Definition escapeHtml (s : string) : string :=
  replaceChar "'"%char "&#039;"
    (replaceChar (ascii_of_nat 34) "&quot;"
       (replaceChar ">"%char "&gt;"
          (replaceChar "<"%char "&lt;"
             (replaceChar "&"%char "&amp;" s)))).

(** The entity of one character, or the character itself. *)
Definition escapeOne (c : ascii) : string :=
  let n := code c in
  if (n =? 38)%nat then "&amp;"
  else if (n =? 60)%nat then "&lt;"
  else if (n =? 62)%nat then "&gt;"
  else if (n =? 34)%nat then "&quot;"
  else if (n =? 39)%nat then "&#039;"
  else String c EmptyString.

Fixpoint escapeEach (s : string) : string :=
  match s with
  | EmptyString => EmptyString
  | String c s' => (escapeOne c ++ escapeEach s')%string
  end.

(** The characters [escapeHtml] is there to remove. *)
Definition htmlSpecial (c : ascii) : bool :=
  let n := code c in
  (n =? 60)%nat || (n =? 62)%nat || (n =? 34)%nat || (n =? 39)%nat.

(** The bytes of a string. *)
Definition bytes (s : string) : list ascii := list_ascii_of_string s.

(** A byte that may stand in a needle: no parenthesis, no comma, and no
    white space of U+0009..U+000D. *)
Definition needleSafe (c : ascii) : Prop :=
  code c <> 40%nat /\ code c <> 41%nat /\ code c <> 44%nat /\ ~ (9 <= code c <= 13)%nat.

(** A quantity that is a number of at least 1. *)
Definition atLeastOne (x : option JsNumber) : Prop :=
  exists n, x = Some (Finite n) /\ (1 <= n)%Z.

(** A returned line whose quantity is NaN: its SKU is not in the cart
    and a validated proposal line of that SKU has a quantity that is not
    numeric. *)
Definition nanFromProposal (cartBySku : list (string * Z)) (proposed : list Line)
    (l : Line) : Prop :=
  qty l = Some NaN
  /\ map_get (sku l) cartBySku = None
  /\ exists it, In it proposed /\ sku it = sku l /\ qty it = Some NaN.

(* ================================================================== *)
(** * The classifiers and the picker on sample utterances *)
(* ================================================================== *)

Example endIntent_samples :
  endIntent "no gracias" = true
  /\ endIntent "  Eso es todo. " = true
  /\ endIntent "NADA MÁS" = true
  /\ endIntent "no gracias, otra cosa" = false
  /\ endIntent "" = false.
Proof. vm_compute. repeat split. Qed.

Example addIntent_samples :
  addIntent "sí, dame el repuesto" = true
  /\ addIntent "SÍ" = true
  /\ addIntent "también el teflón" = true
  /\ addIntent "casi listo" = false
  /\ addIntent "necesito teflon" = false.
Proof. vm_compute. repeat split. Qed.

Example replaceIntent_samples :
  replaceIntent "mejor pon el cople" = true
  /\ replaceIntent "en vez de la unión" = true
  /\ replaceIntent "una mejora" = false.
Proof. vm_compute. repeat split. Qed.

Example removeIntent_samples :
  removeIntent "quita el teflón" = true
  /\ removeIntent "sin teflón" = true
  /\ removeIntent "sino el otro" = false.
Proof. vm_compute. repeat split. Qed.

Example normalizeQuery_samples :
  normalizeQuery "Tubo de PVC de 1 / 2 pulgada" = "pvc 1/2"
  /\ normalizeQuery "cpvc de media" = "pvc cpvc 1/2"
  /\ normalizeQuery "sí, dame el repuesto" = "sí, dame el repuesto".
Proof. vm_compute. repeat split. Qed.

Example pickByKeywords_sample :
  map p_sku (pickByKeywords "necesito teflón" (normalizeQuery "necesito teflón")
                            [Sample.corta; Sample.cople; Sample.teflon; Sample.glue] 3)
  = ["PTF-12"; "CORTA-COBRE-001"; "PVC-GLUE-240"].
Proof. vm_compute. reflexivity. Qed.

(* ================================================================== *)
(** * Basic facts: sets, maps, folds *)
(* ================================================================== *)

Lemma setHas_In (s : string) (l : list string) : setHas s l = true <-> In s l.
Proof.
  unfold setHas. rewrite existsb_exists. split.
  - intros [x [Hin Heq]]. apply String.eqb_eq in Heq. now subst.
  - intros Hin. exists s. split; [assumption | apply String.eqb_refl].
Qed.

Lemma setHas_false (s : string) (l : list string) : setHas s l = false <-> ~ In s l.
Proof.
  rewrite <- setHas_In. destruct (setHas s l); split; intros; congruence.
Qed.

Lemma hasSku_In (s : string) (l : list Line) : hasSku s l = true <-> In s (map sku l).
Proof.
  unfold hasSku. rewrite existsb_exists, in_map_iff. split.
  - intros [x [Hin Heq]]. apply String.eqb_eq in Heq. now exists x.
  - intros [x [Heq Hin]]. exists x. split; [assumption | now apply String.eqb_eq].
Qed.

Lemma hasSku_false (s : string) (l : list Line) : hasSku s l = false <-> ~ In s (map sku l).
Proof.
  rewrite <- hasSku_In. destruct (hasSku s l); split; intros; congruence.
Qed.

Lemma hasSku_app (s : string) (l1 l2 : list Line) :
  hasSku s (l1 ++ l2) = hasSku s l1 || hasSku s l2.
Proof. unfold hasSku. apply existsb_app. Qed.

Lemma fold_left_inv {A B : Type} (f : A -> B -> A) (P : A -> Prop) (l : list B) :
  forall a, P a -> (forall a b, In b l -> P a -> P (f a b)) -> P (fold_left f l a).
Proof.
  induction l as [| b l IH]; intros a Ha Hstep; simpl.
  - exact Ha.
  - apply IH.
    + apply Hstep; [now left | exact Ha].
    + intros a' b' Hin. apply Hstep. now right.
Qed.

Section MapFacts.
Context {V : Type}.
Implicit Types (m : list (string * V)) (k : string) (v : V).

Lemma map_get_In k v m : map_get k m = Some v -> In (k, v) m.
Proof.
  induction m as [| [k' v'] m IH]; simpl; [discriminate |].
  destruct (String.eqb k' k) eqn:E.
  - apply String.eqb_eq in E. intros [= ->]. subst. now left.
  - intros H. right. now apply IH.
Qed.

Lemma map_get_keys k m : map_get k m <> None <-> In k (map_keys m).
Proof.
  induction m as [| [k' v'] m IH]; simpl.
  - split; [congruence | tauto].
  - destruct (String.eqb k' k) eqn:E.
    + apply String.eqb_eq in E. split; [now left | congruence].
    + apply String.eqb_neq in E. rewrite IH. split; [now right | intros [? | ?]; congruence].
Qed.

Lemma map_has_keys k m : map_has k m = true <-> In k (map_keys m).
Proof.
  rewrite <- map_get_keys. unfold map_has.
  destruct (map_get k m); split; intros; congruence.
Qed.

Lemma map_get_None_keys k m : map_get k m = None <-> ~ In k (map_keys m).
Proof.
  rewrite <- map_get_keys. destruct (map_get k m); intuition congruence.
Qed.

Lemma In_map_get k v m : NoDup (map_keys m) -> In (k, v) m -> map_get k m = Some v.
Proof.
  induction m as [| [k' v'] m IH]; simpl; [tauto |].
  intros Hnd [Heq | Hin].
  - inversion Heq; subst. now rewrite String.eqb_refl.
  - inversion Hnd as [| ? ? Hnotin Hnd']; subst.
    destruct (String.eqb k' k) eqn:E.
    + apply String.eqb_eq in E. subst. exfalso. apply Hnotin.
      change (In (fst (k, v)) (map fst m)). now apply in_map.
    + now apply IH.
Qed.

Lemma map_get_set_eq k v m : map_get k (map_set k v m) = Some v.
Proof.
  induction m as [| [k' v'] m IH]; simpl.
  - now rewrite String.eqb_refl.
  - destruct (String.eqb k' k) eqn:E; simpl.
    + now rewrite String.eqb_refl.
    + now rewrite E.
Qed.

Lemma map_get_set_neq k k' v m : k <> k' -> map_get k' (map_set k v m) = map_get k' m.
Proof.
  intros Hne. induction m as [| [k0 v0] m IH]; simpl.
  - apply String.eqb_neq in Hne. now rewrite Hne.
  - destruct (String.eqb k0 k) eqn:E; simpl.
    + apply String.eqb_eq in E. subst k0.
      apply String.eqb_neq in Hne. now rewrite Hne.
    + destruct (String.eqb k0 k'); [reflexivity | exact IH].
Qed.

Lemma map_set_keys k v m :
  map_keys (map_set k v m) = if map_has k m then map_keys m else map_keys m ++ [k].
Proof.
  unfold map_has. induction m as [| [k0 v0] m IH]; simpl; [reflexivity |].
  destruct (String.eqb k0 k) eqn:E; simpl.
  - apply String.eqb_eq in E. now subst.
  - rewrite IH. now destruct (map_get k m).
Qed.

Lemma map_set_NoDup k v m : NoDup (map_keys m) -> NoDup (map_keys (map_set k v m)).
Proof.
  intros Hnd. rewrite map_set_keys. destruct (map_has k m) eqn:E; [assumption |].
  apply NoDup_app; [assumption | constructor; [simpl; tauto | constructor] |].
  intros x Hx [<- | []].
  apply map_has_keys in Hx. congruence.
Qed.

Lemma map_set_Forall (P : string * V -> Prop) k v m :
  Forall P m -> P (k, v) -> Forall P (map_set k v m).
Proof.
  intros Hm Hkv. induction Hm as [| [k0 v0] m H0 Hm IH]; simpl.
  - now constructor.
  - destruct (String.eqb k0 k); constructor; assumption.
Qed.
End MapFacts.

(** ** The cart quantity map *)

Lemma buildCartBySku_NoDup cart : NoDup (map_keys (buildCartBySku cart)).
Proof.
  unfold buildCartBySku. apply fold_left_inv.
  - constructor.
  - intros m ci _ Hm. now apply map_set_NoDup.
Qed.

Lemma buildCartBySku_floor cart :
  Forall (fun e => (1 <= snd e)%Z) (buildCartBySku cart).
Proof.
  unfold buildCartBySku. apply fold_left_inv.
  - constructor.
  - intros m ci _ Hm. apply map_set_Forall; [assumption | simpl; lia].
Qed.

Lemma cart_get_floor cart s c : map_get s (buildCartBySku cart) = Some c -> (1 <= c)%Z.
Proof.
  intros H. apply map_get_In in H.
  pose proof (buildCartBySku_floor cart) as F. rewrite Forall_forall in F.
  exact (F _ H).
Qed.

Lemma buildCartBySku_keys cart s :
  In s (map_keys (buildCartBySku cart)) <-> In s (map ci_sku cart).
Proof.
  unfold buildCartBySku.
  assert (G : forall l m, In s (map_keys (fold_left
             (fun m ci => map_set (ci_sku ci) (Z.max 1 (numberOr1 (ci_qty ci))) m) l m))
            <-> In s (map_keys m) \/ In s (map ci_sku l)).
  { induction l as [| ci l IH]; intros m; simpl; [tauto |].
    rewrite IH, map_set_keys. destruct (map_has (ci_sku ci) m) eqn:E.
    - apply map_has_keys in E. split; [tauto |].
      intros [H | [<- | H]]; tauto.
    - rewrite in_app_iff. simpl. tauto. }
  rewrite G. simpl. tauto.
Qed.

(** ** The candidate map *)

Lemma setAll_keyed ps m : keyed m -> keyed (setAll ps m).
Proof.
  unfold setAll. intros Hm. apply fold_left_inv; [assumption |].
  intros m' p _ Hm'. now apply map_set_Forall.
Qed.

Lemma setAll_NoDup ps m : NoDup (map_keys m) -> NoDup (map_keys (setAll ps m)).
Proof.
  unfold setAll. intros Hm. apply fold_left_inv; [assumption |].
  intros m' p _ Hm'. now apply map_set_NoDup.
Qed.

Lemma setAll_keys ps : forall m s,
  In s (map_keys (setAll ps m)) <-> In s (map_keys m) \/ In s (map p_sku ps).
Proof.
  unfold setAll. induction ps as [| p ps IH]; intros m s; simpl; [tauto |].
  rewrite IH, map_set_keys. destruct (map_has (p_sku p) m) eqn:E.
  - apply map_has_keys in E. split; [tauto |]. intros [H | [<- | H]]; tauto.
  - rewrite in_app_iff. simpl. tauto.
Qed.

Lemma buildBySku_keyed hits cart catalog : keyed (buildBySku hits cart catalog).
Proof.
  unfold buildBySku.
  destruct (List.length (dedup [] (map ci_sku cart)) =? 0)%nat;
    repeat apply setAll_keyed; constructor.
Qed.

Lemma buildBySku_NoDup hits cart catalog : NoDup (map_keys (buildBySku hits cart catalog)).
Proof.
  unfold buildBySku.
  destruct (List.length (dedup [] (map ci_sku cart)) =? 0)%nat;
    repeat apply setAll_NoDup; constructor.
Qed.

Lemma keyed_skus m : keyed m -> map p_sku (map_values m) = map_keys m.
Proof.
  unfold map_values, map_keys. induction 1 as [| [k v] m H Hm IH]; simpl; [reflexivity |].
  simpl in H. now rewrite H, IH.
Qed.

Lemma keyed_get m s p : keyed m -> map_get s m = Some p -> p_sku p = s /\ In p (map_values m).
Proof.
  intros Hk Hg. apply map_get_In in Hg. unfold keyed in Hk. rewrite Forall_forall in Hk.
  split; [exact (Hk _ Hg) |].
  unfold map_values. change p with (snd (s, p)). now apply in_map.
Qed.

Lemma candidateSkus_keys hits cart catalog :
  candidateSkusOf hits cart catalog = map_keys (buildBySku hits cart catalog).
Proof. unfold candidateSkusOf, candidatesOf. apply keyed_skus, buildBySku_keyed. Qed.

Lemma candidateSkus_NoDup hits cart catalog : NoDup (candidateSkusOf hits cart catalog).
Proof. rewrite candidateSkus_keys. apply buildBySku_NoDup. Qed.

Lemma dedup_In l : forall seen s, In s (dedup seen l) <-> In s l /\ ~ In s seen.
Proof.
  induction l as [| x l IH]; intros seen s; simpl; [tauto |].
  destruct (existsb (String.eqb x) seen) eqn:E.
  - apply setHas_In in E. rewrite IH. split; [tauto |].
    intros [[-> | H] Hn]; tauto.
  - apply setHas_false in E. simpl. rewrite IH. simpl.
    destruct (string_dec x s) as [-> | Hne]; [tauto |]. tauto.
Qed.

(** A SKU of the cart whose row is in the product table is a candidate. *)
Lemma cart_row_is_candidate hits cart catalog t :
  In t catalog -> In (p_sku t) (map ci_sku cart) ->
  In (p_sku t) (candidateSkusOf hits cart catalog).
Proof.
  intros Ht Hc. rewrite candidateSkus_keys. unfold buildBySku.
  assert (Hd : In (p_sku t) (dedup [] (map ci_sku cart))) by (apply dedup_In; simpl; tauto).
  destruct (List.length (dedup [] (map ci_sku cart)) =? 0)%nat eqn:E.
  - apply Nat.eqb_eq in E. apply length_zero_iff_nil in E. rewrite E in Hd. destruct Hd.
  - apply setAll_keys. right. apply in_map. unfold selectIn. apply filter_In.
    split; [assumption | now apply setHas_In].
Qed.

(* ================================================================== *)
(** * Facts about the keyword fallback picker *)
(* ================================================================== *)

Section StableSort.
Context {A : Type}.
Implicit Types (x : A * Z) (l : list (A * Z)).

Lemma insertDesc_perm x l : Permutation (insertDesc x l) (x :: l).
Proof.
  induction l as [| y l IH]; simpl; [reflexivity |].
  destruct (snd y <=? snd x)%Z; [reflexivity |].
  rewrite IH. apply perm_swap.
Qed.

Lemma sortDesc_perm l : Permutation (sortDesc l) l.
Proof.
  induction l as [| x l IH]; simpl; [reflexivity |].
  rewrite insertDesc_perm. now constructor.
Qed.

Lemma insertDesc_sorted x l :
  StronglySorted geScore l -> StronglySorted geScore (insertDesc x l).
Proof.
  induction 1 as [| y l Hl IH Hy]; simpl.
  - constructor; constructor.
  - destruct (snd y <=? snd x)%Z eqn:E.
    + apply Z.leb_le in E. constructor; [now constructor |].
      constructor; [exact E |].
      rewrite Forall_forall in *. intros z Hz. specialize (Hy z Hz).
      unfold geScore in *. lia.
    + apply Z.leb_gt in E. constructor; [exact IH |].
      rewrite Forall_forall in *. intros z Hz.
      apply (Permutation_in _ (insertDesc_perm x l)) in Hz.
      destruct Hz as [<- | Hz]; [unfold geScore; lia | now apply Hy].
Qed.

Lemma sortDesc_sorted l : StronglySorted geScore (sortDesc l).
Proof.
  induction l as [| x l IH]; simpl; [constructor | now apply insertDesc_sorted].
Qed.

(** Stability: elements of equal score keep their relative order. *)
Lemma insertDesc_stable (s : Z) x l :
  filter (fun e => (snd e =? s)%Z) (insertDesc x l)
  = filter (fun e => (snd e =? s)%Z) (x :: l).
Proof.
  induction l as [| y l IH]; [reflexivity |].
  simpl insertDesc. destruct (snd y <=? snd x)%Z eqn:E; [reflexivity |].
  apply Z.leb_gt in E.
  cbn [filter] in *. rewrite IH.
  destruct (snd y =? s)%Z eqn:Ey, (snd x =? s)%Z eqn:Ex; try reflexivity.
  apply Z.eqb_eq in Ey, Ex. lia.
Qed.

Lemma sortDesc_stable (s : Z) l :
  filter (fun e => (snd e =? s)%Z) (sortDesc l) = filter (fun e => (snd e =? s)%Z) l.
Proof.
  induction l as [| x l IH]; [reflexivity |].
  simpl sortDesc. rewrite insertDesc_stable. simpl. now rewrite IH.
Qed.
End StableSort.

Section Scored.
Context {A : Type} (g : A -> Z).

Lemma tagged_map l : tagged g (map (fun c => (c, g c)) l).
Proof. unfold tagged. rewrite Forall_map. now apply Forall_forall. Qed.

Lemma tagged_perm l l' : Permutation l l' -> tagged g l -> tagged g l'.
Proof. intros Hp. unfold tagged. now apply Permutation_Forall. Qed.

Lemma tagged_filter (h : A * Z -> bool) l : tagged g l -> tagged g (filter h l).
Proof.
  unfold tagged. rewrite !Forall_forall. intros H e He.
  apply filter_In in He. now apply H.
Qed.

Lemma tagged_filter_fst (h : Z -> bool) l :
  tagged g l ->
  map fst (filter (fun e => h (snd e)) l) = filter (fun c => h (g c)) (map fst l).
Proof.
  induction 1 as [| e l He Hl IH]; simpl; [reflexivity |].
  rewrite He. destruct (h (g (fst e))); simpl; now rewrite IH.
Qed.

Lemma tagged_sorted l :
  tagged g l -> StronglySorted geScore l ->
  StronglySorted (fun a b => (g b <= g a)%Z) (map fst l).
Proof.
  intros Ht Hs. induction Hs as [| e l Hl IH He]; simpl; [constructor |].
  inversion Ht as [| ? ? Hte Htl]; subst.
  constructor; [now apply IH |].
  rewrite Forall_map. rewrite Forall_forall in *.
  intros z Hz. specialize (He z Hz). unfold geScore in He.
  rewrite <- Hte, <- (Htl z Hz). exact He.
Qed.
End Scored.

Lemma map_fst_tag {A} (g : A -> Z) (l : list A) : map fst (map (fun c => (c, g c)) l) = l.
Proof. rewrite map_map. simpl. apply map_id. Qed.

Lemma ranked_perm q qNorm candidates :
  Permutation (ranked q qNorm candidates)
              (filter (fun c => (scoreOf (pickText q qNorm) c >? 0)%Z) candidates).
Proof.
  unfold ranked. cbv zeta.
  rewrite (Permutation_map fst (sortDesc_perm _)).
  rewrite (tagged_filter_fst (scoreOf (pickText q qNorm)) (fun z => (z >? 0)%Z));
    [| apply tagged_map].
  now rewrite map_fst_tag.
Qed.

Lemma ranked_sorted q qNorm candidates :
  StronglySorted (fun a b => (scoreOf (pickText q qNorm) b <= scoreOf (pickText q qNorm) a)%Z)
                 (ranked q qNorm candidates).
Proof.
  unfold ranked. cbv zeta. apply tagged_sorted; [| apply sortDesc_sorted].
  eapply tagged_perm; [symmetry; apply sortDesc_perm |].
  apply tagged_filter, tagged_map.
Qed.

Lemma ranked_stable q qNorm candidates (s : Z) :
  filter (fun c => (scoreOf (pickText q qNorm) c =? s)%Z) (ranked q qNorm candidates)
  = filter (fun c => (scoreOf (pickText q qNorm) c =? s)%Z)
           (filter (fun c => (scoreOf (pickText q qNorm) c >? 0)%Z) candidates).
Proof.
  unfold ranked. cbv zeta.
  set (text := pickText q qNorm).
  set (pos := filter (fun s0 => (snd s0 >? 0)%Z) (map (fun c => (c, scoreOf text c)) candidates)).
  assert (Tpos : tagged (scoreOf text) pos) by (apply tagged_filter, tagged_map).
  assert (Tsort : tagged (scoreOf text) (sortDesc pos)).
  { eapply tagged_perm; [symmetry; apply sortDesc_perm | exact Tpos]. }
  rewrite <- (tagged_filter_fst (scoreOf text) (fun z => (z =? s)%Z) _ Tsort).
  rewrite sortDesc_stable.
  rewrite (tagged_filter_fst (scoreOf text) (fun z => (z =? s)%Z) _ Tpos).
  unfold pos.
  rewrite (tagged_filter_fst (scoreOf text) (fun z => (z >? 0)%Z)); [| apply tagged_map].
  now rewrite map_fst_tag.
Qed.

Lemma pickByKeywords_slice q qNorm candidates max :
  pickByKeywords q qNorm candidates max = slice0 max (ranked q qNorm candidates).
Proof.
  unfold pickByKeywords, ranked, slice0. cbv zeta.
  rewrite length_map. destruct (0 <=? max)%Z; now rewrite firstn_map.
Qed.

Lemma pickByKeywords_firstn q qNorm candidates max :
  exists k, pickByKeywords q qNorm candidates max = firstn k (ranked q qNorm candidates).
Proof.
  rewrite pickByKeywords_slice. unfold slice0.
  destruct (0 <=? max)%Z; eexists; reflexivity.
Qed.

Lemma firstn_In {A} (k : nat) (l : list A) (x : A) : In x (firstn k l) -> In x l.
Proof.
  revert k. induction l as [| y l IH]; intros [| k]; simpl; try tauto.
  intros [-> | H]; [now left | right; now apply (IH k)].
Qed.

Lemma pickByKeywords_incl q qNorm candidates max c :
  In c (pickByKeywords q qNorm candidates max) -> In c candidates.
Proof.
  destruct (pickByKeywords_firstn q qNorm candidates max) as [k ->].
  intros H. apply firstn_In in H.
  apply (Permutation_in _ (ranked_perm q qNorm candidates)) in H.
  now apply filter_In in H.
Qed.

Lemma NoDup_map_filter {A B} (f : A -> B) (h : A -> bool) (l : list A) :
  NoDup (map f l) -> NoDup (map f (filter h l)).
Proof.
  induction l as [| x l IH]; simpl; [auto |].
  intros Hnd. inversion Hnd as [| ? ? Hx Hl]; subst.
  destruct (h x); simpl; [| now apply IH].
  constructor; [| now apply IH].
  intros Hin. apply Hx. apply in_map_iff in Hin. destruct Hin as [y [Hy Hin]].
  apply filter_In in Hin. apply in_map_iff. exists y. tauto.
Qed.

Lemma NoDup_firstn_local {A} (k : nat) (l : list A) : NoDup l -> NoDup (firstn k l).
Proof.
  revert k. induction l as [| x l IH]; intros k Hnd; destruct k; simpl; try constructor.
  - inversion Hnd; subst. intros Hin. apply firstn_In in Hin. contradiction.
  - inversion Hnd; subst. now apply IH.
Qed.

Lemma pickByKeywords_NoDup q qNorm candidates max :
  NoDup (map p_sku candidates) -> NoDup (map p_sku (pickByKeywords q qNorm candidates max)).
Proof.
  intros Hnd. destruct (pickByKeywords_firstn q qNorm candidates max) as [k ->].
  rewrite <- firstn_map. apply NoDup_firstn_local.
  eapply Permutation_NoDup.
  - symmetry. apply Permutation_map. apply ranked_perm.
  - now apply NoDup_map_filter.
Qed.

Lemma fold_score (h : list string -> bool) (l : list (list string)) : forall a : Z,
  fold_left (fun score group => if h group then score + 2 else score)%Z l a
  = (a + 2 * Z.of_nat (List.length (filter h l)))%Z.
Proof.
  induction l as [| g l IH]; intros a; cbn [fold_left filter]; [cbn [List.length]; lia |].
  rewrite IH. destruct (h g); [rewrite length_cons |]; lia.
Qed.

Lemma scoreOf_count text c :
  scoreOf text c
  = (2 * Z.of_nat (groupsHit text c) + (if (p_stock c >? 0)%Z then 1 else 0))%Z.
Proof.
  unfold scoreOf, groupsHit. cbv zeta. rewrite fold_score.
  destruct (p_stock c >? 0)%Z; lia.
Qed.

(** When the utterance text names the teflon group only, a score is 2
    for a teflon match plus 1 for stock. *)
Lemma scoreOf_teflon_only text c :
  (forall g, In g keywords -> someIncluded g text = true -> g = teflonGroup) ->
  scoreOf text c
  = ((if groupHit text (hay c) teflonGroup then 2 else 0)
     + (if (p_stock c >? 0)%Z then 1 else 0))%Z.
Proof.
  intros Honly.
  assert (Hoff : forall g, In g keywords -> g <> teflonGroup ->
                           groupHit text (hay c) g = false).
  { intros g Hg Hne. unfold groupHit.
    destruct (someIncluded g text) eqn:E; [| reflexivity].
    exfalso. apply Hne. now apply Honly. }
  assert (Hk : Forall (fun g => g = teflonGroup \/ groupHit text (hay c) g = false) keywords).
  { apply Forall_forall. intros g Hg.
    destruct (list_eq_dec string_dec g teflonGroup) as [-> | Hne]; [now left | right].
    now apply Hoff. }
  unfold keywords in Hk.
  repeat match goal with
         | H : Forall _ (_ :: _) |- _ =>
             let H1 := fresh "Hg" in
             apply Forall_cons_iff in H; destruct H as [H1 H];
             destruct H1 as [H1 | H1]; [try discriminate H1 |]
         end.
  all: unfold scoreOf, keywords; cbv zeta; cbn [fold_left].
  all: change ["teflon"; "teflón"; "ptf"; "ptfe"; "cinta"] with teflonGroup in *.
  all: repeat match goal with
              | H : groupHit _ _ _ = false |- _ => rewrite H; clear H
              end.
  all: destruct (groupHit text (hay c) teflonGroup), (p_stock c >? 0)%Z; reflexivity.
Qed.

(* ================================================================== *)
(** * Properties of single steps *)
(* ================================================================== *)

(** C6 (amended): for every utterance and candidate list, a score is 2
    per keyword group with a member in both the utterance text and the
    candidate's text, plus 1 for positive stock; the picker returns the
    candidates of positive score, in descending score order with ties in
    candidate order, cut at [max].  When the utterance text names the
    teflon group only and exactly one candidate matches that group with
    positive stock, that candidate comes first, wherever it stands in the
    candidate list. *)
Theorem pickByKeywords_ranking (q qNorm : string) (candidates : list Product) (max : Z)
    (Hmax : (0 <= max)%Z) :
  let text := pickText q qNorm in
  let score := scoreOf text in
  (forall c, score c
             = (2 * Z.of_nat (groupsHit text c) + if (p_stock c >? 0)%Z then 1 else 0)%Z)
  /\ pickByKeywords q qNorm candidates max
     = firstn (Z.to_nat max) (ranked q qNorm candidates)
  /\ Permutation (ranked q qNorm candidates)
                 (filter (fun c => (score c >? 0)%Z) candidates)
  /\ StronglySorted (fun a b => (score b <= score a)%Z) (ranked q qNorm candidates)
  /\ (forall s, filter (fun c => (score c =? s)%Z) (ranked q qNorm candidates)
                = filter (fun c => (score c =? s)%Z)
                         (filter (fun c => (score c >? 0)%Z) candidates))
  /\ (forall c,
        (forall g, In g keywords -> someIncluded g text = true -> g = teflonGroup) ->
        In c candidates ->
        stockedTeflonMatch text c = true ->
        (forall c', In c' candidates -> stockedTeflonMatch text c' = true -> c' = c) ->
        (1 <= max)%Z ->
        hd_error (pickByKeywords q qNorm candidates max) = Some c).
Proof.
  intros text score.
  assert (Hcut : pickByKeywords q qNorm candidates max
                 = firstn (Z.to_nat max) (ranked q qNorm candidates)).
  { rewrite pickByKeywords_slice. unfold slice0.
    apply Z.leb_le in Hmax. now rewrite Hmax. }
  repeat split.
  - intros c. apply scoreOf_count.
  - exact Hcut.
  - apply ranked_perm.
  - apply ranked_sorted.
  - intros s. apply ranked_stable.
  - intros c Honly Hc Hmatch Huniq Hone.
    assert (Hsc : forall c', score c'
              = ((if groupHit text (hay c') teflonGroup then 2 else 0)
                 + (if (p_stock c' >? 0)%Z then 1 else 0))%Z)
      by (intros c'; now apply scoreOf_teflon_only).
    assert (H3 : score c = 3%Z).
    { rewrite Hsc. unfold stockedTeflonMatch in Hmatch.
      apply andb_true_iff in Hmatch. destruct Hmatch as [-> ->]. reflexivity. }
    assert (Hin : In c (ranked q qNorm candidates)).
    { apply (Permutation_in _ (Permutation_sym (ranked_perm q qNorm candidates))).
      apply filter_In. split; [assumption |].
      fold text. fold score. rewrite H3. reflexivity. }
    pose proof (ranked_sorted q qNorm candidates) as Hsorted.
    pose proof (ranked_perm q qNorm candidates) as Hperm.
    rewrite Hcut.
    destruct (ranked q qNorm candidates) as [| h tl] eqn:Er; [destruct Hin |].
    destruct (Z.to_nat max) as [| k] eqn:Ek; [lia |].
    simpl. f_equal.
    assert (Hh : (3 <= score h)%Z).
    { destruct Hin as [-> | Hin]; [lia |].
      apply StronglySorted_inv in Hsorted. destruct Hsorted as [_ Hall].
      rewrite Forall_forall in Hall. specialize (Hall c Hin).
      fold text in Hall. fold score in Hall. lia. }
    apply Huniq.
    + assert (Hhin : In h (h :: tl)) by now left.
      apply (Permutation_in _ Hperm) in Hhin. now apply filter_In in Hhin.
    + unfold stockedTeflonMatch. rewrite Hsc in Hh.
      destruct (groupHit text (hay h) teflonGroup), (p_stock h >? 0)%Z;
        simpl; try reflexivity; lia.
Qed.

Lemma pickByKeywords_ranking_witness :
  (0 <= 3)%Z
  /\ hd_error (pickByKeywords "necesito teflón" (normalizeQuery "necesito teflón")
                              [Sample.glue; Sample.teflon; Sample.corta] 3)
     = Some Sample.teflon.
Proof.
  split; [lia |].
  refine (proj2 (proj2 (proj2 (proj2 (proj2
    (pickByKeywords_ranking "necesito teflón" (normalizeQuery "necesito teflón")
       [Sample.glue; Sample.teflon; Sample.corta] 3 _)))))
    Sample.teflon _ _ _ _ _).
  - lia.
  - intros g Hg. simpl in Hg.
    repeat (destruct Hg as [<- | Hg]; [vm_compute; (reflexivity || discriminate) |]).
    destruct Hg.
  - simpl. tauto.
  - vm_compute. reflexivity.
  - intros c' Hc'. simpl in Hc'.
    repeat (destruct Hc' as [<- | Hc']; [vm_compute; (reflexivity || discriminate) |]).
    destruct Hc'.
  - lia.
Defined.

(** C6, as stated, fails when the utterance names a second keyword
    group: with "teflón y pegamento" the glue row, which stands first in
    the candidate list and scores as high as the only stocked teflon
    match, is returned first. *)
Lemma pickByKeywords_teflon_not_first :
  let q := "teflón y pegamento" in
  let text := pickText q (normalizeQuery q) in
  let candidates := [Sample.glue; Sample.teflon] in
  stockedTeflonMatch text Sample.teflon = true
  /\ stockedTeflonMatch text Sample.glue = false
  /\ scoreOf text Sample.glue = 3%Z
  /\ scoreOf text Sample.teflon = 3%Z
  /\ pickByKeywords q (normalizeQuery q) candidates 3 = [Sample.glue; Sample.teflon]
  /\ hd_error (pickByKeywords q (normalizeQuery q) candidates 3) <> Some Sample.teflon.
Proof.
  vm_compute. repeat split; discriminate.
Qed.

Lemma endIntent_nonempty q : endIntent q = true -> (String.length q =? 0)%nat = false.
Proof. destruct q; [vm_compute; discriminate | reflexivity]. Qed.

(** C4: for every utterance classified as End the handler answers with
    the terminal plan, whose basket and upsell are empty, whatever the
    cart, the candidates and the proposal are: the answer does not
    depend on the generative step. *)
Theorem end_intent_empties_plan (q : string) (cart : list CartItem)
    (hits catalog : list Product) (proposal : Proposal) :
  endIntent q = true ->
  handler q cart hits catalog proposal = Status200 endPlan endReply
  /\ basketOf (handler q cart hits catalog proposal) = []
  /\ upsellOf (handler q cart hits catalog proposal) = [].
Proof.
  intros Hend. unfold handler.
  rewrite (endIntent_nonempty q Hend), Hend. repeat split.
Qed.

Lemma end_intent_empties_plan_witness :
  endIntent "no gracias" = true
  /\ basketOf (handler "no gracias" [mkCartItem "CORTA-COBRE-001" (Some 2%Z)]
                       [Sample.rep] [Sample.corta; Sample.rep]
                       (Sample.proposalOf [Sample.rawLine "CORTA-COBRE-001" (Some 2%Z)]))
     = [].
Proof.
  split; [reflexivity |].
  apply (end_intent_empties_plan "no gracias" [mkCartItem "CORTA-COBRE-001" (Some 2%Z)]
           [Sample.rep] [Sample.corta; Sample.rep]
           (Sample.proposalOf [Sample.rawLine "CORTA-COBRE-001" (Some 2%Z)])).
  reflexivity.
Defined.

(** C3: when the generative step is reached (a non-empty utterance that
    is not End) and its text does not parse, the handler answers 200 with
    the fixed fallback plan: empty basket, empty upsell, and the generic
    ready-to-confirm reply. *)
Theorem malformed_proposal_falls_back (q : string) (cart : list CartItem)
    (hits catalog : list Product) :
  (String.length q =? 0)%nat = false ->
  endIntent q = false ->
  handler q cart hits catalog Malformed
  = Status200 (mkPlan "" [] [] [] (Some "¿Deseas confirmar ahora?"))
              "Tengo una sugerencia lista. ¿Deseas confirmar ahora?".
Proof.
  intros Hq Hend. unfold handler. now rewrite Hq, Hend.
Qed.

Lemma malformed_proposal_falls_back_witness :
  basketOf (handler "necesito un cortatubo" [mkCartItem "CORTA-COBRE-001" (Some 2%Z)]
                    [Sample.corta] [Sample.corta; Sample.rep] Malformed) = [].
Proof.
  rewrite (malformed_proposal_falls_back "necesito un cortatubo"
             [mkCartItem "CORTA-COBRE-001" (Some 2%Z)] [Sample.corta]
             [Sample.corta; Sample.rep] eq_refl eq_refl).
  reflexivity.
Defined.

(** C9: the PVC-leak out-of-stock pass leaves the basket and the upsell
    list (and the title and the steps) as they are; only the confirm
    prompt and the reply can change. *)
Theorem nudge_keeps_lines (q : string) (catalog : list Product) (plan : Plan)
    (reply : string) :
  basket (fst (pvcLeakNudge q catalog (plan, reply))) = basket plan
  /\ upsell (fst (pvcLeakNudge q catalog (plan, reply))) = upsell plan
  /\ title (fst (pvcLeakNudge q catalog (plan, reply))) = title plan
  /\ steps (fst (pvcLeakNudge q catalog (plan, reply))) = steps plan.
Proof.
  unfold pvcLeakNudge.
  destruct (testAnyCI ["fuga"] q && testAnyCI ["pvc"] q); [| now repeat split].
  destruct (selectOne catalog "PVC-CPL-050") as [cople |]; [| now repeat split].
  destruct ((p_stock cople =? 0)%Z && hasSku "PVC-UNION-050" (basket plan));
    [| now repeat split].
  destruct (negb (testAnyCI ["agotad"] reply)); now repeat split.
Qed.

(** The basket a turn returns for a parsed proposal is the one the merge
    leaves. *)
Lemma handler_valid_basket q cart hits catalog parsed :
  (String.length q =? 0)%nat = false ->
  endIntent q = false ->
  basketOf (handler q cart hits catalog (Valid parsed))
  = basket (merge q cart hits catalog
              (validated (candidateSkusOf hits cart catalog) (buildCartBySku cart) parsed)).
Proof.
  intros Hq Hend. unfold handler. rewrite Hq, Hend.
  set (m := merge _ _ _ _ _). set (r := orElse _ _).
  pose proof (nudge_keeps_lines q catalog m r) as [Hb _].
  destruct (pvcLeakNudge q catalog (m, r)) as [plan' reply']. exact Hb.
Qed.

Lemma forallb_setHas (keys : list string) (b : list Line) :
  forallb (fun x => setHas (sku x) keys) b = true <-> Forall (fun x => In (sku x) keys) b.
Proof.
  rewrite forallb_forall, Forall_forall.
  split; intros H x Hx; apply setHas_In; now apply H.
Qed.

Lemma length_pos_nonnil {A} (l : list A) : (0 <? List.length l)%nat = true <-> l <> [].
Proof.
  destruct l; simpl; split; intros H; try discriminate; try reflexivity.
  exfalso. now apply H.
Qed.

Lemma merge_steps q cart hits catalog plan :
  merge q cart hits catalog plan
  = let cartBySku := buildCartBySku cart in
    let bySku := buildBySku hits cart catalog in
    let candidates := map_values bySku in
    let added :=
      if addIntent q
      then addPath q catalog candidates (map p_sku candidates) bySku cartBySku plan
      else (plan, bySku) in
    finishMerge q (addIntent q) candidates (snd added) cartBySku
      (if shouldForceReplace q (addIntent q) (replaceIntent q) cartBySku
                             (basket (fst added))
       then withBasket (fst added)
              (strongReplace q (normalizeQuery q) candidates cartBySku
                             (basket (fst added)))
       else fst added).
Proof.
  unfold merge, finishMerge. cbv zeta.
  destruct (addIntent q); [| reflexivity].
  destruct (addPath q catalog _ _ _ _ plan) as [plan' bySku']. reflexivity.
Qed.

Lemma appendPicks_extra picks : forall b,
  exists extra,
    appendPicks picks b = b ++ extra
    /\ Forall (fun l => exists src, In src picks /\ l = pickedLine src) extra.
Proof.
  unfold appendPicks. induction picks as [| src picks IH]; intros b.
  - exists []. split; [now rewrite app_nil_r | constructor].
  - cbn [fold_left].
    destruct (negb (hasSku (p_sku src) b)).
    + destruct (IH (b ++ [pickedLine src])) as [extra [Heq Hall]].
      exists (pickedLine src :: extra). split.
      * rewrite Heq, <- app_assoc. reflexivity.
      * constructor; [exists src; split; [now left | reflexivity] |].
        eapply Forall_impl; [| exact Hall].
        intros l [s0 [Hs0 ->]]. exists s0. split; [now right | reflexivity].
    + destruct (IH b) as [extra [Heq Hall]].
      exists extra. split; [exact Heq |].
      eapply Forall_impl; [| exact Hall].
      intros l [s0 [Hs0 ->]]. exists s0. split; [now right | reflexivity].
Qed.

(** C5 (amended): on a turn that reaches the merge, the strong replace
    path is applied to the validated proposal basket exactly when the
    turn is not an Add turn and either Replace was classified, or the
    utterance mentions alternate vocabulary while the validated basket is
    non-empty and all its SKUs are SKUs of the previous cart: then the
    returned basket is what the two later steps (empty basket handling,
    cart preservation) make of the replaced basket, otherwise what they
    make of the basket the path never touched (the validated basket, or
    on an Add turn the basket of the add path).  The replaced basket is
    made of the validated lines whose SKU is not in the previous cart,
    followed by lines built from picks of the keyword fallback picker
    with cap 3, with the cart's quantity reasserted on every line; when
    no validated line is left, it is one line of quantity 1 per pick. *)
Theorem force_replace_rule (q : string) (cart : list CartItem)
    (hits catalog : list Product) (parsed : Parsed) :
  let qNorm := normalizeQuery q in
  let cartBySku := buildCartBySku cart in
  let bySku := buildBySku hits cart catalog in
  let candidates := candidatesOf hits cart catalog in
  let candidateSkus := candidateSkusOf hits cart catalog in
  let start := validated candidateSkus cartBySku parsed in
  let b := basket start in
  let picks := pickByKeywords q qNorm candidates 3 in
  let replaced := strongReplace q qNorm candidates cartBySku b in
  let added := addPath q catalog candidates candidateSkus bySku cartBySku start in
  let final := basketOf (handler q cart hits catalog (Valid parsed)) in
  let triggered :=
    replaceIntent q = true
    \/ (mentionsAlternates q = true
        /\ b <> []
        /\ Forall (fun x => In (sku x) (map_keys cartBySku)) b) in
  (String.length q =? 0)%nat = false ->
  endIntent q = false ->
  (addIntent q = false -> triggered ->
   final = basket (finishMerge q false candidates bySku cartBySku
                               (withBasket start replaced)))
  /\ (addIntent q = false -> ~ triggered ->
      final = basket (finishMerge q false candidates bySku cartBySku start))
  /\ (addIntent q = true ->
      final = basket (finishMerge q true candidates (snd added) cartBySku (fst added)))
  /\ (exists extra,
        replaced = map (reassertCartQty cartBySku) (dropPrevious cartBySku b ++ extra)
        /\ Forall (fun l => exists src, In src picks /\ l = pickedLine src) extra)
  /\ (forall x, In x (dropPrevious cartBySku b)
                <-> In x b /\ ~ In (sku x) (map_keys cartBySku))
  /\ (dropPrevious cartBySku b = [] ->
      replaced
      = map (fun src => reassertCartQty cartBySku (lineFrom (p_sku src) src 1 whyPicked))
            picks).
Proof.
  intros qNorm cartBySku bySku candidates candidateSkus start b picks replaced added
         final triggered Hq Hend.
  assert (Hfinal : final = basket (merge q cart hits catalog start)).
  { unfold final. now rewrite (handler_valid_basket q cart hits catalog parsed Hq Hend). }
  assert (Htrig : forall isAdd,
             shouldForceReplace q isAdd (replaceIntent q) cartBySku b = true
             <-> isAdd = false /\ triggered).
  { intros isAdd. unfold shouldForceReplace, triggered.
    rewrite andb_true_iff, orb_true_iff, !andb_true_iff, negb_true_iff.
    rewrite length_pos_nonnil, forallb_setHas. tauto. }
  split; [| split; [| split; [| split; [| split]]]].
  - intros Ha Ht. rewrite Hfinal, merge_steps. cbv zeta. rewrite Ha.
    cbn [fst snd]. fold cartBySku start b.
    rewrite (proj2 (Htrig false) (conj eq_refl Ht)). reflexivity.
  - intros Ha Ht. rewrite Hfinal, merge_steps. cbv zeta. rewrite Ha.
    cbn [fst snd]. fold cartBySku start b.
    destruct (shouldForceReplace q false (replaceIntent q) cartBySku b) eqn:E;
      [| reflexivity].
    exfalso. apply Ht. now apply (Htrig false).
  - intros Ha. rewrite Hfinal, merge_steps. cbv zeta. rewrite Ha. reflexivity.
  - unfold replaced, strongReplace. cbv zeta. fold picks.
    destruct (dropPrevious cartBySku b) as [| x kept] eqn:Ek.
    + exists (map pickedLine picks). split; [reflexivity |].
      rewrite Forall_map. apply Forall_forall. intros src Hsrc. now exists src.
    + cbn [List.length Nat.eqb].
      destruct (mentionsAlternates q);
        [| exists []; split; [now rewrite app_nil_r | constructor]].
      match goal with
      | |- context [if ?c then _ else _] => destruct c
      end; [| exists []; split; [now rewrite app_nil_r | constructor]].
      destruct (appendPicks_extra picks (x :: kept)) as [extra [Heq Hall]].
      exists extra. split; [now rewrite Heq | exact Hall].
  - intros x. unfold dropPrevious. rewrite filter_In, negb_true_iff, setHas_false. tauto.
  - intros Hnil. unfold replaced, strongReplace. rewrite Hnil. simpl. now rewrite map_map.
Qed.

Lemma force_replace_rule_witness :
  map Sample.skuQty
      (basketOf (handler "necesito teflon" [mkCartItem "CORTA-COBRE-001" (Some 2%Z)]
                         [Sample.tape34] [Sample.corta; Sample.tape34]
                         (Valid (mkParsed "Plan" []
                                   (Some [Sample.rawLine "CORTA-COBRE-001" (Some 2%Z)])
                                   (Some []) None None))))
  = [("PTF-34", Some (Finite 1)); ("CORTA-COBRE-001", Some (Finite 2))].
Proof.
  pose proof (force_replace_rule "necesito teflon"
                [mkCartItem "CORTA-COBRE-001" (Some 2%Z)]
                [Sample.tape34] [Sample.corta; Sample.tape34]
                (mkParsed "Plan" []
                   (Some [Sample.rawLine "CORTA-COBRE-001" (Some 2%Z)])
                   (Some []) None None)
                eq_refl eq_refl) as H.
  apply proj1 in H. specialize (H eq_refl). rewrite H.
  - vm_compute. reflexivity.
  - right. split; [vm_compute; reflexivity | split].
    + vm_compute. discriminate.
    + vm_compute. repeat constructor.
Defined.

(** C5, as stated, fails on an empty validated basket: the empty basket
    is a subset of the previous cart, yet the strong replace path is not
    taken and the turn restores the cart instead of calling the picker. *)
Lemma force_replace_needs_lines :
  let q := "necesito teflon" in
  let cart := [mkCartItem "CORTA-COBRE-001" (Some 2%Z)] in
  let hits := [Sample.tape34] in
  let catalog := [Sample.corta; Sample.tape34] in
  addIntent q = false
  /\ replaceIntent q = false
  /\ mentionsAlternates q = true
  /\ forceReplaceAsSpecified q false false (buildCartBySku cart) [] = true
  /\ shouldForceReplace q false false (buildCartBySku cart) [] = false
  /\ map Sample.skuQty (basketOf (handler q cart hits catalog (Sample.proposalOf [])))
     = [("CORTA-COBRE-001", Some (Finite 2))]
  /\ map p_sku (pickByKeywords q (normalizeQuery q) (candidatesOf hits cart catalog) 3)
     = ["PTF-34"; "CORTA-COBRE-001"].
Proof.
  vm_compute. repeat split.
Qed.

(* ================================================================== *)
(** * Provenance of the merged basket *)
(* ================================================================== *)

Section MergeOrigin.
Variables (q : string) (cart : list CartItem) (hits catalog : list Product).
Variable b0 : list Line.

Local Abbreviation cartBySku := (buildCartBySku cart).
Local Abbreviation bySku := (buildBySku hits cart catalog).
Local Abbreviation candidates := (map_values (buildBySku hits cart catalog)).
Local Abbreviation candidateSkus := (map p_sku (map_values (buildBySku hits cart catalog))).
Local Abbreviation Orig := (origin q cart hits catalog b0).
Local Abbreviation Covers := (covers cart hits catalog).
Local Abbreviation Agrees := (agrees cart hits catalog).

Lemma candidate_get s :
  In s candidateSkus ->
  exists src, map_get s bySku = Some src /\ p_sku src = s /\ In src candidates.
Proof.
  intros Hs. rewrite (keyed_skus _ (buildBySku_keyed hits cart catalog)) in Hs.
  apply map_get_keys in Hs. destruct (map_get s bySku) as [src |] eqn:E; [| congruence].
  exists src. split; [reflexivity |].
  now apply (keyed_get _ _ _ (buildBySku_keyed hits cart catalog)).
Qed.

Lemma cart_entry (s : string) (n : Z) : In (s, n) cartBySku -> map_get s cartBySku = Some n.
Proof. apply In_map_get, buildCartBySku_NoDup. Qed.

Lemma cart_entry_key (s : string) (n : Z) : In (s, n) cartBySku -> In s (map_keys cartBySku).
Proof. intros H. change s with (fst (s, n)). now apply in_map. Qed.

Lemma agrees_get bySku' s :
  Agrees bySku' -> In s candidateSkus ->
  exists src, map_get s bySku' = Some src /\ p_sku src = s /\ In src candidates.
Proof.
  intros Ha Hs. rewrite (Ha s Hs). now apply candidate_get.
Qed.

Lemma agrees_refl : Agrees bySku.
Proof. intros s _. reflexivity. Qed.

(** A line for a cart entry, built from the candidate row of its SKU. *)
Lemma origin_cart_line s n src w :
  In (s, n) cartBySku -> p_sku src = s -> In src candidates ->
  Orig (lineFrom s src n w).
Proof.
  intros Hin Hsku Hsrc. subst s. apply from_candidate; [assumption |].
  now rewrite (cart_entry _ _ Hin).
Qed.

Lemma readdCart_origin ens :
  Forall Orig ens -> Forall Orig (readdCart candidateSkus bySku cartBySku ens).
Proof.
  intros Hens. unfold readdCart. apply fold_left_inv; [assumption |].
  intros ens' [s n] Hin Hens'.
  destruct (negb (hasSku s ens') && setHas s candidateSkus) eqn:E; [| assumption].
  apply andb_true_iff in E. destruct E as [_ Hc]. apply setHas_In in Hc.
  destruct (candidate_get s Hc) as [src [-> [Hsku Hsrc]]].
  apply Forall_app. split; [assumption |].
  constructor; [| constructor]. now apply origin_cart_line.
Qed.

Lemma readdCart_grows : forall (m : list (string * Z)) ens s,
  In s (map sku ens) ->
  In s (map sku (fold_left
    (fun ens (e : string * Z) =>
       let (s, n) := e in
       if negb (hasSku s ens) && setHas s candidateSkus then
         match map_get s bySku with
         | Some src => ens ++ [lineFrom s src n whyKept]
         | None => ens
         end
       else ens) m ens)).
Proof.
  induction m as [| [s' n'] m IH]; intros ens s Hs; simpl; [assumption |].
  apply IH.
  destruct (negb (hasSku s' ens) && setHas s' candidateSkus); [| assumption].
  destruct (map_get s' bySku); [| assumption].
  rewrite map_app, in_app_iff. now left.
Qed.

Lemma readdCart_covers ens : Covers (readdCart candidateSkus bySku cartBySku ens).
Proof.
  unfold covers, readdCart. intros s Hk Hc.
  assert (Hex : exists n, In (s, n) cartBySku).
  { unfold map_keys in Hk. apply in_map_iff in Hk. destruct Hk as [[s' n] [Heq Hin]].
    simpl in Heq. subst s'. now exists n. }
  destruct Hex as [n Hin]. clear Hk.
  revert ens. induction cartBySku as [| [s' n'] m IH]; intros ens; [destruct Hin |].
  simpl. destruct Hin as [Heq | Hin]; [| now apply IH].
  inversion Heq; subst s' n'. apply readdCart_grows.
  destruct (hasSku s ens) eqn:Eh; simpl.
  - now apply hasSku_In.
  - apply setHas_In in Hc. rewrite Hc.
    apply setHas_In in Hc. destruct (candidate_get s Hc) as [src [-> _]].
    rewrite map_app, in_app_iff. right. simpl. now left.
Qed.

Lemma covers_app ens extra : Covers ens -> Covers (ens ++ extra).
Proof.
  intros H s Hk Hc. rewrite map_app, in_app_iff. left. now apply H.
Qed.

(** A candidate SKU without a line in a covering basket is not a SKU
    of the cart. *)
Lemma covers_absent ens s :
  Covers ens -> In s candidateSkus -> hasSku s ens = false ->
  map_get s cartBySku = None.
Proof.
  intros Hcov Hc Hh. apply map_get_None_keys. intros Hk.
  apply hasSku_false in Hh. apply Hh. now apply Hcov.
Qed.

Lemma pushIf_origin predicate w ens :
  Covers ens -> Forall Orig ens ->
  Forall Orig (pushIf candidates predicate w ens) /\ Covers (pushIf candidates predicate w ens).
Proof.
  intros Hcov Hens. unfold pushIf.
  destruct (find predicate candidates) as [pick |] eqn:Ef; [| now split].
  destruct (negb (hasSku (p_sku pick) ens)) eqn:Eh; [| now split].
  apply negb_true_iff in Eh. apply find_some in Ef. destruct Ef as [Hpick _].
  split; [| now apply covers_app].
  apply Forall_app. split; [assumption |]. constructor; [| constructor].
  apply from_candidate; [assumption |].
  rewrite (covers_absent ens (p_sku pick) Hcov); [reflexivity | now apply in_map | assumption].
Qed.

(** A row of the product table whose SKU has no line in a covering
    basket is not a SKU of the cart. *)
Lemma covers_absent_row ens t :
  Covers ens -> In t catalog -> hasSku (p_sku t) ens = false ->
  map_get (p_sku t) cartBySku = None.
Proof.
  intros Hcov Ht Hh. apply map_get_None_keys. intros Hk.
  apply hasSku_false in Hh. apply Hh. apply Hcov; [assumption |].
  apply buildCartBySku_keys in Hk.
  exact (cart_row_is_candidate hits cart catalog t Ht Hk).
Qed.

Lemma teflonFallback_origin ens :
  addIntent q = true -> Covers ens -> Forall Orig ens ->
  Forall Orig (teflonFallback catalog ens) /\ Covers (teflonFallback catalog ens).
Proof.
  intros Hadd Hcov Hens. unfold teflonFallback.
  destruct (negb (existsb (fun x => testAnyCI teflonWords (nameSku x)) ens)); [| now split].
  set (tfetch := selectIn catalog TEFLON_SKUS).
  assert (Hrow : forall t, In t tfetch -> In t catalog /\ p_sku t = "PTF-12").
  { intros t Ht. unfold tfetch, selectIn in Ht. apply filter_In in Ht.
    destruct Ht as [Hin Hs]. split; [assumption |].
    apply setHas_In in Hs. simpl in Hs. destruct Hs as [Hs | []]. now symmetry. }
  assert (Ht : forall t,
             match find (fun p => (p_stock p >? 0)%Z) tfetch with
             | Some p => Some p
             | None => hd_error tfetch
             end = Some t -> In t tfetch).
  { intros t. destruct (find (fun p => (p_stock p >? 0)%Z) tfetch) as [p |] eqn:Ef.
    - intros [= <-]. now apply find_some in Ef.
    - destruct tfetch as [| x l]; simpl; [discriminate | intros [= <-]; now left]. }
  destruct (match find (fun p => (p_stock p >? 0)%Z) tfetch with
            | Some p => Some p
            | None => hd_error tfetch
            end) as [t |]; [| now split].
  destruct (negb (hasSku (p_sku t) ens)) eqn:Eh; [| now split].
  apply negb_true_iff in Eh.
  destruct (Hrow t (Ht t eq_refl)) as [Hcat Hsku].
  split; [| now apply covers_app].
  apply Forall_app. split; [assumption |]. constructor; [| constructor].
  apply from_pinned; [assumption | assumption | now left |].
  now apply (covers_absent_row ens).
Qed.

Lemma spareAssist_origin ens :
  addIntent q = true -> Covers ens -> Forall Orig ens ->
  Forall Orig (fst (spareAssist catalog bySku cartBySku ens))
  /\ Agrees (snd (spareAssist catalog bySku cartBySku ens))
  /\ exists extra, fst (spareAssist catalog bySku cartBySku ens) = ens ++ extra.
Proof.
  intros Hadd Hcov Hens.
  assert (Hsame : Forall Orig ens /\ Agrees bySku /\ exists extra, ens = ens ++ extra).
  { split; [assumption | split; [apply agrees_refl |]]. exists []. now rewrite app_nil_r. }
  unfold spareAssist.
  destruct (map_has "CORTA-COBRE-001" cartBySku && negb (hasSku "REP-CORTA-001" ens)) eqn:E;
    [| exact Hsame].
  apply andb_true_iff in E. destruct E as [_ Eh]. apply negb_true_iff in Eh.
  destruct (map_get "REP-CORTA-001" bySku) as [r |] eqn:Eg.
  - simpl. destruct (keyed_get _ _ _ (buildBySku_keyed hits cart catalog) Eg) as [Hsku Hr].
    split; [| split; [apply agrees_refl | eexists; reflexivity]].
    apply Forall_app. split; [assumption |]. constructor; [| constructor].
    apply from_candidate; [assumption |].
    rewrite Hsku.
    rewrite (covers_absent ens "REP-CORTA-001" Hcov);
      [reflexivity | rewrite <- Hsku; now apply in_map | assumption].
  - destruct (selectOne catalog "REP-CORTA-001") as [repFetch |] eqn:Es; [| exact Hsame].
    unfold selectOne in Es. apply find_some in Es. destruct Es as [Hcat Hsku].
    apply String.eqb_eq in Hsku. simpl.
    split; [| split; [| eexists; reflexivity]].
    + apply Forall_app. split; [assumption |]. constructor; [| constructor].
      apply from_pinned; [assumption | assumption | now right |].
      apply (covers_absent_row ens); [assumption | assumption | now rewrite Hsku].
    + intros s Hs. apply map_get_set_neq. rewrite Hsku. intros <-.
      rewrite (keyed_skus _ (buildBySku_keyed hits cart catalog)) in Hs.
      apply map_get_keys in Hs. congruence.
Qed.

Lemma addPath_origin plan :
  addIntent q = true -> Forall Orig (basket plan) ->
  Forall Orig (basket (fst (addPath q catalog candidates candidateSkus bySku cartBySku plan)))
  /\ Agrees (snd (addPath q catalog candidates candidateSkus bySku cartBySku plan)).
Proof.
  intros Hadd Hplan. unfold addPath. cbv zeta.
  set (e0 := filter (fun it => setHas (sku it) candidateSkus) (basket plan)).
  set (e1 := readdCart candidateSkus bySku cartBySku e0).
  assert (H0 : Forall Orig e0).
  { apply Forall_forall. intros x Hx. apply filter_In in Hx.
    rewrite Forall_forall in Hplan. now apply Hplan. }
  assert (H1 : Forall Orig e1 /\ Covers e1).
  { split; [now apply readdCart_origin | apply readdCart_covers]. }
  set (e2 := if testAnyCI spareWords q then pushIf candidates _ whySpare e1 else e1).
  assert (H2 : Forall Orig e2 /\ Covers e2).
  { subst e2. destruct (testAnyCI spareWords q); [| exact H1].
    now apply pushIf_origin. }
  set (e3 := if testAnyCI teflonWords q then pushIf candidates _ whyTeflon e2 else e2).
  assert (H3 : Forall Orig e3 /\ Covers e3).
  { subst e3. destruct (testAnyCI teflonWords q); [| exact H2].
    now apply pushIf_origin. }
  set (e4 := if testAnyCI teflonWords q then teflonFallback catalog e3 else e3).
  assert (H4 : Forall Orig e4 /\ Covers e4).
  { subst e4. destruct (testAnyCI teflonWords q); [| exact H3].
    now apply teflonFallback_origin. }
  destruct H4 as [H4 C4].
  destruct (testAnyCI spareWords q).
  - destruct (spareAssist_origin e4 Hadd C4 H4) as [Hs [Ha _]].
    destruct (spareAssist catalog bySku cartBySku e4) as [e5 bySku5].
    simpl in *. now split.
  - simpl. split; [assumption | apply agrees_refl].
Qed.

Lemma appendPicks_In picks b x :
  In x (appendPicks picks b) -> In x b \/ exists src, In src picks /\ x = pickedLine src.
Proof.
  unfold appendPicks. revert x.
  apply (fold_left_inv _ (fun b' => forall x, In x b' ->
            In x b \/ exists src, In src picks /\ x = pickedLine src)).
  - intros x Hx. now left.
  - intros b' src Hsrc Hb' x Hx.
    destruct (negb (hasSku (p_sku src) b')); [| now apply Hb'].
    apply in_app_iff in Hx. destruct Hx as [Hx | [<- | []]]; [now apply Hb' |].
    right. now exists src.
Qed.

Lemma appendPicks_grows picks : forall b x, In x b -> In x (appendPicks picks b).
Proof.
  unfold appendPicks. induction picks as [| src picks IH]; intros b x Hx; simpl;
    [assumption |].
  apply IH. destruct (negb (hasSku (p_sku src) b)); [| assumption].
  apply in_app_iff. now left.
Qed.

Lemma reassert_picked src :
  In src candidates -> Orig (reassertCartQty cartBySku (pickedLine src)).
Proof.
  intros Hsrc. unfold reassertCartQty, pickedLine. simpl.
  destruct (map_get (p_sku src) cartBySku) as [c |] eqn:Eg.
  - pose proof (cart_get_floor cart _ _ Eg) as Hc.
    destruct (c =? 0)%Z eqn:E0; [apply Z.eqb_eq in E0; lia |].
    unfold setQty, lineFrom. simpl. rewrite Z.max_r by lia.
    apply (from_candidate q cart hits catalog b0 src c whyPicked); [assumption |].
    now rewrite Eg.
  - apply from_candidate; [assumption |]. now rewrite Eg.
Qed.

Lemma strongReplace_origin qNorm :
  Forall Orig (strongReplace q qNorm candidates cartBySku b0).
Proof.
  unfold strongReplace. cbv zeta.
  set (kept := dropPrevious cartBySku b0).
  assert (Hkept : forall x, In x kept -> In x b0).
  { intros x Hx. unfold kept, dropPrevious in Hx. now apply filter_In in Hx. }
  assert (Hpicked : forall src, In src (pickByKeywords q qNorm candidates 3) ->
                                Orig (reassertCartQty cartBySku (pickedLine src))).
  { intros src Hsrc. apply reassert_picked. now apply pickByKeywords_incl in Hsrc. }
  assert (Hk : Forall Orig (map (reassertCartQty cartBySku) kept)).
  { rewrite Forall_map. apply Forall_forall. intros x Hx.
    apply from_proposal_requantified. now apply Hkept. }
  destruct (List.length kept =? 0)%nat.
  - rewrite map_map, Forall_map. apply Forall_forall. exact Hpicked.
  - destruct (mentionsAlternates q); [| exact Hk].
    match goal with |- context [if ?c then _ else _] => destruct c end; [| exact Hk].
    rewrite Forall_map. apply Forall_forall. intros x Hx.
    apply appendPicks_In in Hx. destruct Hx as [Hx | [src [Hsrc ->]]].
    + apply from_proposal_requantified. now apply Hkept.
    + now apply Hpicked.
Qed.

Lemma strongReplace_nil qNorm cands cbs b :
  strongReplace q qNorm cands cbs b = [] -> pickByKeywords q qNorm cands 3 = [].
Proof.
  unfold strongReplace. cbv zeta. intros H. apply map_eq_nil in H.
  destruct (dropPrevious cbs b) as [| x kept] eqn:Ek; simpl in H.
  - now apply map_eq_nil in H.
  - exfalso.
    assert (Hx : In x (x :: kept)) by now left.
    destruct (mentionsAlternates q); [| discriminate].
    match type of H with
    | (if ?c then _ else _) = _ => destruct c; [| discriminate]
    end.
    apply (appendPicks_grows (pickByKeywords q qNorm cands 3)) in Hx.
    rewrite H in Hx. destruct Hx.
Qed.

Lemma restoreCart_origin bySku' :
  Agrees bySku' -> Forall Orig (restoreCart candidateSkus bySku' cartBySku).
Proof.
  intros Ha. unfold restoreCart. apply fold_left_inv; [constructor |].
  intros b [s n] Hin Hb.
  destruct (negb (setHas s candidateSkus)) eqn:E; [assumption |].
  apply negb_false_iff, setHas_In in E.
  destruct (agrees_get bySku' s Ha E) as [src [-> [Hsku Hsrc]]].
  apply Forall_app. split; [assumption |]. constructor; [| constructor].
  rewrite Hsku. now apply origin_cart_line.
Qed.

Lemma readdOmitted_origin bySku' b :
  Agrees bySku' -> Forall Orig b ->
  Forall Orig (readdOmitted candidateSkus bySku' cartBySku b).
Proof.
  intros Ha Hb. unfold readdOmitted. apply fold_left_inv; [assumption |].
  intros b' [s n] Hin Hb'.
  destruct (negb (hasSku s b') && setHas s candidateSkus) eqn:E; [| assumption].
  apply andb_true_iff in E. destruct E as [_ Hc]. apply setHas_In in Hc.
  destruct (agrees_get bySku' s Ha Hc) as [src [-> [Hsku Hsrc]]].
  apply Forall_app. split; [assumption |]. constructor; [| constructor].
  rewrite Hsku. now apply origin_cart_line.
Qed.

Lemma emptyBasketHandling_origin qNorm isReplace userDidAdd userWantsRemoval bySku' plan :
  (isReplace && negb userDidAdd = true -> basket plan = [] ->
   pickByKeywords q qNorm candidates 3 = []) ->
  Agrees bySku' ->
  Forall Orig (basket plan) ->
  Forall Orig (basket (emptyBasketHandling q qNorm isReplace userDidAdd userWantsRemoval
                         candidates candidateSkus bySku' cartBySku plan)).
Proof.
  intros Hpicks Ha Hplan. unfold emptyBasketHandling.
  destruct (List.length (basket plan) =? 0)%nat eqn:El; [| assumption].
  apply Nat.eqb_eq, length_zero_iff_nil in El.
  destruct (isReplace && negb userDidAdd) eqn:Er.
  - simpl. rewrite (Hpicks eq_refl El). constructor.
  - destruct (negb userWantsRemoval && (0 <? List.length cartBySku)%nat); [| assumption].
    simpl. now apply restoreCart_origin.
Qed.

Lemma merge_origin plan :
  basket plan = b0 -> Forall Orig (basket (merge q cart hits catalog plan)).
Proof.
  intros Hb0.
  assert (Hplan : Forall Orig (basket plan)).
  { rewrite Hb0. apply Forall_forall. intros x Hx. now apply from_proposal. }
  unfold merge. cbv zeta.
  destruct (addIntent q) eqn:Ea.
  - destruct (addPath_origin plan Ea Hplan) as [Hadd Hagree].
    destruct (addPath q catalog candidates candidateSkus bySku cartBySku plan)
      as [plan1 bySku1].
    simpl in Hadd, Hagree. cbn [shouldForceReplace negb andb].
    set (plan2 := emptyBasketHandling _ _ _ _ _ _ _ _ _ plan1).
    assert (H2 : Forall Orig (basket plan2)).
    { apply emptyBasketHandling_origin; [| assumption | assumption].
      rewrite andb_false_r. discriminate. }
    destruct (negb (replaceIntent q) && negb (removeIntent q)); [| assumption].
    simpl. now apply readdOmitted_origin.
  - set (plan1 := if shouldForceReplace q false (replaceIntent q) cartBySku (basket plan)
                  then _ else plan).
    assert (H1 : Forall Orig (basket plan1)
                 /\ (replaceIntent q && negb false = true -> basket plan1 = [] ->
                     pickByKeywords q (normalizeQuery q) candidates 3 = [])).
    { subst plan1.
      destruct (shouldForceReplace q false (replaceIntent q) cartBySku (basket plan)) eqn:Es.
      - simpl. rewrite Hb0. split; [apply strongReplace_origin |].
        intros _. apply strongReplace_nil.
      - split; [assumption |].
        unfold shouldForceReplace in Es. simpl in Es.
        destruct (replaceIntent q); simpl in *; discriminate. }
    destruct H1 as [H1 Hpicks].
    set (plan2 := emptyBasketHandling _ _ _ _ _ _ _ _ _ plan1).
    assert (H2 : Forall Orig (basket plan2)).
    { apply emptyBasketHandling_origin; [assumption | apply agrees_refl | assumption]. }
    destruct (negb (replaceIntent q) && negb (removeIntent q)); [| assumption].
    simpl. apply readdOmitted_origin; [apply agrees_refl | assumption].
Qed.

(** ** What the merge keeps *)

Lemma spareAssist_agrees ens : Agrees (snd (spareAssist catalog bySku cartBySku ens)).
Proof.
  unfold spareAssist.
  destruct (map_has "CORTA-COBRE-001" cartBySku && negb (hasSku "REP-CORTA-001" ens));
    [| apply agrees_refl].
  destruct (map_get "REP-CORTA-001" bySku) as [r |] eqn:Eg; [apply agrees_refl |].
  destruct (selectOne catalog "REP-CORTA-001") as [repFetch |] eqn:Es; [| apply agrees_refl].
  unfold selectOne in Es. apply find_some in Es. destruct Es as [_ Hsku].
  apply String.eqb_eq in Hsku. simpl.
  intros s Hs. apply map_get_set_neq. rewrite Hsku. intros <-.
  rewrite (keyed_skus _ (buildBySku_keyed hits cart catalog)) in Hs.
  apply map_get_keys in Hs. congruence.
Qed.

Lemma addPath_agrees plan :
  Agrees (snd (addPath q catalog candidates candidateSkus bySku cartBySku plan)).
Proof.
  unfold addPath. cbv zeta.
  destruct (testAnyCI spareWords q); [| apply agrees_refl].
  match goal with
  | |- context [spareAssist catalog bySku cartBySku ?e] =>
      pose proof (spareAssist_agrees e) as Ha;
      destruct (spareAssist catalog bySku cartBySku e) as [e5 bySku5]
  end.
  exact Ha.
Qed.


Lemma readdOmitted_extends bySku' b :
  exists extra, readdOmitted candidateSkus bySku' cartBySku b = b ++ extra.
Proof.
  unfold readdOmitted.
  apply (fold_left_inv _ (fun b' => exists extra, b' = b ++ extra)).
  - exists []. now rewrite app_nil_r.
  - intros b' [s n] _ [extra ->].
    destruct (negb (hasSku s (b ++ extra)) && setHas s candidateSkus);
      [| now exists extra].
    destruct (map_get s bySku'); [| now exists extra].
    eexists. now rewrite <- app_assoc.
Qed.

Lemma pushIf_extends cands predicate w ens :
  exists extra, pushIf cands predicate w ens = ens ++ extra.
Proof.
  unfold pushIf.
  destruct (find predicate cands) as [pick |]; [| exists []; now rewrite app_nil_r].
  destruct (negb (hasSku (p_sku pick) ens)); [eexists; reflexivity |].
  exists []. now rewrite app_nil_r.
Qed.

Lemma teflonFallback_extends ens :
  exists extra, teflonFallback catalog ens = ens ++ extra.
Proof.
  unfold teflonFallback.
  destruct (negb (existsb (fun x => testAnyCI teflonWords (nameSku x)) ens));
    [| exists []; now rewrite app_nil_r].
  destruct (match find (fun p => (p_stock p >? 0)%Z) (selectIn catalog TEFLON_SKUS) with
            | Some p => Some p
            | None => hd_error (selectIn catalog TEFLON_SKUS)
            end) as [t |]; [| exists []; now rewrite app_nil_r].
  destruct (negb (hasSku (p_sku t) ens)); [eexists; reflexivity |].
  exists []. now rewrite app_nil_r.
Qed.

Lemma spareAssist_extends m ens :
  exists extra, fst (spareAssist catalog m cartBySku ens) = ens ++ extra.
Proof.
  unfold spareAssist.
  destruct (map_has "CORTA-COBRE-001" cartBySku && negb (hasSku "REP-CORTA-001" ens));
    [| exists []; simpl; now rewrite app_nil_r].
  destruct (map_get "REP-CORTA-001" m) as [r |]; [eexists; reflexivity |].
  destruct (selectOne catalog "REP-CORTA-001"); [eexists; reflexivity |].
  exists []. simpl. now rewrite app_nil_r.
Qed.

(** The add path keeps every candidate line of the basket it starts
    from, covers the cart, and only appends. *)
Lemma addPath_extends plan :
  exists extra,
    basket (fst (addPath q catalog candidates candidateSkus bySku cartBySku plan))
    = readdCart candidateSkus bySku cartBySku
        (filter (fun it => setHas (sku it) candidateSkus) (basket plan)) ++ extra.
Proof.
  unfold addPath. cbv zeta.
  set (e1 := readdCart candidateSkus bySku cartBySku _).
  set (e2 := if testAnyCI spareWords q then pushIf candidates _ whySpare e1 else e1).
  assert (H2 : exists extra, e2 = e1 ++ extra).
  { subst e2. destruct (testAnyCI spareWords q); [apply pushIf_extends |].
    exists []. now rewrite app_nil_r. }
  set (e3 := if testAnyCI teflonWords q then pushIf candidates _ whyTeflon e2 else e2).
  assert (H3 : exists extra, e3 = e1 ++ extra).
  { destruct H2 as [x2 H2]. subst e3. destruct (testAnyCI teflonWords q).
    - destruct (pushIf_extends candidates
                  (fun p => testAnyCI teflonWords (nameDesc p)) whyTeflon e2) as [x ->].
      rewrite H2, <- app_assoc. now eexists.
    - now exists x2. }
  set (e4 := if testAnyCI teflonWords q then teflonFallback catalog e3 else e3).
  assert (H4 : exists extra, e4 = e1 ++ extra).
  { destruct H3 as [x3 H3]. subst e4. destruct (testAnyCI teflonWords q).
    - destruct (teflonFallback_extends e3) as [x ->].
      rewrite H3, <- app_assoc. now eexists.
    - now exists x3. }
  destruct H4 as [x4 H4].
  destruct (testAnyCI spareWords q).
  - destruct (spareAssist_extends bySku e4) as [x Hx].
    destruct (spareAssist catalog bySku cartBySku e4) as [e5 bySku5].
    simpl in *. rewrite Hx, H4, <- app_assoc. now eexists.
  - simpl. now exists x4.
Qed.

Lemma reassert_absent (x : Line) :
  map_get (sku x) cartBySku = None -> reassertCartQty cartBySku x = x.
Proof. intros H. unfold reassertCartQty. now rewrite H. Qed.


Lemma emptyBasketHandling_keeps qNorm isReplace userDidAdd userWantsRemoval bySku' plan x :
  In x (basket plan) ->
  emptyBasketHandling q qNorm isReplace userDidAdd userWantsRemoval
    candidates candidateSkus bySku' cartBySku plan = plan.
Proof.
  intros Hx. unfold emptyBasketHandling.
  destruct (basket plan) as [| y b]; [destruct Hx | reflexivity].
Qed.


(** On an Add turn the merged basket holds every line the add path
    leaves. *)
Lemma merge_add_keeps plan x :
  addIntent q = true ->
  In x (basket (fst (addPath q catalog candidates candidateSkus bySku cartBySku plan))) ->
  In x (basket (merge q cart hits catalog plan)).
Proof.
  intros Ea Hx. unfold merge. cbv zeta. rewrite Ea.
  destruct (addPath q catalog candidates candidateSkus bySku cartBySku plan)
    as [plan1 bySku1].
  simpl in Hx. cbn [shouldForceReplace negb andb].
  rewrite (emptyBasketHandling_keeps _ _ _ _ _ _ x Hx).
  destruct (negb (replaceIntent q) && negb (removeIntent q)); [| assumption].
  simpl. destruct (readdOmitted_extends bySku1 (basket plan1)) as [extra ->].
  apply in_app_iff. now left.
Qed.

Lemma merge_upsell plan : upsell (merge q cart hits catalog plan) = upsell plan.
Proof.
  unfold merge. cbv zeta.
  assert (Hadd : upsell (fst (addPath q catalog candidates candidateSkus bySku cartBySku plan))
                 = upsell plan).
  { unfold addPath. cbv zeta.
    match goal with
    | |- context [if testAnyCI spareWords q then spareAssist ?a ?b ?c ?d else ?e] =>
        destruct (if testAnyCI spareWords q then spareAssist a b c d else e)
    end.
    reflexivity. }
  assert (Hempty : forall qn r a w cs cks m p,
             upsell (emptyBasketHandling q qn r a w cs cks m cartBySku p) = upsell p).
  { intros. unfold emptyBasketHandling.
    destruct (List.length (basket p) =? 0)%nat; [| reflexivity].
    destruct (r && negb a); [reflexivity |].
    destruct (negb w && (0 <? List.length cartBySku)%nat); reflexivity. }
  destruct (addIntent q).
  - destruct (addPath q catalog candidates candidateSkus bySku cartBySku plan)
      as [plan1 bySku1].
    simpl in Hadd. cbn [shouldForceReplace negb andb].
    destruct (negb (replaceIntent q) && negb (removeIntent q)); simpl;
      now rewrite Hempty.
  - destruct (negb (replaceIntent q) && negb (removeIntent q)); simpl;
      rewrite Hempty;
      destruct (shouldForceReplace q false (replaceIntent q) cartBySku (basket plan));
      reflexivity.
Qed.

(** ** Distinct SKUs *)

Lemma push_distinct ens (l : Line) :
  NoDup (map sku ens) -> hasSku (sku l) ens = false -> NoDup (map sku (ens ++ [l])).
Proof.
  intros Hnd Hh. rewrite map_app. apply NoDup_app; [assumption | |].
  - simpl. constructor; [tauto | constructor].
  - intros s Hs [<- | []]. apply hasSku_false in Hh. contradiction.
Qed.

Lemma candidates_distinct : NoDup candidateSkus.
Proof.
  rewrite (keyed_skus _ (buildBySku_keyed hits cart catalog)). apply buildBySku_NoDup.
Qed.

Lemma readdCart_NoDup ens :
  NoDup (map sku ens) -> NoDup (map sku (readdCart candidateSkus bySku cartBySku ens)).
Proof.
  intros Hnd. unfold readdCart. apply fold_left_inv; [assumption |].
  intros ens' [s n] _ Hens'.
  destruct (negb (hasSku s ens') && setHas s candidateSkus) eqn:E; [| assumption].
  apply andb_true_iff in E. destruct E as [Hh _]. apply negb_true_iff in Hh.
  destruct (map_get s bySku); [| assumption].
  now apply push_distinct.
Qed.

Lemma readdOmitted_NoDup bySku' b :
  Agrees bySku' -> NoDup (map sku b) ->
  NoDup (map sku (readdOmitted candidateSkus bySku' cartBySku b)).
Proof.
  intros Ha Hnd. unfold readdOmitted. apply fold_left_inv; [assumption |].
  intros b' [s n] _ Hb'.
  destruct (negb (hasSku s b') && setHas s candidateSkus) eqn:E; [| assumption].
  apply andb_true_iff in E. destruct E as [Hh Hc].
  apply negb_true_iff in Hh. apply setHas_In in Hc.
  destruct (agrees_get bySku' s Ha Hc) as [src [-> [Hsku _]]].
  apply push_distinct; [assumption |]. simpl. now rewrite Hsku.
Qed.

Lemma pushIf_NoDup cands predicate w ens :
  NoDup (map sku ens) -> NoDup (map sku (pushIf cands predicate w ens)).
Proof.
  intros Hnd. unfold pushIf.
  destruct (find predicate cands) as [pick |]; [| assumption].
  destruct (negb (hasSku (p_sku pick) ens)) eqn:E; [| assumption].
  apply negb_true_iff in E. now apply push_distinct.
Qed.

Lemma teflonFallback_NoDup ens :
  NoDup (map sku ens) -> NoDup (map sku (teflonFallback catalog ens)).
Proof.
  intros Hnd. unfold teflonFallback.
  destruct (negb (existsb (fun x => testAnyCI teflonWords (nameSku x)) ens)); [| assumption].
  destruct (match find (fun p => (p_stock p >? 0)%Z) (selectIn catalog TEFLON_SKUS) with
            | Some p => Some p
            | None => hd_error (selectIn catalog TEFLON_SKUS)
            end) as [t |]; [| assumption].
  destruct (negb (hasSku (p_sku t) ens)) eqn:E; [| assumption].
  apply negb_true_iff in E. now apply push_distinct.
Qed.

Lemma spareAssist_NoDup ens :
  NoDup (map sku ens) ->
  NoDup (map sku (fst (spareAssist catalog bySku cartBySku ens))).
Proof.
  intros Hnd. unfold spareAssist.
  destruct (map_has "CORTA-COBRE-001" cartBySku && negb (hasSku "REP-CORTA-001" ens)) eqn:E;
    [| assumption].
  apply andb_true_iff in E. destruct E as [_ Eh]. apply negb_true_iff in Eh.
  destruct (map_get "REP-CORTA-001" bySku) as [r |] eqn:Eg.
  - simpl. destruct (keyed_get _ _ _ (buildBySku_keyed hits cart catalog) Eg) as [Hsku _].
    apply push_distinct; [assumption |]. simpl. now rewrite Hsku.
  - destruct (selectOne catalog "REP-CORTA-001") as [repFetch |] eqn:Es; [| assumption].
    unfold selectOne in Es. apply find_some in Es. destruct Es as [_ Hsku].
    apply String.eqb_eq in Hsku. simpl.
    apply push_distinct; [assumption |]. simpl. now rewrite Hsku.
Qed.

Lemma addPath_NoDup plan :
  NoDup (map sku (basket plan)) ->
  NoDup (map sku (basket (fst (addPath q catalog candidates candidateSkus bySku
                                       cartBySku plan)))).
Proof.
  intros Hnd. unfold addPath. cbv zeta.
  set (e1 := readdCart candidateSkus bySku cartBySku _).
  assert (H1 : NoDup (map sku e1)).
  { apply readdCart_NoDup. now apply NoDup_map_filter. }
  set (e2 := if testAnyCI spareWords q then pushIf candidates _ whySpare e1 else e1).
  assert (H2 : NoDup (map sku e2)).
  { subst e2. destruct (testAnyCI spareWords q); [now apply pushIf_NoDup | assumption]. }
  set (e3 := if testAnyCI teflonWords q then pushIf candidates _ whyTeflon e2 else e2).
  assert (H3 : NoDup (map sku e3)).
  { subst e3. destruct (testAnyCI teflonWords q); [now apply pushIf_NoDup | assumption]. }
  set (e4 := if testAnyCI teflonWords q then teflonFallback catalog e3 else e3).
  assert (H4 : NoDup (map sku e4)).
  { subst e4. destruct (testAnyCI teflonWords q);
      [now apply teflonFallback_NoDup | assumption]. }
  destruct (testAnyCI spareWords q).
  - pose proof (spareAssist_NoDup e4 H4) as H5.
    destruct (spareAssist catalog bySku cartBySku e4) as [e5 bySku5]. exact H5.
  - exact H4.
Qed.

Lemma appendPicks_NoDup picks b :
  NoDup (map sku b) -> NoDup (map sku (appendPicks picks b)).
Proof.
  intros Hnd. unfold appendPicks. apply fold_left_inv; [assumption |].
  intros b' src _ Hb'.
  destruct (negb (hasSku (p_sku src) b')) eqn:E; [| assumption].
  apply negb_true_iff in E. now apply push_distinct.
Qed.

Lemma reassert_skus cbs b : map sku (map (reassertCartQty cbs) b) = map sku b.
Proof.
  rewrite map_map. apply map_ext. intros x. unfold reassertCartQty.
  destruct (map_get (sku x) cbs) as [c |]; [| reflexivity].
  now destruct (c =? 0)%Z.
Qed.

Lemma picked_skus picks : map sku (map pickedLine picks) = map p_sku picks.
Proof. rewrite map_map. now apply map_ext. Qed.

Lemma picks_distinct qNorm :
  NoDup (map sku (map pickedLine (pickByKeywords q qNorm candidates 3))).
Proof.
  rewrite picked_skus. apply pickByKeywords_NoDup, candidates_distinct.
Qed.

Lemma strongReplace_NoDup qNorm b :
  NoDup (map sku b) -> NoDup (map sku (strongReplace q qNorm candidates cartBySku b)).
Proof.
  intros Hnd. unfold strongReplace. cbv zeta. rewrite reassert_skus.
  assert (Hk : NoDup (map sku (dropPrevious cartBySku b)))
    by now apply NoDup_map_filter.
  destruct (List.length (dropPrevious cartBySku b) =? 0)%nat; [apply picks_distinct |].
  destruct (mentionsAlternates q); [| assumption].
  match goal with |- context [if ?c then _ else _] => destruct c end; [| assumption].
  now apply appendPicks_NoDup.
Qed.

Lemma restoreCart_NoDup bySku' :
  Agrees bySku' -> NoDup (map sku (restoreCart candidateSkus bySku' cartBySku)).
Proof.
  intros Ha. unfold restoreCart.
  assert (G : forall (m : list (string * Z)) b,
             NoDup (map_keys m) ->
             NoDup (map sku b) ->
             (forall s, In s (map sku b) -> ~ In s (map_keys m)) ->
             NoDup (map sku (fold_left
               (fun b (e : string * Z) =>
                  let (s, n) := e in
                  if negb (setHas s candidateSkus) then b
                  else match map_get s bySku' with
                       | Some src => b ++ [lineFrom (p_sku src) src n whyKept]
                       | None => b
                       end) m b))).
  { induction m as [| [s n] m IH]; intros b Hm Hb Hdisj; simpl; [assumption |].
    simpl in Hm. inversion Hm as [| ? ? Hs Hm']; subst.
    assert (Hrest : forall s', In s' (map sku b) -> ~ In s' (map_keys m)).
    { intros s' Hs' Hin. apply (Hdisj s' Hs'). now right. }
    destruct (negb (setHas s candidateSkus)) eqn:E; [now apply IH |].
    apply negb_false_iff, setHas_In in E.
    destruct (agrees_get bySku' s Ha E) as [src [-> [Hsku _]]].
    apply IH; [assumption | |].
    - apply push_distinct; [assumption |]. simpl. rewrite Hsku.
      apply hasSku_false. intros Hin. apply (Hdisj s Hin). now left.
    - intros s' Hs'. rewrite map_app, in_app_iff in Hs'.
      destruct Hs' as [Hs' | [<- | []]]; [now apply Hrest |].
      simpl. now rewrite Hsku. }
  apply G; [apply buildCartBySku_NoDup | constructor | intros s []].
Qed.

Lemma emptyBasketHandling_NoDup qNorm isReplace userDidAdd userWantsRemoval bySku' plan :
  Agrees bySku' ->
  NoDup (map sku (basket plan)) ->
  NoDup (map sku (basket (emptyBasketHandling q qNorm isReplace userDidAdd userWantsRemoval
                            candidates candidateSkus bySku' cartBySku plan))).
Proof.
  intros Ha Hnd. unfold emptyBasketHandling.
  destruct (List.length (basket plan) =? 0)%nat; [| assumption].
  destruct (isReplace && negb userDidAdd); [simpl; apply picks_distinct |].
  destruct (negb userWantsRemoval && (0 <? List.length cartBySku)%nat); [| assumption].
  simpl. now apply restoreCart_NoDup.
Qed.

Lemma merge_NoDup plan :
  NoDup (map sku (basket plan)) -> NoDup (map sku (basket (merge q cart hits catalog plan))).
Proof.
  intros Hnd. unfold merge. cbv zeta.
  destruct (addIntent q).
  - pose proof (addPath_NoDup plan Hnd) as H1.
    pose proof (addPath_agrees plan) as Ha.
    destruct (addPath q catalog candidates candidateSkus bySku cartBySku plan)
      as [plan1 bySku1].
    simpl in H1, Ha. cbn [shouldForceReplace negb andb].
    set (plan2 := emptyBasketHandling _ _ _ _ _ _ _ _ _ plan1).
    assert (H2 : NoDup (map sku (basket plan2)))
      by now apply emptyBasketHandling_NoDup.
    destruct (negb (replaceIntent q) && negb (removeIntent q)); [| assumption].
    simpl. now apply readdOmitted_NoDup.
  - set (plan1 := if shouldForceReplace q false (replaceIntent q) cartBySku (basket plan)
                  then _ else plan).
    assert (H1 : NoDup (map sku (basket plan1))).
    { subst plan1.
      destruct (shouldForceReplace q false (replaceIntent q) cartBySku (basket plan));
        [| assumption].
      simpl. now apply strongReplace_NoDup. }
    set (plan2 := emptyBasketHandling _ _ _ _ _ _ _ _ _ plan1).
    assert (H2 : NoDup (map sku (basket plan2))).
    { apply emptyBasketHandling_NoDup; [apply agrees_refl | assumption]. }
    destruct (negb (replaceIntent q) && negb (removeIntent q)); [| assumption].
    simpl. apply readdOmitted_NoDup; [apply agrees_refl | assumption].
Qed.

(** ** The spare of the pipe cutter on an Add turn *)

Lemma addPath_covers plan :
  Covers (basket (fst (addPath q catalog candidates candidateSkus bySku cartBySku plan))).
Proof.
  destruct (addPath_extends plan) as [extra ->].
  apply covers_app, readdCart_covers.
Qed.

Lemma addPath_has_spare plan :
  testAnyCI spareWords q = true ->
  map_has "CORTA-COBRE-001" cartBySku = true ->
  In "REP-CORTA-001" candidateSkus ->
  In "REP-CORTA-001"
     (map sku (basket (fst (addPath q catalog candidates candidateSkus bySku
                                    cartBySku plan)))).
Proof.
  intros Hspare Hcorta Hrep. unfold addPath. cbv zeta. rewrite Hspare.
  match goal with
  | |- context [spareAssist catalog bySku cartBySku ?e] => set (e4 := e)
  end.
  unfold spareAssist. rewrite Hcorta. simpl andb.
  destruct (hasSku "REP-CORTA-001" e4) eqn:Eh; simpl negb; cbv iota.
  - simpl. now apply hasSku_In.
  - destruct (candidate_get _ Hrep) as [src [-> [Hsku _]]].
    simpl. rewrite map_app, in_app_iff. right. simpl. now left.
Qed.
End MergeOrigin.

(* ================================================================== *)
(** * Properties of a whole turn *)
(* ================================================================== *)

Lemma filterToCandidates_In cs arr l : In l (filterToCandidates cs arr) -> In (sku l) cs.
Proof.
  unfold filterToCandidates, linesOf. rewrite in_flat_map.
  intros [x [Hx Hl]]. apply filter_In in Hx. destruct Hx as [_ Hs].
  destruct x as [l' |]; [| destruct Hl].
  destruct Hl as [<- | []]. now apply setHas_In.
Qed.

Lemma preferClientQty_absent cbs it :
  map_get (sku it) cbs = None -> preferClientQty cbs it = setQty it (floor1 (qty it)).
Proof. intros H. unfold preferClientQty, floor1. now rewrite H. Qed.

Lemma preferClientQty_qty cbs it :
  atLeastOne (qty (preferClientQty cbs it))
  \/ (qty (preferClientQty cbs it) = Some NaN
      /\ map_get (sku it) cbs = None /\ qty it = Some NaN).
Proof.
  unfold preferClientQty, atLeastOne. cbn [qty setQty].
  destruct (map_get (sku it) cbs) as [c |].
  - left. eexists. split; [reflexivity | lia].
  - destruct (qty it) as [[z |] |].
    + left. eexists. split; [reflexivity | lia].
    + right. repeat split.
    + left. eexists. split; [reflexivity | lia].
Qed.

Lemma validated_basket_In cs cbs parsed l :
  In l (basket (validated cs cbs parsed)) ->
  exists it, In it (filterToCandidates cs (r_basket parsed)) /\ l = preferClientQty cbs it.
Proof.
  unfold validated. simpl. rewrite in_map_iff. intros [it [<- Hit]]. now exists it.
Qed.

Lemma validated_basket_skus cs cbs parsed :
  map sku (basket (validated cs cbs parsed))
  = map sku (filterToCandidates cs (r_basket parsed)).
Proof. unfold validated. simpl. rewrite map_map. now apply map_ext. Qed.

Lemma handler_basket_cases q cart hits catalog proposal :
  basketOf (handler q cart hits catalog proposal) = []
  \/ exists parsed,
       proposal = Valid parsed
       /\ (String.length q =? 0)%nat = false
       /\ endIntent q = false
       /\ basketOf (handler q cart hits catalog proposal)
          = basket (merge q cart hits catalog
                      (validated (candidateSkusOf hits cart catalog)
                                 (buildCartBySku cart) parsed)).
Proof.
  destruct (String.length q =? 0)%nat eqn:Eq; [left; unfold handler; now rewrite Eq |].
  destruct (endIntent q) eqn:Ee; [left; unfold handler; now rewrite Eq, Ee |].
  destruct proposal as [| parsed]; [left; unfold handler; now rewrite Eq, Ee |].
  right. exists parsed. repeat split; try assumption.
  now apply handler_valid_basket.
Qed.

Lemma handler_upsell_cases q cart hits catalog proposal :
  upsellOf (handler q cart hits catalog proposal) = []
  \/ exists parsed,
       proposal = Valid parsed
       /\ upsellOf (handler q cart hits catalog proposal)
          = filterToCandidates (candidateSkusOf hits cart catalog) (r_upsell parsed).
Proof.
  unfold handler.
  destruct (String.length q =? 0)%nat; [now left |].
  destruct (endIntent q); [now left |].
  destruct proposal as [| parsed]; [now left |].
  right. exists parsed. split; [reflexivity |].
  set (m := merge _ _ _ _ _). set (r := orElse _ _).
  pose proof (nudge_keeps_lines q catalog m r) as [_ [Hu _]].
  destruct (pvcLeakNudge q catalog (m, r)) as [plan' reply']. simpl in *.
  rewrite Hu. unfold m. now rewrite merge_upsell.
Qed.

Section OriginFacts.
Variables (q : string) (cart : list CartItem) (hits catalog : list Product).
Variable b0 : list Line.

(** The quantity of a merged line is the quantity of a line of [b0] or
    a number of at least 1. *)
Lemma origin_qty_cases l :
  origin q cart hits catalog b0 l ->
  atLeastOne (qty l) \/ exists x, In x b0 /\ sku x = sku l /\ qty x = qty l.
Proof.
  intros Ho. destruct Ho as [l Hl | l Hl | src n w Hsrc Hn | t w _ _ _ _].
  - right. now exists l.
  - unfold reassertCartQty.
    destruct (map_get (sku l) (buildCartBySku cart)) as [c |]; [| right; now exists l].
    destruct (c =? 0)%Z; [right; now exists l |].
    left. exists (Z.max 1 c). split; [reflexivity | lia].
  - left. exists n. split; [reflexivity |].
    destruct (map_get (p_sku src) (buildCartBySku cart)) as [c |] eqn:Eg; [| lia].
    subst n. exact (cart_get_floor cart _ _ Eg).
  - left. exists 1%Z. split; [reflexivity | lia].
Qed.

Lemma origin_cart_qty l c :
  (forall x c, In x b0 -> map_get (sku x) (buildCartBySku cart) = Some c ->
               qty x = Some (Finite c)) ->
  origin q cart hits catalog b0 l ->
  map_get (sku l) (buildCartBySku cart) = Some c -> qty l = Some (Finite c).
Proof.
  intros Hb0 Ho. destruct Ho as [l Hl | l Hl | src n w Hsrc Hn | t w _ _ _ Hnone].
  - now apply Hb0.
  - unfold reassertCartQty.
    destruct (map_get (sku l) (buildCartBySku cart)) as [c' |] eqn:Eg;
      [| intros H; rewrite Eg in H; discriminate].
    pose proof (cart_get_floor cart _ _ Eg) as Hc'.
    destruct (c' =? 0)%Z eqn:E0; [apply Z.eqb_eq in E0; lia |].
    simpl. rewrite Eg. intros [= <-]. do 2 f_equal. lia.
  - simpl. intros Hg. rewrite Hg in Hn. now subst.
  - simpl. intros Hg. rewrite Hg in Hnone. discriminate.
Qed.

Lemma origin_sku l :
  (forall x, In x b0 -> In (sku x) (candidateSkusOf hits cart catalog)) ->
  origin q cart hits catalog b0 l ->
  In (sku l) (candidateSkusOf hits cart catalog)
  \/ (addIntent q = true /\ pinnedSku (sku l) /\ In (sku l) (map p_sku catalog)).
Proof.
  intros Hb0 Ho. destruct Ho as [l Hl | l Hl | src n w Hsrc Hn | t w Hadd Hcat Hpin _].
  - left. now apply Hb0.
  - left. unfold reassertCartQty.
    destruct (map_get (sku l) (buildCartBySku cart)) as [c |]; [| now apply Hb0].
    destruct (c =? 0)%Z; [now apply Hb0 |].
    change (sku (setQty l (Finite (Z.max 1 c)))) with (sku l). now apply Hb0.
  - left. simpl. unfold candidateSkusOf, candidatesOf. now apply in_map.
  - right. simpl. split; [assumption | split; [exact Hpin | now apply in_map]].
Qed.

(** A line whose SKU the cart does not have is a line of [b0] or has
    quantity 1. *)
Lemma origin_absent l :
  origin q cart hits catalog b0 l ->
  map_get (sku l) (buildCartBySku cart) = None ->
  In l b0 \/ qty l = Some (Finite 1).
Proof.
  intros Ho. destruct Ho as [l Hl | l Hl | src n w Hsrc Hn | t w _ _ _ _].
  - now left.
  - unfold reassertCartQty.
    destruct (map_get (sku l) (buildCartBySku cart)) as [c |] eqn:Eg; [| now left].
    destruct (c =? 0)%Z; [now left |]. simpl. rewrite Eg. discriminate.
  - simpl. intros Hg. rewrite Hg in Hn. right. now subst.
  - now right.
Qed.
End OriginFacts.

Lemma validated_cart_qty cs cart parsed x c :
  In x (basket (validated cs (buildCartBySku cart) parsed)) ->
  map_get (sku x) (buildCartBySku cart) = Some c -> qty x = Some (Finite c).
Proof.
  intros Hx Hg. apply validated_basket_In in Hx. destruct Hx as [it [_ ->]].
  unfold preferClientQty in *. simpl in *. rewrite Hg.
  pose proof (cart_get_floor cart _ _ Hg). cbn [jsMax1]. do 2 f_equal. lia.
Qed.

Lemma validated_qty cs cbs parsed x :
  In x (basket (validated cs cbs parsed)) ->
  atLeastOne (qty x) \/ nanFromProposal cbs (filterToCandidates cs (r_basket parsed)) x.
Proof.
  intros Hx. apply validated_basket_In in Hx. destruct Hx as [it [Hit ->]].
  destruct (preferClientQty_qty cbs it) as [H | [H1 [H2 H3]]]; [now left | right].
  unfold nanFromProposal. change (sku (preferClientQty cbs it)) with (sku it).
  split; [exact H1 | split; [exact H2 |]]. now exists it.
Qed.

Lemma validated_candidate cs cbs parsed x :
  In x (basket (validated cs cbs parsed)) -> In (sku x) cs.
Proof.
  intros Hx. apply validated_basket_In in Hx. destruct Hx as [it [Hit ->]].
  simpl. now apply filterToCandidates_In in Hit.
Qed.


(** The quantity of every line a turn returns is a number of at least
    1, or the NaN of a validated proposal line outside the cart. *)
Lemma returned_qty_cases q cart hits catalog parsed :
  Forall (fun l => atLeastOne (qty l)
                   \/ nanFromProposal (buildCartBySku cart)
                        (filterToCandidates (candidateSkusOf hits cart catalog)
                                            (r_basket parsed)) l)
         (basketOf (handler q cart hits catalog (Valid parsed))).
Proof.
  destruct (handler_basket_cases q cart hits catalog (Valid parsed))
    as [-> | [parsed' [Heq [_ [_ ->]]]]]; [constructor |].
  injection Heq as <-.
  eapply Forall_impl; [| apply merge_origin; reflexivity].
  intros l Ho. destruct (origin_qty_cases q cart hits catalog _ l Ho)
    as [H | [x [Hx [Hsku Hqty]]]]; [now left |].
  destruct (validated_qty _ _ parsed x Hx) as [H | [H1 [H2 [it [Hit [Hs Hn]]]]]].
  - left. now rewrite <- Hqty.
  - right. unfold nanFromProposal. rewrite <- Hqty, <- Hsku.
    split; [exact H1 | split; [exact H2 |]]. now exists it.
Qed.

(** C10 (the code at the failing input): a proposed line for a candidate
    SKU outside the cart whose [qty] is not numeric (as ["qty": "dos"])
    is returned with the quantity NaN, which is not a number of at least
    1: [Math.max(1, NaN)] is NaN. *)
Lemma proposed_nan_quantity_is_returned :
  let q := "necesito un cortatubo" in
  let hits := [Sample.corta; Sample.rep] in
  let catalog := [Sample.corta; Sample.rep] in
  let proposal := Sample.proposalOf [Sample.rawLineNaN "CORTA-COBRE-001"] in
  map Sample.skuQty (basketOf (handler q [] hits catalog proposal))
  = [("CORTA-COBRE-001", Some NaN)]
  /\ ~ Forall (fun l => atLeastOne (qty l)) (basketOf (handler q [] hits catalog proposal)).
Proof.
  cbv zeta. split; [reflexivity |].
  intros H. vm_compute in H. apply Forall_inv in H.
  destruct H as [n [Hn _]]. discriminate Hn.
Qed.

(** C1 (amended): every upsell line's SKU is a key of the turn's
    candidate set; every basket line's SKU is a key of the candidate set
    or, on an Add turn only, one of the pinned SKUs PTF-12 and
    REP-CORTA-001 whose row the add path read from the product table. *)
Theorem lines_within_candidates_or_pinned (q : string) (cart : list CartItem)
    (hits catalog : list Product) (proposal : Proposal) :
  Forall (fun l => In (sku l) (candidateSkusOf hits cart catalog))
         (upsellOf (handler q cart hits catalog proposal))
  /\ Forall (fun l => In (sku l) (candidateSkusOf hits cart catalog)
                      \/ (addIntent q = true /\ pinnedSku (sku l)
                          /\ In (sku l) (map p_sku catalog)))
            (basketOf (handler q cart hits catalog proposal)).
Proof.
  split.
  - destruct (handler_upsell_cases q cart hits catalog proposal)
      as [-> | [parsed [_ ->]]]; [constructor |].
    apply Forall_forall. intros l. apply filterToCandidates_In.
  - destruct (handler_basket_cases q cart hits catalog proposal)
      as [-> | [parsed [_ [_ [_ ->]]]]]; [constructor |].
    eapply Forall_impl; [| apply merge_origin; reflexivity].
    intros l Ho. eapply origin_sku; [| exact Ho].
    intros x Hx. eapply validated_candidate. exact Hx.
Qed.

(** C1, as stated, fails on an Add turn that asks for teflon tape when
    the search found no tape: the add path reads the pinned row PTF-12
    from the product table and appends it, although PTF-12 is not a key
    of the candidate set. *)
Lemma pinned_sku_outside_candidates :
  let q := "sí, agrega teflón" in
  let cart := [mkCartItem "CORTA-COBRE-001" (Some 1%Z)] in
  let hits := @nil Product in
  let catalog := [Sample.corta; Sample.teflon] in
  let proposal := Sample.proposalOf [Sample.rawLine "CORTA-COBRE-001" (Some 1%Z)] in
  candidateSkusOf hits cart catalog = ["CORTA-COBRE-001"]
  /\ map sku (basketOf (handler q cart hits catalog proposal))
     = ["CORTA-COBRE-001"; "PTF-12"]
  /\ ~ Forall (fun l => In (sku l) (candidateSkusOf hits cart catalog))
              (basketOf (handler q cart hits catalog proposal)).
Proof.
  cbv zeta. split; [reflexivity | split; [reflexivity |]].
  intros H. rewrite Forall_forall in H.
  assert (Hin : In "PTF-12" ["CORTA-COBRE-001"]).
  { apply (H (lineFrom "PTF-12" Sample.teflon 1 whyTeflon)).
    vm_compute. right. now left. }
  simpl in Hin. destruct Hin as [Hin | []]. discriminate Hin.
Qed.



(** C8 (amended): when the proposal lines that pass the validation
    filter have distinct SKUs, the basket a turn returns has at most one
    line per SKU: no step of the merge adds a line for a SKU the basket
    already has. *)
Theorem basket_skus_distinct (q : string) (cart : list CartItem)
    (hits catalog : list Product) (parsed : Parsed) :
  NoDup (map sku (filterToCandidates (candidateSkusOf hits cart catalog) (r_basket parsed))) ->
  NoDup (map sku (basketOf (handler q cart hits catalog (Valid parsed)))).
Proof.
  intros Hnd.
  destruct (handler_basket_cases q cart hits catalog (Valid parsed))
    as [-> | [parsed' [Heq [_ [_ ->]]]]]; [constructor |].
  injection Heq as <-.
  apply merge_NoDup. now rewrite validated_basket_skus.
Qed.

Lemma basket_skus_distinct_witness :
  NoDup (map sku (basketOf (handler "sí, dame el repuesto"
                              [mkCartItem "CORTA-COBRE-001" (Some 1%Z)]
                              [Sample.rep] [Sample.corta; Sample.rep]
                              (Valid (mkParsed "Plan" [] 
                                        (Some [Sample.rawLine "REP-CORTA-001" (Some 1%Z)])
                                        (Some []) None None))))).
Proof.
  apply (basket_skus_distinct "sí, dame el repuesto"
           [mkCartItem "CORTA-COBRE-001" (Some 1%Z)]
           [Sample.rep] [Sample.corta; Sample.rep]).
  vm_compute. constructor; [simpl; tauto | constructor].
Defined.

(** C8, as stated, fails when the proposal lists a candidate SKU twice:
    both lines pass the validation filter and both are returned. *)
Lemma proposal_duplicates_survive :
  let q := "necesito un cortatubo" in
  let cart := @nil CartItem in
  let hits := [Sample.corta; Sample.rep] in
  let catalog := [Sample.corta; Sample.rep] in
  let proposal := Sample.proposalOf [Sample.rawLine "CORTA-COBRE-001" (Some 2%Z);
                                     Sample.rawLine "CORTA-COBRE-001" (Some 5%Z)] in
  map Sample.skuQty (basketOf (handler q cart hits catalog proposal))
  = [("CORTA-COBRE-001", Some (Finite 2)); ("CORTA-COBRE-001", Some (Finite 5))]
  /\ ~ NoDup (map sku (basketOf (handler q cart hits catalog proposal))).
Proof.
  cbv zeta. split; [reflexivity |].
  intros H. vm_compute in H. inversion H as [| ? ? Hnotin _]; subst.
  apply Hnotin. now left.
Qed.

(** The cart's quantity on every merged line whose SKU the cart has. *)
Lemma merged_cart_qty q cart hits catalog parsed :
  Forall (fun l => forall c, map_get (sku l) (buildCartBySku cart) = Some c ->
                             qty l = Some (Finite c))
         (basket (merge q cart hits catalog
                    (validated (candidateSkusOf hits cart catalog)
                               (buildCartBySku cart) parsed))).
Proof.
  eapply Forall_impl; [| apply merge_origin; reflexivity].
  intros l Hl c. eapply origin_cart_qty; [| exact Hl].
  intros x c' Hx. exact (validated_cart_qty _ cart parsed x c' Hx).
Qed.

(** C7 (amended): on the Add turn with prior cart
    [{sku: "CORTA-COBRE-001", qty: 1}] and utterance "sí, dame el
    repuesto", for a proposal that parses and a candidate set containing
    REP-CORTA-001: the returned basket contains REP-CORTA-001; it
    contains CORTA-COBRE-001, at quantity 1, when that SKU is a candidate
    (its row is in the product table); and REP-CORTA-001 is at quantity 1
    unless the validated proposal lists REP-CORTA-001 itself, whose line
    then keeps the proposed quantity floored at 1. *)
Theorem add_turn_ensures_cutter_spare (hits catalog : list Product) (parsed : Parsed) :
  let q := "sí, dame el repuesto" in
  let cart := [mkCartItem "CORTA-COBRE-001" (Some 1%Z)] in
  let final := basketOf (handler q cart hits catalog (Valid parsed)) in
  let proposed := filterToCandidates (candidateSkusOf hits cart catalog) (r_basket parsed) in
  In "REP-CORTA-001" (candidateSkusOf hits cart catalog) ->
  In "REP-CORTA-001" (map sku final)
  /\ (In "CORTA-COBRE-001" (candidateSkusOf hits cart catalog) ->
      exists l, In l final /\ sku l = "CORTA-COBRE-001" /\ qty l = Some (Finite 1))
  /\ (~ In "REP-CORTA-001" (map sku proposed) ->
      Forall (fun l => sku l = "REP-CORTA-001" -> qty l = Some (Finite 1)) final)
  /\ Forall (fun l => sku l = "REP-CORTA-001" ->
                      qty l = Some (Finite 1)
                      \/ exists it, In it proposed /\ sku it = "REP-CORTA-001"
                                    /\ l = setQty it (floor1 (qty it))) final.
Proof.
  intros q cart final proposed Hrep.
  assert (Hq : (String.length q =? 0)%nat = false) by reflexivity.
  assert (Hend : endIntent q = false) by (vm_compute; reflexivity).
  assert (Hadd : addIntent q = true) by (vm_compute; reflexivity).
  assert (Hspare : testAnyCI spareWords q = true) by (vm_compute; reflexivity).
  assert (Hcart : buildCartBySku cart = [("CORTA-COBRE-001", 1%Z)]) by reflexivity.
  assert (Hnorep : map_get "REP-CORTA-001" (buildCartBySku cart) = None)
    by (rewrite Hcart; reflexivity).
  subst final. rewrite (handler_valid_basket q cart hits catalog parsed Hq Hend).
  set (start := validated (candidateSkusOf hits cart catalog) (buildCartBySku cart) parsed).
  pose proof (merge_origin q cart hits catalog (basket start) start eq_refl) as Ho.
  assert (H4 : Forall (fun l => sku l = "REP-CORTA-001" ->
                         qty l = Some (Finite 1)
                         \/ exists it, In it proposed /\ sku it = "REP-CORTA-001"
                                       /\ l = setQty it (floor1 (qty it)))
                      (basket (merge q cart hits catalog start))).
  { eapply Forall_impl; [| exact Ho].
    intros l Hl Hsku.
    assert (Hnone : map_get (sku l) (buildCartBySku cart) = None) by now rewrite Hsku.
    destruct (origin_absent q cart hits catalog (basket start) l Hl Hnone) as [Hin | H1q];
      [| now left].
    right. apply validated_basket_In in Hin. destruct Hin as [it [Hit ->]].
    exists it. split; [assumption |]. split; [exact Hsku |].
    apply preferClientQty_absent. exact Hnone. }
  split; [| split; [| split; [| exact H4]]].
  - pose proof (addPath_has_spare q cart hits catalog start Hspare) as Hhas.
    rewrite Hcart in Hhas. specialize (Hhas eq_refl Hrep).
    apply in_map_iff in Hhas. destruct Hhas as [x [Hx Hin]].
    rewrite <- Hx. apply in_map. apply merge_add_keeps; [exact Hadd |].
    rewrite Hcart. exact Hin.
  - intros Hcorta.
    pose proof (addPath_covers q cart hits catalog start) as Hcov.
    assert (Hin : In "CORTA-COBRE-001"
                     (map sku (basket (fst (addPath q catalog
                        (map_values (buildBySku hits cart catalog))
                        (map p_sku (map_values (buildBySku hits cart catalog)))
                        (buildBySku hits cart catalog) (buildCartBySku cart) start))))).
    { apply Hcov; [rewrite Hcart; simpl; now left | exact Hcorta]. }
    apply in_map_iff in Hin. destruct Hin as [x [Hx Hin]].
    pose proof (merge_add_keeps q cart hits catalog start x Hadd Hin) as Hkeep.
    exists x. split; [exact Hkeep | split; [exact Hx |]].
    pose proof (merged_cart_qty q cart hits catalog parsed) as Hqty.
    rewrite Forall_forall in Hqty.
    apply (Hqty x); [exact Hkeep |].
    rewrite Hx, Hcart. reflexivity.
  - intros Hnot. eapply Forall_impl; [| exact H4].
    intros l Hl Hsku. destruct (Hl Hsku) as [H1q | [it [Hit [Hs _]]]]; [assumption |].
    exfalso. apply Hnot. rewrite <- Hs. now apply in_map.
Qed.

Lemma add_turn_ensures_cutter_spare_witness :
  In "REP-CORTA-001"
     (candidateSkusOf [Sample.rep] [mkCartItem "CORTA-COBRE-001" (Some 1%Z)]
                      [Sample.corta; Sample.rep])
  /\ In "REP-CORTA-001"
        (map sku (basketOf (handler "sí, dame el repuesto"
                              [mkCartItem "CORTA-COBRE-001" (Some 1%Z)]
                              [Sample.rep] [Sample.corta; Sample.rep]
                              (Valid (mkParsed "Plan" [] (Some []) (Some []) None None))))).
Proof.
  assert (H : In "REP-CORTA-001"
                 (candidateSkusOf [Sample.rep] [mkCartItem "CORTA-COBRE-001" (Some 1%Z)]
                                  [Sample.corta; Sample.rep]))
    by (vm_compute; tauto).
  split; [exact H |].
  exact (proj1 (add_turn_ensures_cutter_spare [Sample.rep] [Sample.corta; Sample.rep]
                  (mkParsed "Plan" [] (Some []) (Some []) None None) H)).
Defined.

(** C7, as stated, fails in three ways, each on the Add turn with the
    stated cart and utterance and a candidate set containing
    REP-CORTA-001: a proposal that lists REP-CORTA-001 at quantity 3
    keeps that quantity; a cart SKU without a row in the product table is
    not a candidate and is not returned; a proposal that does not parse
    yields the empty fallback basket. *)
Lemma cutter_spare_scenario_fails :
  let q := "sí, dame el repuesto" in
  let cart := [mkCartItem "CORTA-COBRE-001" (Some 1%Z)] in
  addIntent q = true
  /\ (candidateSkusOf [Sample.rep] cart [Sample.corta; Sample.rep]
      = ["REP-CORTA-001"; "CORTA-COBRE-001"]
      /\ map Sample.skuQty
             (basketOf (handler q cart [Sample.rep] [Sample.corta; Sample.rep]
                          (Sample.proposalOf [Sample.rawLine "REP-CORTA-001" (Some 3%Z)])))
         = [("REP-CORTA-001", Some (Finite 3)); ("CORTA-COBRE-001", Some (Finite 1))])
  /\ (candidateSkusOf [Sample.rep] cart [Sample.rep] = ["REP-CORTA-001"]
      /\ map Sample.skuQty
             (basketOf (handler q cart [Sample.rep] [Sample.rep] (Sample.proposalOf [])))
         = [("REP-CORTA-001", Some (Finite 1))])
  /\ basketOf (handler q cart [Sample.rep] [Sample.corta; Sample.rep] Malformed) = [].
Proof.
  vm_compute. repeat split.
Qed.


(* ================================================================== *)
(** * Letter case of the utterance *)
(* ================================================================== *)

(** Induction over a string two characters at a time. *)
Lemma string_ind2 (P : string -> Prop) :
  P EmptyString ->
  (forall c, P (String c EmptyString)) ->
  (forall c d s, P s -> P (String d s) -> P (String c (String d s))) ->
  forall s, P s.
Proof.
  intros H0 H1 H2.
  assert (G : forall s, P s /\ forall c, P (String c s)).
  { induction s as [| d s [IHs IHc]]; [split; [exact H0 | exact H1] |].
    split; [apply IHc |]. intros c. apply H2; [exact IHs | apply IHc]. }
  intros s. apply G.
Qed.

Lemma code_ascii_of_nat n : (n < 256)%nat -> code (ascii_of_nat n) = n.
Proof. intros H. unfold code. now apply nat_ascii_embedding. Qed.

Lemma code_bound c : (code c < 256)%nat.
Proof. unfold code. apply nat_ascii_bounded. Qed.

Lemma between_spec lo hi n : between lo hi n = true <-> (lo <= n <= hi)%nat.
Proof.
  unfold between. rewrite andb_true_iff, !Nat.leb_le. tauto.
Qed.

Lemma between_false lo hi n : between lo hi n = false <-> ~ (lo <= n <= hi)%nat.
Proof.
  rewrite <- between_spec. destruct (between lo hi n); intuition congruence.
Qed.

Lemma toLowerCase_idem s : toLowerCase (toLowerCase s) = toLowerCase s.
Proof.
  induction s as [| c | c d s IHs IHd] using string_ind2; [reflexivity | |].
  - cbn [toLowerCase]. cbv zeta.
    destruct (between 65 90 (code c)) eqn:E1.
    + apply between_spec in E1. cbn [toLowerCase]. cbv zeta.
      rewrite code_ascii_of_nat by lia.
      assert (E2 : between 65 90 (code c + 32) = false) by (apply between_false; lia).
      rewrite E2.
      assert (E3 : (code c + 32 =? 195)%nat = false) by (apply Nat.eqb_neq; lia).
      now rewrite E3.
    + destruct (code c =? 195)%nat eqn:E2; cbn [toLowerCase]; cbv zeta; now rewrite E1, E2.
  - cbn [toLowerCase] in *. cbv zeta in *.
    destruct (between 65 90 (code c)) eqn:E1.
    + apply between_spec in E1. cbn [toLowerCase]. cbv zeta.
      rewrite code_ascii_of_nat by lia.
      assert (E2 : between 65 90 (code c + 32) = false) by (apply between_false; lia).
      assert (E3 : (code c + 32 =? 195)%nat = false) by (apply Nat.eqb_neq; lia).
      rewrite E2, E3. f_equal. exact IHd.
    + destruct (code c =? 195)%nat eqn:E2.
      * destruct (between 128 158 (code d) && negb (code d =? 151)%nat) eqn:E3.
        -- apply andb_true_iff in E3. destruct E3 as [E3 _]. apply between_spec in E3.
           cbn [toLowerCase]. cbv zeta. rewrite E1, E2.
           rewrite code_ascii_of_nat by lia.
           assert (E4 : between 128 158 (code d + 32) = false) by (apply between_false; lia).
           rewrite E4. simpl andb. cbv iota. now rewrite IHs.
        -- cbn [toLowerCase]. cbv zeta. rewrite E1, E2, E3. now rewrite IHs.
      * cbn [toLowerCase]. cbv zeta. rewrite E1, E2. f_equal. exact IHd.
Qed.

Lemma toLowerCase_length0 s :
  (String.length (toLowerCase s) =? 0)%nat = (String.length s =? 0)%nat.
Proof.
  destruct s as [| c s]; [reflexivity |].
  cbn [toLowerCase]. cbv zeta.
  destruct (between 65 90 (code c)); [reflexivity |].
  destruct (code c =? 195)%nat; [| reflexivity].
  destruct s as [| d s]; [reflexivity |].
  now destruct (between 128 158 (code d) && negb (code d =? 151)%nat).
Qed.

(** Lower-casing goes through a separating space. *)
Lemma toLowerCase_app_space a b :
  toLowerCase (a ++ String " "%char b)%string
  = (toLowerCase a ++ String " "%char (toLowerCase b))%string.
Proof.
  induction a as [| c | c d a IHa IHd] using string_ind2.
  - reflexivity.
  - cbn [append toLowerCase]. cbv zeta.
    destruct (between 65 90 (code c)); [reflexivity |].
    destruct (code c =? 195)%nat; reflexivity.
  - cbn [append] in *. cbn [toLowerCase] in *. cbv zeta in *.
    destruct (between 65 90 (code c)).
    + cbn [append]. f_equal. exact IHd.
    + destruct (code c =? 195)%nat.
      * destruct (between 128 158 (code d) && negb (code d =? 151)%nat);
          cbn [append]; now rewrite IHa.
      * cbn [append]. f_equal. exact IHd.
Qed.

Lemma testAnyCI_lower ws s : testAnyCI ws (toLowerCase s) = testAnyCI ws s.
Proof. unfold testAnyCI. now rewrite toLowerCase_idem. Qed.

Lemma endIntent_lower q : endIntent (toLowerCase q) = endIntent q.
Proof. unfold endIntent. now rewrite toLowerCase_idem. Qed.

Lemma replaceIntent_lower q : replaceIntent (toLowerCase q) = replaceIntent q.
Proof. unfold replaceIntent. now rewrite toLowerCase_idem. Qed.

Lemma removeIntent_lower q : removeIntent (toLowerCase q) = removeIntent q.
Proof. unfold removeIntent. now rewrite toLowerCase_idem. Qed.

Lemma addIntent_lower q : addIntent (toLowerCase q) = addIntent q.
Proof. unfold addIntent. now rewrite toLowerCase_idem. Qed.

Lemma mentionsAlternates_lower q : mentionsAlternates (toLowerCase q) = mentionsAlternates q.
Proof. unfold mentionsAlternates. apply testAnyCI_lower. Qed.

Lemma pickText_lower q :
  pickText (toLowerCase q) (normalizeQuery (toLowerCase q)) = pickText q (normalizeQuery q).
Proof.
  unfold pickText, normalizeQuery. cbv zeta. rewrite toLowerCase_idem.
  match goal with
  | |- context [trim ?t] => set (compact := trim t)
  end.
  destruct (String.length compact =? 0)%nat.
  - change (toLowerCase q ++ " " ++ toLowerCase q)%string
      with (toLowerCase q ++ String " "%char (toLowerCase q))%string.
    change (q ++ " " ++ q)%string with (q ++ String " "%char q)%string.
    now rewrite !toLowerCase_app_space, !toLowerCase_idem.
  - change (toLowerCase q ++ " " ++ compact)%string
      with (toLowerCase q ++ String " "%char compact)%string.
    change (q ++ " " ++ compact)%string with (q ++ String " "%char compact)%string.
    now rewrite !toLowerCase_app_space, !toLowerCase_idem.
Qed.

Lemma pickByKeywords_lower q candidates max :
  pickByKeywords (toLowerCase q) (normalizeQuery (toLowerCase q)) candidates max
  = pickByKeywords q (normalizeQuery q) candidates max.
Proof. unfold pickByKeywords. cbv zeta. now rewrite pickText_lower. Qed.

Lemma handler_lower q cart hits catalog proposal :
  handler (toLowerCase q) cart hits catalog proposal = handler q cart hits catalog proposal.
Proof.
  unfold handler. rewrite toLowerCase_length0, endIntent_lower.
  destruct (String.length q =? 0)%nat; [reflexivity |].
  destruct (endIntent q); [reflexivity |].
  destruct proposal as [| parsed]; [reflexivity |].
  assert (Hm : forall plan, merge (toLowerCase q) cart hits catalog plan
                            = merge q cart hits catalog plan).
  { intros plan. unfold merge, addPath, shouldForceReplace, strongReplace,
      emptyBasketHandling. cbv zeta.
    rewrite addIntent_lower, replaceIntent_lower, removeIntent_lower,
      mentionsAlternates_lower, !testAnyCI_lower, !pickByKeywords_lower.
    reflexivity. }
  cbv zeta. rewrite Hm. unfold pvcLeakNudge. now rewrite !testAnyCI_lower.
Qed.

(** X1: the answer of a turn does not depend on the letter case of the
    utterance.  For every cart, search result, product table and
    proposal, the lower-cased utterance gets the same status, plan and
    reply, and with [?debug=1] the same [isReplace] and [isAdd] flags in
    the debug echo; the only part of the answer that differs is the
    utterance itself, which the debug echo repeats verbatim.  Without
    [?debug=1] the two answers are identical. *)
Theorem handler_ignores_letter_case (debug : bool) (q : string) (cart : list CartItem)
    (hits catalog : list Product) (proposal : Proposal) :
  let lower := handlerDebug debug (toLowerCase q) cart hits catalog proposal in
  let given := handlerDebug debug q cart hits catalog proposal in
  fst lower = fst given
  /\ option_map (fun e => (dbg_isReplace e, dbg_isAdd e)) (snd lower)
     = option_map (fun e => (dbg_isReplace e, dbg_isAdd e)) (snd given)
  /\ option_map dbg_q (snd lower) = option_map toLowerCase (option_map dbg_q (snd given))
  /\ (forall e, snd given = Some e -> dbg_q e = q)
  /\ handlerDebug false (toLowerCase q) cart hits catalog proposal
     = handlerDebug false q cart hits catalog proposal.
Proof.
  unfold handlerDebug. cbv zeta. cbn [fst snd andb].
  rewrite handler_lower, toLowerCase_length0, endIntent_lower,
    replaceIntent_lower, addIntent_lower.
  split; [reflexivity |].
  destruct (debug && (negb (String.length q =? 0)%nat && negb (endIntent q)
                      && match proposal with Valid _ => true | Malformed => false end));
    cbn [option_map dbg_isReplace dbg_isAdd dbg_q];
    (split; [reflexivity | split; [reflexivity | split; [| reflexivity]]]).
  - intros e [= <-]. reflexivity.
  - intros e He. discriminate He.
Qed.

(** With [?debug=1] the echo repeats the utterance as it was sent, so
    the two answers differ there and nowhere else. *)
Lemma debug_echo_repeats_utterance :
  let cart := [mkCartItem "PVC-UNION-050" (Some 2%Z)] in
  let hits := [Sample.cople] in
  let catalog := [Sample.union; Sample.cople] in
  let proposal := Sample.proposalOf [Sample.rawLine "PVC-CPL-050" (Some 1%Z)] in
  snd (handlerDebug true "Mejor pon el COPLE" cart hits catalog proposal)
  = Some (mkDebugEcho true false "Mejor pon el COPLE")
  /\ snd (handlerDebug true "mejor pon el cople" cart hits catalog proposal)
     = Some (mkDebugEcho true false "mejor pon el cople")
  /\ snd (handlerDebug true "Eso es todo." cart hits catalog proposal) = None
  /\ snd (handlerDebug true "Mejor pon el COPLE" cart hits catalog Malformed) = None.
Proof.
  vm_compute. repeat split.
Qed.

(* ================================================================== *)
(** * Needles and escaping *)
(* ================================================================== *)

Lemma bytes_app a b : bytes (a ++ b)%string = bytes a ++ bytes b.
Proof.
  unfold bytes. induction a as [| c a IH]; simpl; [reflexivity | now rewrite IH].
Qed.

Lemma Forall_bytes_skipWs (P : ascii -> Prop) s :
  Forall P (bytes s) -> Forall P (bytes (skipWs s)).
Proof.
  induction s as [| c | c d s IHs IHd] using string_ind2; intros H.
  - exact H.
  - cbn [skipWs]. destruct (isAsciiSpace c); [constructor |].
    destruct (code c =? 194)%nat; exact H.
  - cbn [skipWs] in *. destruct (isAsciiSpace c).
    + apply IHd. now inversion H.
    + destruct (code c =? 194)%nat; [| exact H].
      destruct (code d =? 160)%nat; [| exact H].
      apply IHs. inversion H as [| ? ? _ H']; subst. now inversion H'.
Qed.

Lemma Forall_bytes_skipWsRev (P : ascii -> Prop) s :
  Forall P (bytes s) -> Forall P (bytes (skipWsRev s)).
Proof.
  induction s as [| c | c d s IHs IHd] using string_ind2; intros H.
  - exact H.
  - cbn [skipWsRev]. destruct (isAsciiSpace c); [constructor |].
    destruct (code c =? 160)%nat; exact H.
  - cbn [skipWsRev] in *. destruct (isAsciiSpace c).
    + apply IHd. now inversion H.
    + destruct (code c =? 160)%nat; [| exact H].
      destruct (code d =? 194)%nat; [| exact H].
      apply IHs. inversion H as [| ? ? _ H']; subst. now inversion H'.
Qed.

Lemma Forall_bytes_rev_string (P : ascii -> Prop) s : forall acc,
  Forall P (bytes acc) -> Forall P (bytes s) -> Forall P (bytes (rev_string acc s)).
Proof.
  induction s as [| c s IH]; intros acc Ha Hs; simpl; [exact Ha |].
  inversion Hs; subst. apply IH; [now constructor | assumption].
Qed.

Lemma Forall_bytes_trim (P : ascii -> Prop) s :
  Forall P (bytes s) -> Forall P (bytes (trim s)).
Proof.
  intros H. unfold trim.
  apply Forall_bytes_rev_string; [constructor |].
  apply Forall_bytes_skipWsRev, Forall_bytes_rev_string; [constructor |].
  now apply Forall_bytes_skipWs.
Qed.

Lemma needleSafe_space : needleSafe " "%char.
Proof. unfold needleSafe. cbn. lia. Qed.

Lemma replaceSeparators_bytes s :
  Forall (fun c => code c <> 40%nat /\ code c <> 41%nat /\ code c <> 44%nat)
         (bytes (replaceSeparators s)).
Proof.
  induction s as [| c s IH]; [constructor |].
  cbn [replaceSeparators]. cbv zeta.
  destruct ((code c =? 40)%nat || (code c =? 41)%nat || (code c =? 44)%nat) eqn:E.
  - constructor; [cbn; lia | exact IH].
  - apply orb_false_iff in E. destruct E as [E E3]. apply orb_false_iff in E.
    destruct E as [E1 E2]. apply Nat.eqb_neq in E1, E2, E3.
    constructor; [tauto | exact IH].
Qed.

Lemma collapseWs_cons inRun c s' :
  collapseWs inRun (String c s')
  = if isAsciiSpace c then
      if inRun then collapseWs true s' else String " "%char (collapseWs true s')
    else if (code c =? 194)%nat then
      match s' with
      | String d s'' =>
          if (code d =? 160)%nat then
            if inRun then collapseWs true s'' else String " "%char (collapseWs true s'')
          else String c (collapseWs false s')
      | EmptyString => String c EmptyString
      end
    else String c (collapseWs false s').
Proof. reflexivity. Qed.

Lemma notSpace_needleSafe c :
  code c <> 40%nat /\ code c <> 41%nat /\ code c <> 44%nat ->
  isAsciiSpace c = false -> needleSafe c.
Proof.
  intros Hc Ew. unfold needleSafe. unfold isAsciiSpace in Ew. cbv zeta in Ew.
  apply orb_false_iff in Ew. destruct Ew as [Ew _]. apply between_false in Ew. tauto.
Qed.

Lemma collapseWs_bytes s : forall inRun,
  Forall (fun c => code c <> 40%nat /\ code c <> 41%nat /\ code c <> 44%nat) (bytes s) ->
  Forall needleSafe (bytes (collapseWs inRun s)).
Proof.
  induction s as [| c | c d s IHs IHd] using string_ind2; intros inRun H.
  - constructor.
  - inversion H as [| ? ? Hc _]; subst. rewrite collapseWs_cons.
    destruct (isAsciiSpace c) eqn:Ew.
    + destruct inRun; [constructor |]. constructor; [apply needleSafe_space | constructor].
    + pose proof (notSpace_needleSafe c Hc Ew) as Hs.
      destruct (code c =? 194)%nat; constructor; (exact Hs || constructor).
  - inversion H as [| ? ? Hc H']; subst. rewrite collapseWs_cons.
    destruct (isAsciiSpace c) eqn:Ew.
    + destruct inRun; [now apply IHd |].
      constructor; [apply needleSafe_space | now apply IHd].
    + pose proof (notSpace_needleSafe c Hc Ew) as Hs.
      destruct (code c =? 194)%nat.
      * destruct (code d =? 160)%nat.
        -- inversion H'; subst.
           destruct inRun; [now apply IHs |].
           constructor; [apply needleSafe_space | now apply IHs].
        -- constructor; [exact Hs | now apply IHd].
      * constructor; [exact Hs | now apply IHd].
Qed.

(** X2: a needle never holds a parenthesis or a comma (the characters
    that break the [.or()] filter), nor a tab or a line break, whatever
    the text it is made from; it starts and ends with the wildcard. *)
Theorem likeNeedle_is_safe (val : string) :
  exists inner,
    likeNeedle val = ("%" ++ inner ++ "%")%string
    /\ Forall needleSafe (bytes inner)
    /\ Forall (fun c => code c <> 40%nat /\ code c <> 41%nat /\ code c <> 44%nat)
              (bytes (likeNeedle val)).
Proof.
  exists (trim (collapseWs false (replaceSeparators val))).
  assert (Hin : Forall needleSafe (bytes (trim (collapseWs false (replaceSeparators val))))).
  { apply Forall_bytes_trim, collapseWs_bytes, replaceSeparators_bytes. }
  split; [reflexivity | split; [exact Hin |]].
  unfold likeNeedle. rewrite !bytes_app. apply Forall_app. split.
  - constructor; [cbn; lia | constructor].
  - apply Forall_app. split.
    + eapply Forall_impl; [| exact Hin]. unfold needleSafe. tauto.
    + constructor; [cbn; lia | constructor].
Qed.

Lemma string_app_assoc (a b c : string) : ((a ++ b) ++ c = a ++ (b ++ c))%string.
Proof. induction a as [| x a IH]; [reflexivity |]. cbn [append]. now rewrite IH. Qed.

Lemma replaceChar_app c r a b :
  replaceChar c r (a ++ b)%string = (replaceChar c r a ++ replaceChar c r b)%string.
Proof.
  induction a as [| d a IH]; [reflexivity |].
  cbn [append replaceChar]. rewrite IH.
  destruct (Ascii.eqb d c); [now rewrite string_app_assoc | reflexivity].
Qed.

Lemma escapeHtml_app a b : escapeHtml (a ++ b)%string = (escapeHtml a ++ escapeHtml b)%string.
Proof. unfold escapeHtml. now rewrite !replaceChar_app. Qed.

Lemma escapeHtml_one c : escapeHtml (String c EmptyString) = escapeOne c.
Proof.
  unfold escapeHtml, escapeOne. cbv zeta. cbn [replaceChar].
  destruct (Ascii.eqb c "&"%char) eqn:E1.
  { apply Ascii.eqb_eq in E1. subst c. reflexivity. }
  cbn [replaceChar].
  destruct (Ascii.eqb c "<"%char) eqn:E2.
  { apply Ascii.eqb_eq in E2. subst c. reflexivity. }
  cbn [replaceChar].
  destruct (Ascii.eqb c ">"%char) eqn:E3.
  { apply Ascii.eqb_eq in E3. subst c. reflexivity. }
  cbn [replaceChar].
  destruct (Ascii.eqb c (ascii_of_nat 34)) eqn:E4.
  { apply Ascii.eqb_eq in E4. subst c. reflexivity. }
  cbn [replaceChar].
  destruct (Ascii.eqb c "'"%char) eqn:E5.
  { apply Ascii.eqb_eq in E5. subst c. reflexivity. }
  assert (N : forall n, (n < 256)%nat -> Ascii.eqb c (ascii_of_nat n) = false ->
                        (code c =? n)%nat = false).
  { intros n Hn He. apply Nat.eqb_neq. intros Hc. apply Ascii.eqb_neq in He. apply He.
    unfold code in Hc. rewrite <- Hc. symmetry. apply ascii_nat_embedding. }
  rewrite (N 38%nat), (N 60%nat), (N 62%nat), (N 34%nat), (N 39%nat);
    (reflexivity || lia || assumption).
Qed.

Lemma escapeHtml_each s : escapeHtml s = escapeEach s.
Proof.
  induction s as [| c s IH]; [reflexivity |].
  change (String c s) with (String c EmptyString ++ s)%string.
  rewrite escapeHtml_app, escapeHtml_one, IH. reflexivity.
Qed.

Lemma escapeOne_safe c : Forall (fun x => htmlSpecial x = false) (bytes (escapeOne c)).
Proof.
  unfold escapeOne. cbv zeta.
  destruct (code c =? 38)%nat eqn:E1; [repeat constructor |].
  destruct (code c =? 60)%nat eqn:E2; [repeat constructor |].
  destruct (code c =? 62)%nat eqn:E3; [repeat constructor |].
  destruct (code c =? 34)%nat eqn:E4; [repeat constructor |].
  destruct (code c =? 39)%nat eqn:E5; [repeat constructor |].
  constructor; [| constructor]. unfold htmlSpecial. cbv zeta. now rewrite E2, E3, E4, E5.
Qed.

(** X3: the five replacements of [escapeHtml], run one after the other,
    amount to one pass that maps each character to its entity (an
    ampersand made by a replacement is never escaped again), and the
    escaped text holds none of the characters [<], [>], double quote and
    single quote. *)
Theorem escapeHtml_single_pass_and_safe (s : string) :
  escapeHtml s = escapeEach s
  /\ Forall (fun c => htmlSpecial c = false) (bytes (escapeHtml s)).
Proof.
  split; [apply escapeHtml_each |].
  rewrite escapeHtml_each. induction s as [| c s IH]; [constructor |].
  cbn [escapeEach]. rewrite bytes_app. apply Forall_app. split; [apply escapeOne_safe | exact IH].
Qed.

(* ================================================================== *)
(** * Upsell rules, lookups and the candidate map *)
(* ================================================================== *)

Lemma dedup_setHas l k : setHas k (dedup [] l) = setHas k l.
Proof.
  destruct (setHas k l) eqn:E.
  - apply setHas_In. apply dedup_In. apply setHas_In in E. simpl. tauto.
  - apply setHas_false. intros H. apply dedup_In in H. apply setHas_false in E. tauto.
Qed.

Lemma slice0_two {A} (l : list A) : slice0 2 l = firstn 2 l.
Proof. reflexivity. Qed.

(** X4: [suggestUpsell] returns at most two suggestions, with distinct
    SKUs, each one of PTF-12, WR-8IN and MASK-TAPE-36, and never a SKU
    that is already in the basket. *)
Theorem suggestUpsell_bounded_and_fresh (basketSkus : list string) :
  (List.length (suggestUpsell basketSkus) <= 2)%nat
  /\ NoDup (map i_sku (suggestUpsell basketSkus))
  /\ Forall (fun i => ~ In (i_sku i) basketSkus
                      /\ In i [teflonItem; wrenchItem; maskingItem])
            (suggestUpsell basketSkus).
Proof.
  unfold suggestUpsell. cbv zeta. rewrite !dedup_setHas, slice0_two.
  destruct (setHas "PTF-12" basketSkus) eqn:Ht;
    destruct (setHas "WR-8IN" basketSkus) eqn:Hw;
    destruct (setHas "MASK-TAPE-36" basketSkus) eqn:Hm;
    destruct (setHas "PVC-GLUE-240" basketSkus || setHas "PVC-CPL-050" basketSkus);
    destruct (existsb (fun k => prefix "PAINT-" k) (dedup [] basketSkus));
    apply setHas_false in Ht || clear Ht;
    apply setHas_false in Hw || clear Hw;
    apply setHas_false in Hm || clear Hm;
    cbn;
    (split; [lia | split;
       [repeat (constructor; [cbn; intuition discriminate |]); constructor
       | repeat (constructor; [split; [assumption | cbn; tauto] |]); constructor]]).
Qed.

(** X5: for a basket with a plumbing trigger (PVC-GLUE-240 or
    PVC-CPL-050) that has neither PTF-12 nor WR-8IN, the suggestions are
    exactly the teflon tape and the wrench, in that order: the masking
    tape rule for PAINT- items is then cut off by the cap of two. *)
Theorem suggestUpsell_plumbing_fills_cap (basketSkus : list string) :
  In "PVC-GLUE-240" basketSkus \/ In "PVC-CPL-050" basketSkus ->
  ~ In "PTF-12" basketSkus ->
  ~ In "WR-8IN" basketSkus ->
  suggestUpsell basketSkus = [teflonItem; wrenchItem].
Proof.
  intros Htrig Ht Hw. unfold suggestUpsell. cbv zeta. rewrite !dedup_setHas.
  apply setHas_false in Ht, Hw. rewrite Ht, Hw.
  assert (Hor : setHas "PVC-GLUE-240" basketSkus || setHas "PVC-CPL-050" basketSkus = true).
  { apply orb_true_iff. destruct Htrig as [H | H]; [left | right]; now apply setHas_In. }
  rewrite Hor. cbn [negb app].
  destruct (negb (setHas "MASK-TAPE-36" basketSkus)
            && existsb (fun k => prefix "PAINT-" k) (dedup [] basketSkus)); reflexivity.
Qed.

Lemma suggestUpsell_plumbing_fills_cap_witness :
  map i_sku (suggestUpsell ["PAINT-RED-1L"; "PVC-GLUE-240"]) = ["PTF-12"; "WR-8IN"].
Proof.
  rewrite (suggestUpsell_plumbing_fills_cap ["PAINT-RED-1L"; "PVC-GLUE-240"]).
  - reflexivity.
  - left. simpl. tauto.
  - simpl. intuition discriminate.
  - simpl. intuition discriminate.
Defined.

Lemma map_set_In {V} k (v : V) m e : In e (map_set k v m) -> e = (k, v) \/ In e m.
Proof.
  induction m as [| [k0 v0] m IH]; simpl.
  - intros [<- | []]. now left.
  - destruct (String.eqb k0 k).
    + intros [<- | H]; [now left | right; now right].
    + intros [<- | H]; [right; now left |].
      destruct (IH H) as [-> | H']; [now left | right; now right].
Qed.

Lemma setAll_rows ps m e : In e (setAll ps m) -> In (snd e) ps \/ In e m.
Proof.
  unfold setAll. revert e.
  apply (fold_left_inv _ (fun m' => forall e, In e m' -> In (snd e) ps \/ In e m)).
  - intros e He. now right.
  - intros m' p Hp Hm' e He. apply map_set_In in He.
    destruct He as [-> | He]; [now left | now apply Hm'].
Qed.

(** X6: the product lookup endpoint rejects an empty list of SKUs, and
    otherwise answers the rows of the requested SKUs in the order of the
    request: one row per requested SKU that the table has (a SKU
    requested twice is answered twice), SKUs the table lacks being
    skipped. *)
Theorem getHandler_keeps_request_order (catalog : list Product) (skus : list string) :
  (skus = [] -> getHandler catalog skus = GetBadRequest "skus[] required")
  /\ (skus <> [] ->
      exists products,
        getHandler catalog skus = GetOk products
        /\ map p_sku products = filter (fun s => setHas s (map p_sku catalog)) skus
        /\ Forall (fun p => In p catalog) products).
Proof.
  split.
  - intros ->. reflexivity.
  - intros Hne. unfold getHandler.
    destruct skus as [| s0 rest] eqn:Es; [congruence |]. rewrite <- Es in *.
    assert (El : (List.length skus =? 0)%nat = false) by (rewrite Es; reflexivity).
    rewrite El. cbv zeta. eexists. split; [reflexivity |].
    set (bySku := setAll (selectIn catalog skus) []).
    assert (Hk : keyed bySku) by (apply setAll_keyed; constructor).
    assert (Hget : forall s, In s skus ->
               (exists p, map_get s bySku = Some p /\ p_sku p = s /\ In p catalog
                          /\ setHas s (map p_sku catalog) = true)
               \/ (map_get s bySku = None /\ setHas s (map p_sku catalog) = false)).
    { intros s Hs. destruct (map_get s bySku) as [p |] eqn:Eg.
      - left. exists p. destruct (keyed_get _ _ _ Hk Eg) as [Hsku Hval].
        split; [reflexivity | split; [exact Hsku |]].
        apply map_get_In in Eg. apply setAll_rows in Eg. simpl in Eg.
        destruct Eg as [Eg | []]. unfold selectIn in Eg. apply filter_In in Eg.
        split; [tauto |]. apply setHas_In. rewrite <- Hsku. apply in_map. tauto.
      - right. split; [reflexivity |]. apply setHas_false. intros Hc.
        apply map_get_None_keys in Eg. apply Eg. apply setAll_keys. right.
        apply in_map_iff in Hc. destruct Hc as [p [Hp Hin]].
        apply in_map_iff. exists p. split; [exact Hp |].
        unfold selectIn. apply filter_In. split; [exact Hin |].
        apply setHas_In. now rewrite Hp. }
    clearbody bySku. clear Es El Hne.
    induction skus as [| s l IH]; [split; constructor |].
    simpl.
    destruct (Hget s (or_introl eq_refl)) as [[p [-> [Hsku [Hcat ->]]]] | [-> ->]].
    + destruct IH as [IH1 IH2]; [intros x Hx; apply Hget; now right |].
      simpl. rewrite Hsku, IH1. split; [reflexivity | now constructor].
    + apply IH. intros x Hx. apply Hget. now right.
Qed.

Lemma getHandler_keeps_request_order_witness :
  exists products,
    getHandler [Sample.corta; Sample.rep; Sample.teflon]
               ["REP-CORTA-001"; "NO-SUCH-SKU"; "CORTA-COBRE-001"; "REP-CORTA-001"]
    = GetOk products
    /\ map p_sku products = ["REP-CORTA-001"; "CORTA-COBRE-001"; "REP-CORTA-001"].
Proof.
  destruct (proj2 (getHandler_keeps_request_order
                     [Sample.corta; Sample.rep; Sample.teflon]
                     ["REP-CORTA-001"; "NO-SUCH-SKU"; "CORTA-COBRE-001"; "REP-CORTA-001"])
                  ltac:(discriminate)) as [products [H1 [H2 _]]].
  exists products. split; [exact H1 | exact H2].
Defined.

(** X7: the candidates of a turn have distinct SKUs; a SKU is a
    candidate exactly when a search row has it, or the cart has it and
    the product table has a row for it; and every candidate is a search
    row or a row of the table. *)
Theorem candidate_set_membership (hits : list Product) (cart : list CartItem)
    (catalog : list Product) :
  NoDup (candidateSkusOf hits cart catalog)
  /\ (forall s, In s (candidateSkusOf hits cart catalog)
                <-> In s (map p_sku hits)
                    \/ (In s (map ci_sku cart) /\ In s (map p_sku catalog)))
  /\ Forall (fun c => In c hits \/ In c catalog) (candidatesOf hits cart catalog).
Proof.
  split; [apply candidateSkus_NoDup | split].
  - intros s. rewrite candidateSkus_keys. unfold buildBySku.
    assert (Hd : forall x, In x (dedup [] (map ci_sku cart)) <-> In x (map ci_sku cart)).
    { intros x. rewrite dedup_In. simpl. tauto. }
    destruct (List.length (dedup [] (map ci_sku cart)) =? 0)%nat eqn:E.
    + apply Nat.eqb_eq, length_zero_iff_nil in E.
      rewrite setAll_keys. simpl. split; [tauto |].
      intros [H | [H _]]; [tauto |]. apply Hd in H. rewrite E in H. destruct H.
    + rewrite !setAll_keys. simpl. unfold selectIn.
      split.
      * intros [[[] | H] | H]; [now left | right].
        apply in_map_iff in H. destruct H as [p [<- Hp]]. apply filter_In in Hp.
        destruct Hp as [Hp Hs]. apply setHas_In, Hd in Hs. split; [exact Hs | now apply in_map].
      * intros [H | [Hc Hp]]; [left; now right | right].
        apply in_map_iff in Hp. destruct Hp as [p [<- Hp]].
        apply in_map. apply filter_In. split; [exact Hp |]. now apply setHas_In, Hd.
  - unfold candidatesOf, map_values. rewrite Forall_map. apply Forall_forall.
    intros e He. unfold buildBySku in He.
    destruct (List.length (dedup [] (map ci_sku cart)) =? 0)%nat.
    + apply setAll_rows in He. destruct He as [He | []]. now left.
    + apply setAll_rows in He. destruct He as [He | He].
      * right. unfold selectIn in He. now apply filter_In in He.
      * apply setAll_rows in He. destruct He as [He | []]. now left.
Qed.

(** X8: the candidate list of the search endpoint has distinct SKUs,
    holds a row for exactly the SKUs of the product rows and the synonym
    rows, and every candidate is one of those rows. *)
Theorem searchCandidates_distinct (products synProducts : list Product) :
  NoDup (map p_sku (searchCandidates products synProducts))
  /\ (forall s, In s (map p_sku (searchCandidates products synProducts))
                <-> In s (map p_sku products) \/ In s (map p_sku synProducts))
  /\ Forall (fun c => In c products \/ In c synProducts)
            (searchCandidates products synProducts).
Proof.
  unfold searchCandidates.
  assert (Hk : keyed (setAll (products ++ synProducts) [])) by (apply setAll_keyed; constructor).
  rewrite (keyed_skus _ Hk). split; [apply setAll_NoDup; constructor | split].
  - intros s. rewrite setAll_keys, map_app, in_app_iff. simpl. tauto.
  - unfold map_values. rewrite Forall_map. apply Forall_forall. intros e He.
    apply setAll_rows in He. destruct He as [He | []]. now apply in_app_iff.
Qed.

(* ================================================================== *)
(** * The cart across turns *)
(* ================================================================== *)

Lemma buildCartBySku_snoc cart ci :
  buildCartBySku (cart ++ [ci])
  = map_set (ci_sku ci) (Z.max 1 (numberOr1 (ci_qty ci))) (buildCartBySku cart).
Proof. unfold buildCartBySku. now rewrite fold_left_app. Qed.

(** X9: the cart quantity map has one entry per SKU of the cart, every
    stored quantity is at least 1, and for a SKU that the cart lists
    several times the last entry decides: the stored quantity is that
    entry's quantity, read as 1 when it is missing or 0 and raised to 1
    when it is negative. *)
Theorem cart_map_last_entry_wins (cart : list CartItem) :
  NoDup (map_keys (buildCartBySku cart))
  /\ (forall s, In s (map_keys (buildCartBySku cart)) <-> In s (map ci_sku cart))
  /\ (forall s,
        map_get s (buildCartBySku cart)
        = option_map (fun ci => Z.max 1 (numberOr1 (ci_qty ci)))
                     (find (fun ci => String.eqb (ci_sku ci) s) (rev cart)))
  /\ Forall (fun e => (1 <= snd e)%Z) (buildCartBySku cart).
Proof.
  split; [apply buildCartBySku_NoDup | split; [apply buildCartBySku_keys | split]].
  - intros s. induction cart as [| ci cart IH] using rev_ind; [reflexivity |].
    rewrite buildCartBySku_snoc, rev_app_distr. simpl.
    destruct (String.eqb (ci_sku ci) s) eqn:E.
    + apply String.eqb_eq in E. subst s. simpl. apply map_get_set_eq.
    + apply String.eqb_neq in E. rewrite map_get_set_neq by exact E. exact IH.
  - apply buildCartBySku_floor.
Qed.





(** X18: quantities of the returned basket.  Every returned line has a
    quantity that is a number of at least 1, except that a validated
    proposal line whose SKU is not in the cart and whose quantity is not
    numeric comes back with the quantity NaN.  When no validated
    proposal line outside the cart has such a quantity, every returned
    quantity is at least 1, whatever the cart and the proposal supply
    otherwise (missing, zero or negative quantities). *)
Theorem returned_quantities_floored_unless_nan (q : string) (cart : list CartItem)
    (hits catalog : list Product) (parsed : Parsed) :
  let final := basketOf (handler q cart hits catalog (Valid parsed)) in
  let proposed := filterToCandidates (candidateSkusOf hits cart catalog) (r_basket parsed) in
  Forall (fun l => atLeastOne (qty l) \/ nanFromProposal (buildCartBySku cart) proposed l)
         final
  /\ (Forall (fun it => map_get (sku it) (buildCartBySku cart) = None ->
                        qty it <> Some NaN) proposed ->
      Forall (fun l => atLeastOne (qty l)) final).
Proof.
  intros final proposed.
  pose proof (returned_qty_cases q cart hits catalog parsed) as H.
  split; [exact H |].
  intros Hnum. eapply Forall_impl; [| exact H].
  intros l [Hl | [Hn [Hc [it [Hit [Hs Hq]]]]]]; [exact Hl |].
  exfalso. rewrite Forall_forall in Hnum. apply (Hnum it Hit); [now rewrite Hs | exact Hq].
Qed.

Lemma returned_quantities_floored_unless_nan_witness :
  Forall (fun l => atLeastOne (qty l))
         (basketOf (handler "necesito un cortatubo"
                      [mkCartItem "CORTA-COBRE-001" (Some (-2)%Z)]
                      [Sample.corta; Sample.rep] [Sample.corta; Sample.rep]
                      (Valid (mkParsed "Plan" []
                                (Some [Sample.rawLineNaN "CORTA-COBRE-001";
                                       Sample.rawLine "REP-CORTA-001" (Some 0%Z)])
                                (Some []) None None)))).
Proof.
  apply (proj2 (returned_quantities_floored_unless_nan "necesito un cortatubo"
                  [mkCartItem "CORTA-COBRE-001" (Some (-2)%Z)]
                  [Sample.corta; Sample.rep] [Sample.corta; Sample.rep]
                  (mkParsed "Plan" []
                     (Some [Sample.rawLineNaN "CORTA-COBRE-001";
                            Sample.rawLine "REP-CORTA-001" (Some 0%Z)])
                     (Some []) None None))).
  vm_compute. repeat constructor; intros H; discriminate.
Defined.

Section Preservation.
Variables (q : string) (cart : list CartItem) (hits catalog : list Product).

Local Abbreviation cartBySku := (buildCartBySku cart).
Local Abbreviation bySku := (buildBySku hits cart catalog).
Local Abbreviation candidates := (map_values (buildBySku hits cart catalog)).
Local Abbreviation candidateSkus := (map p_sku (map_values (buildBySku hits cart catalog))).

Lemma readdOmitted_covers bySku' b :
  agrees cart hits catalog bySku' ->
  covers cart hits catalog (readdOmitted candidateSkus bySku' cartBySku b).
Proof.
  intros Ha. unfold covers, readdOmitted. intros s Hk Hc.
  assert (Hex : exists n, In (s, n) cartBySku).
  { unfold map_keys in Hk. apply in_map_iff in Hk. destruct Hk as [[s' n] [Heq Hin]].
    simpl in Heq. subst s'. now exists n. }
  destruct Hex as [n Hin]. clear Hk.
  revert b. induction cartBySku as [| [s' n'] m IH]; intros b; [destruct Hin |].
  simpl. destruct Hin as [Heq | Hin]; [| now apply IH].
  inversion Heq; subst s' n'.
  apply fold_left_inv.
  - destruct (hasSku s b) eqn:Eh; simpl.
    + now apply hasSku_In.
    + pose proof Hc as Hc'. apply setHas_In in Hc'. rewrite Hc'.
      destruct (agrees_get cart hits catalog bySku' s Ha Hc) as [src [-> [Hsku _]]].
      rewrite map_app, in_app_iff. right. simpl. left. exact Hsku.
  - intros b' [s2 n2] _ Hb'.
    destruct (negb (hasSku s2 b') && setHas s2 candidateSkus); [| exact Hb'].
    destruct (map_get s2 bySku'); [| exact Hb'].
    rewrite map_app, in_app_iff. now left.
Qed.

(** On an Add turn, and on a turn that is neither Replace nor Removal,
    the merged basket covers the cart. *)
Lemma merge_covers plan :
  addIntent q = true \/ (replaceIntent q = false /\ removeIntent q = false) ->
  covers cart hits catalog (basket (merge q cart hits catalog plan)).
Proof.
  intros Hcase s Hk Hc.
  destruct (addIntent q) eqn:Ea.
  - pose proof (addPath_covers q cart hits catalog plan s Hk Hc) as Hin.
    apply in_map_iff in Hin. destruct Hin as [x [Hx Hin]].
    rewrite <- Hx. apply in_map. now apply merge_add_keeps.
  - destruct Hcase as [Hcase | [Hr Hv]]; [discriminate |].
    unfold merge. cbv zeta. rewrite Ea, Hr, Hv. simpl negb. simpl andb. cbv iota.
    simpl. apply readdOmitted_covers; [apply agrees_refl | exact Hk | exact Hc].
Qed.
End Preservation.

(** X11: the cart is kept on an Add turn (whatever else the utterance
    says) and on a turn that is neither Replace nor Removal: every SKU
    of the cart that is a candidate has a line in the returned basket,
    at the quantity the cart map stores for it. *)
Theorem cart_is_kept (q : string) (cart : list CartItem) (hits catalog : list Product)
    (parsed : Parsed) :
  (String.length q =? 0)%nat = false ->
  endIntent q = false ->
  addIntent q = true \/ (replaceIntent q = false /\ removeIntent q = false) ->
  Forall (fun ci =>
            In (ci_sku ci) (candidateSkusOf hits cart catalog) ->
            exists l c,
              In l (basketOf (handler q cart hits catalog (Valid parsed)))
              /\ sku l = ci_sku ci
              /\ map_get (ci_sku ci) (buildCartBySku cart) = Some c
              /\ qty l = Some (Finite c))
         cart.
Proof.
  intros Hq Hend Hcase. apply Forall_forall. intros ci Hci Hcand.
  rewrite (handler_valid_basket q cart hits catalog parsed Hq Hend).
  set (start := validated (candidateSkusOf hits cart catalog) (buildCartBySku cart) parsed).
  assert (Hk : In (ci_sku ci) (map_keys (buildCartBySku cart))).
  { apply buildCartBySku_keys. now apply in_map. }
  pose proof (merge_covers q cart hits catalog start Hcase (ci_sku ci) Hk Hcand) as Hin.
  apply in_map_iff in Hin. destruct Hin as [l [Hsku Hl]].
  destruct (map_get (ci_sku ci) (buildCartBySku cart)) as [c |] eqn:Eg;
    [| apply map_get_keys in Hk; congruence].
  exists l, c. repeat split; try assumption.
  pose proof (merged_cart_qty q cart hits catalog parsed) as Hqty.
  rewrite Forall_forall in Hqty. apply (Hqty l Hl). now rewrite Hsku.
Qed.

Lemma cart_is_kept_witness :
  exists l c,
    In l (basketOf (handler "necesito un cople" [mkCartItem "PVC-UNION-050" (Some 2%Z)]
                            [Sample.cople] [Sample.union; Sample.cople]
                            (Sample.proposalOf [Sample.rawLine "PVC-CPL-050" (Some 1%Z)])))
    /\ sku l = "PVC-UNION-050"
    /\ map_get "PVC-UNION-050" (buildCartBySku [mkCartItem "PVC-UNION-050" (Some 2%Z)])
       = Some c
    /\ qty l = Some (Finite c).
Proof.
  pose proof (cart_is_kept "necesito un cople" [mkCartItem "PVC-UNION-050" (Some 2%Z)]
                [Sample.cople] [Sample.union; Sample.cople]
                (mkParsed "Plan" ["Paso 1"; "Paso 2"; "Paso 3"]
                   (Some [Sample.rawLine "PVC-CPL-050" (Some 1%Z)]) (Some []) None
                   (Some "Listo."))
                eq_refl eq_refl (or_intror (conj eq_refl eq_refl))) as H.
  apply Forall_inv in H. apply H. vm_compute. tauto.
Defined.

(** X12: on a Replace turn that is not an Add turn, the returned basket
    is what the strong replace path makes of the validated proposal, and
    nothing is re-added from the cart afterwards.  Every returned line is
    a validated proposal line whose SKU the cart does not have, or a line
    built from a pick of the keyword fallback picker (cap 3).  No
    proposal line for a SKU of the previous cart survives; a SKU of the
    previous cart is in the returned basket only when the picker picks
    its row, and that line then carries the cart's quantity. *)
Theorem replace_turn_is_strong_replace (q : string) (cart : list CartItem)
    (hits catalog : list Product) (parsed : Parsed) :
  (String.length q =? 0)%nat = false ->
  endIntent q = false ->
  addIntent q = false ->
  replaceIntent q = true ->
  let start := validated (candidateSkusOf hits cart catalog) (buildCartBySku cart) parsed in
  let picks := pickByKeywords q (normalizeQuery q) (candidatesOf hits cart catalog) 3 in
  let final := basketOf (handler q cart hits catalog (Valid parsed)) in
  final = strongReplace q (normalizeQuery q) (candidatesOf hits cart catalog)
                        (buildCartBySku cart) (basket start)
  /\ Forall (fun l =>
               (In l (basket start) /\ map_get (sku l) (buildCartBySku cart) = None)
               \/ exists src,
                    In src picks
                    /\ l = reassertCartQty (buildCartBySku cart) (pickedLine src))
            final
  /\ Forall (fun l =>
               forall c, map_get (sku l) (buildCartBySku cart) = Some c ->
                         exists src,
                           In src picks /\ l = lineFrom (p_sku src) src c whyPicked)
            final.
Proof.
  intros Hq Hend Ha Hr start picks final. subst final.
  rewrite (handler_valid_basket q cart hits catalog parsed Hq Hend). fold start.
  assert (Heq : basket (merge q cart hits catalog start)
                = strongReplace q (normalizeQuery q) (candidatesOf hits cart catalog)
                                (buildCartBySku cart) (basket start)).
  { unfold merge. cbv zeta. rewrite Ha, Hr.
    cbn [shouldForceReplace negb andb orb]. cbv iota.
    unfold emptyBasketHandling. cbn [basket withBasket andb negb].
    fold (candidatesOf hits cart catalog).
    destruct (List.length (strongReplace q (normalizeQuery q) (candidatesOf hits cart catalog)
                             (buildCartBySku cart) (basket start)) =? 0)%nat eqn:El;
      [| reflexivity].
    apply Nat.eqb_eq, length_zero_iff_nil in El. cbn [basket withBasket withConfirm].
    rewrite El. now rewrite (strongReplace_nil _ _ _ _ _ El). }
  assert (Hlines : Forall (fun l =>
               (In l (basket start) /\ map_get (sku l) (buildCartBySku cart) = None)
               \/ exists src,
                    In src picks
                    /\ l = reassertCartQty (buildCartBySku cart) (pickedLine src))
            (strongReplace q (normalizeQuery q) (candidatesOf hits cart catalog)
                           (buildCartBySku cart) (basket start))).
  { unfold strongReplace. cbv zeta. fold picks.
    set (kept := dropPrevious (buildCartBySku cart) (basket start)).
    assert (Hkept : forall x, In x kept ->
               reassertCartQty (buildCartBySku cart) x = x
               /\ In x (basket start)
               /\ map_get (sku x) (buildCartBySku cart) = None).
    { intros x Hx. unfold kept, dropPrevious in Hx. apply filter_In in Hx.
      destruct Hx as [Hin Hno]. apply negb_true_iff, setHas_false in Hno.
      apply map_get_None_keys in Hno.
      split; [now apply reassert_absent | split; assumption]. }
    rewrite Forall_map. apply Forall_forall. intros x Hx.
    assert (Hcases : In x kept \/ exists src, In src picks /\ x = pickedLine src).
    { destruct (List.length kept =? 0)%nat.
      - right. apply in_map_iff in Hx. destruct Hx as [src [<- Hsrc]]. now exists src.
      - destruct (mentionsAlternates q); [| now left].
        match type of Hx with
        | In _ (if ?c then _ else _) => destruct c
        end; [| now left].
        now apply appendPicks_In in Hx. }
    destruct Hcases as [Hk | [src [Hsrc ->]]].
    - left. destruct (Hkept x Hk) as [-> [H1 H2]]. now split.
    - right. now exists src. }
  split; [exact Heq |]. rewrite Heq. split; [exact Hlines |].
  eapply Forall_impl; [| exact Hlines].
  intros l [[_ Hnone] | [src [Hsrc ->]]] c Hc; [rewrite Hnone in Hc; discriminate |].
  exists src. split; [exact Hsrc |].
  assert (Hs : sku (reassertCartQty (buildCartBySku cart) (pickedLine src)) = p_sku src).
  { pose proof (reassert_skus (buildCartBySku cart) [pickedLine src]) as H.
    now injection H. }
  rewrite Hs in Hc. unfold reassertCartQty.
  change (sku (pickedLine src)) with (p_sku src). rewrite Hc.
  pose proof (cart_get_floor cart _ _ Hc) as Hfloor.
  destruct (c =? 0)%Z eqn:E0; [apply Z.eqb_eq in E0; lia |].
  unfold setQty, pickedLine, lineFrom. cbn. rewrite Z.max_r by lia. reflexivity.
Qed.

Lemma replace_turn_is_strong_replace_witness :
  map Sample.skuQty
      (basketOf (handler "mejor pon teflon" [mkCartItem "CORTA-COBRE-001" (Some 2%Z)]
                         [Sample.tape34] [Sample.corta; Sample.tape34]
                         (Valid (mkParsed "Plan" []
                                   (Some [Sample.rawLine "CORTA-COBRE-001" (Some 2%Z)])
                                   (Some []) None None))))
  = [("PTF-34", Some (Finite 1)); ("CORTA-COBRE-001", Some (Finite 2))].
Proof.
  rewrite (proj1 (replace_turn_is_strong_replace "mejor pon teflon"
                    [mkCartItem "CORTA-COBRE-001" (Some 2%Z)]
                    [Sample.tape34] [Sample.corta; Sample.tape34]
                    (mkParsed "Plan" []
                       (Some [Sample.rawLine "CORTA-COBRE-001" (Some 2%Z)])
                       (Some []) None None)
                    eq_refl eq_refl eq_refl eq_refl)).
  vm_compute. reflexivity.
Defined.

(** A Replace turn whose proposal names the cart's SKU and another one:
    the cart's line is dropped and does not come back. *)
Lemma replace_turn_drops_cart_line :
  map Sample.skuQty
      (basketOf (handler "mejor pon el cople" [mkCartItem "PVC-UNION-050" (Some 2%Z)]
                         [Sample.cople] [Sample.union; Sample.cople]
                         (Valid (mkParsed "Plan" []
                                   (Some [Sample.rawLine "PVC-UNION-050" (Some 2%Z);
                                          Sample.rawLine "PVC-CPL-050" (Some 1%Z)])
                                   (Some []) None None))))
  = [("PVC-CPL-050", Some (Finite 1))].
Proof.
  vm_compute. reflexivity.
Qed.

(** A Replace turn on which the cart's SKU comes back: the proposal
    repeats the cart, its line is dropped, and the picker, called on the
    emptied basket, picks the tape for "teflon" and, on its stock alone,
    the cutter of the cart, which returns at the cart's quantity. *)
Lemma replace_turn_picks_cart_sku :
  let q := "mejor pon teflon" in
  let cart := [mkCartItem "CORTA-COBRE-001" (Some 2%Z)] in
  let hits := [Sample.tape34] in
  let catalog := [Sample.corta; Sample.tape34] in
  let proposal :=
    Valid (mkParsed "Plan" [] (Some [Sample.rawLine "CORTA-COBRE-001" (Some 2%Z)])
                    (Some []) None None) in
  addIntent q = false /\ replaceIntent q = true
  /\ map p_sku (pickByKeywords q (normalizeQuery q) (candidatesOf hits cart catalog) 3)
     = ["PTF-34"; "CORTA-COBRE-001"]
  /\ map (fun l => (sku l, qty l, why l)) (basketOf (handler q cart hits catalog proposal))
     = [("PTF-34", Some (Finite 1), whyPicked);
        ("CORTA-COBRE-001", Some (Finite 2), whyPicked)].
Proof.
  vm_compute. repeat split.
Qed.

(** X13: on a Removal turn that is neither Add nor Replace and names no
    alternate vocabulary, the server leaves the validated proposal
    basket as it is: nothing is re-added from the cart, also when the
    basket is empty. *)
Theorem removal_turn_trusts_proposal (q : string) (cart : list CartItem)
    (hits catalog : list Product) (parsed : Parsed) :
  (String.length q =? 0)%nat = false ->
  endIntent q = false ->
  addIntent q = false ->
  replaceIntent q = false ->
  removeIntent q = true ->
  mentionsAlternates q = false ->
  basketOf (handler q cart hits catalog (Valid parsed))
  = map (preferClientQty (buildCartBySku cart))
        (filterToCandidates (candidateSkusOf hits cart catalog) (r_basket parsed)).
Proof.
  intros Hq Hend Ha Hr Hv Hm.
  rewrite (handler_valid_basket q cart hits catalog parsed Hq Hend).
  unfold merge. cbv zeta. rewrite Ha, Hr, Hv.
  unfold shouldForceReplace. rewrite Hm. cbn [negb andb orb]. cbv iota.
  unfold emptyBasketHandling. cbn [negb andb].
  match goal with
  | |- context [if ?c then _ else _] => destruct c
  end; reflexivity.
Qed.

(** "unión", as Spanish spells it, is not alternate vocabulary for the
    handler, whose expression reads [un[ií]on]; "union" and "roscada"
    are. *)
Lemma mentionsAlternates_samples :
  mentionsAlternates "quita la unión" = false
  /\ mentionsAlternates "quita la UNIÓN" = false
  /\ mentionsAlternates "quita la union" = true
  /\ mentionsAlternates "quita la uníon" = true
  /\ mentionsAlternates "quita la unión roscada" = true
  /\ testAnyCI unionWords "Unión roscada 1/2 PVC-UNION-050" = true
  /\ testAnyCI unionWords "Unión de PVC" = false.
Proof.
  vm_compute. repeat split.
Qed.

Lemma removal_turn_trusts_proposal_witness :
  basketOf (handler "quita el cople" [mkCartItem "PVC-CPL-050" (Some 1%Z);
                                      mkCartItem "PVC-UNION-050" (Some 2%Z)]
                    [Sample.cople] [Sample.union; Sample.cople]
                    (Valid (mkParsed "Plan" [] (Some []) (Some []) None None)))
  = [].
Proof.
  rewrite (removal_turn_trusts_proposal "quita el cople"
             [mkCartItem "PVC-CPL-050" (Some 1%Z); mkCartItem "PVC-UNION-050" (Some 2%Z)]
             [Sample.cople] [Sample.union; Sample.cople]
             (mkParsed "Plan" [] (Some []) (Some []) None None)
             eq_refl eq_refl eq_refl eq_refl eq_refl eq_refl).
  reflexivity.
Defined.

(* ================================================================== *)
(** * The nudge, the picker without keywords, the quantity buttons *)
(* ================================================================== *)

Lemma oosPrefix_mentions_agotad reply :
  testAnyCI ["agotad"] (oosPrefix ++ reply)%string = true.
Proof. vm_compute. reflexivity. Qed.

(** X14: the out-of-stock pass warns once: running it on its own result
    changes nothing, because the reply it produces already says that the
    item is sold out. *)
Theorem nudge_is_idempotent (q : string) (catalog : list Product) (plan : Plan)
    (reply : string) :
  pvcLeakNudge q catalog (pvcLeakNudge q catalog (plan, reply))
  = pvcLeakNudge q catalog (plan, reply).
Proof.
  unfold pvcLeakNudge.
  destruct (testAnyCI ["fuga"] q && testAnyCI ["pvc"] q) eqn:E1; [| reflexivity].
  destruct (selectOne catalog "PVC-CPL-050") as [cople |] eqn:E2; [| reflexivity].
  destruct ((p_stock cople =? 0)%Z && hasSku "PVC-UNION-050" (basket plan)) eqn:E3;
    [| cbv beta iota; now rewrite E3].
  destruct (negb (testAnyCI ["agotad"] reply)) eqn:E4;
    [| cbv beta iota; now rewrite E3, E4].
  cbv beta iota. cbn [basket withConfirm]. rewrite E3.
  now rewrite oosPrefix_mentions_agotad.
Qed.

Lemma filter_all {A} (f : A -> bool) (l : list A) :
  Forall (fun x => f x = true) l -> filter f l = l.
Proof.
  induction 1 as [| x l Hx Hl IH]; simpl; [reflexivity |]. now rewrite Hx, IH.
Qed.

(** X15: when the utterance text names no keyword group, the picker
    falls back on stock alone: it returns the first [max] candidates with
    positive stock, in candidate order. *)
Theorem pickByKeywords_without_keywords (q qNorm : string) (candidates : list Product)
    (max : Z) :
  (0 <= max)%Z ->
  (forall g, In g keywords -> someIncluded g (pickText q qNorm) = false) ->
  pickByKeywords q qNorm candidates max
  = firstn (Z.to_nat max) (filter (fun c => (p_stock c >? 0)%Z) candidates).
Proof.
  intros Hmax Hnone.
  set (text := pickText q qNorm).
  assert (Hscore : forall c, scoreOf text c = if (p_stock c >? 0)%Z then 1%Z else 0%Z).
  { intros c. rewrite scoreOf_count. unfold groupsHit.
    assert (Hf : filter (groupHit text (hay c)) keywords = []).
    { assert (G : forall l, (forall g, In g l -> someIncluded g text = false) ->
                            filter (groupHit text (hay c)) l = []).
      { induction l as [| g l IH]; intros Hl; [reflexivity |].
        simpl. unfold groupHit at 1. rewrite (Hl g (or_introl eq_refl)). simpl.
        apply IH. intros g' Hg'. apply Hl. now right. }
      apply G. exact Hnone. }
    rewrite Hf. simpl. now destruct (p_stock c >? 0)%Z. }
  rewrite pickByKeywords_slice. unfold slice0.
  apply Z.leb_le in Hmax. rewrite Hmax. f_equal.
  assert (Hpos : filter (fun c => (scoreOf text c >? 0)%Z) candidates
                 = filter (fun c => (p_stock c >? 0)%Z) candidates).
  { apply filter_ext. intros c. rewrite Hscore. now destruct (p_stock c >? 0)%Z. }
  pose proof (ranked_perm q qNorm candidates) as Hperm. fold text in Hperm.
  pose proof (ranked_stable q qNorm candidates 1) as Hst. fold text in Hst.
  rewrite filter_all in Hst.
  - rewrite Hst, Hpos. apply filter_all. apply Forall_forall. intros c Hc.
    apply filter_In in Hc. destruct Hc as [_ Hc]. rewrite Hscore, Hc. reflexivity.
  - apply Forall_forall. intros c Hc.
    apply (Permutation_in _ Hperm) in Hc. apply filter_In in Hc. destruct Hc as [_ Hc].
    rewrite Hscore in *. now destruct (p_stock c >? 0)%Z.
Qed.

Lemma pickByKeywords_without_keywords_witness :
  map p_sku (pickByKeywords "algo para mi casa" (normalizeQuery "algo para mi casa")
                            [Sample.cople; Sample.union; Sample.corta; Sample.rep;
                             Sample.teflon] 3)
  = ["PVC-UNION-050"; "CORTA-COBRE-001"; "REP-CORTA-001"].
Proof.
  rewrite (pickByKeywords_without_keywords "algo para mi casa"
             (normalizeQuery "algo para mi casa")
             [Sample.cople; Sample.union; Sample.corta; Sample.rep; Sample.teflon] 3).
  - reflexivity.
  - lia.
  - intros g Hg. simpl in Hg.
    repeat (destruct Hg as [<- | Hg]; [vm_compute; reflexivity |]).
    destruct Hg.
Defined.

(** X16: the quantity buttons of the basket pane.  Pressing "+" on an
    item sets the quantity of its lines to a value between 1 and
    max(1, stock), never more than one above the current quantity (and
    down to the stock when the current quantity exceeds it); pressing
    "-" sets it to a value between 1 and the current quantity.  Either
    way the basket keeps its SKUs in order and every line of another SKU
    is unchanged. *)
Theorem quantity_buttons_stay_in_range (it : Line) (b : list Line) :
  let plus := handleQtyChange (sku it) (handleInc it) b in
  let minus := handleQtyChange (sku it) (handleDec it) b in
  (1 <= handleInc it <= Z.max 1 (stock it))%Z
  /\ (handleInc it <= currentQty it + 1)%Z
  /\ (1 <= handleDec it <= currentQty it)%Z
  /\ map sku plus = map sku b
  /\ map sku minus = map sku b
  /\ Forall (fun l => sku l = sku it -> qty l = Some (Finite (handleInc it))) plus
  /\ Forall (fun l => sku l = sku it -> qty l = Some (Finite (handleDec it))) minus
  /\ Forall (fun l => sku l <> sku it -> In l plus /\ In l minus) b.
Proof.
  intros plus minus.
  assert (Hcur : (1 <= currentQty it)%Z) by (unfold currentQty; lia).
  assert (Hinc : (1 <= handleInc it <= Z.max 1 (stock it))%Z /\
                 (handleInc it <= currentQty it + 1)%Z) by (unfold handleInc; lia).
  assert (Hdec : (1 <= handleDec it <= currentQty it)%Z) by (unfold handleDec; lia).
  assert (Hset : forall n, (1 <= n)%Z -> Z.max 1 (numberOr1 (Some n)) = n).
  { intros n Hn. unfold numberOr1.
    destruct (n =? 0)%Z eqn:E; [apply Z.eqb_eq in E; lia | lia]. }
  assert (Hskus : forall n, map sku (handleQtyChange (sku it) n b) = map sku b).
  { intros n. unfold handleQtyChange. rewrite map_map. apply map_ext.
    intros x. now destruct (String.eqb (sku x) (sku it)). }
  assert (Hqty : forall n, (1 <= n)%Z ->
             Forall (fun l => sku l = sku it -> qty l = Some (Finite n))
                    (handleQtyChange (sku it) n b)).
  { intros n Hn. unfold handleQtyChange. rewrite Forall_map. apply Forall_forall.
    intros x _. destruct (String.eqb (sku x) (sku it)) eqn:E.
    - intros _. unfold setQty. cbn [qty]. now rewrite Hset.
    - apply String.eqb_neq in E. intros Hx. contradiction. }
  assert (Hother : forall n l, In l b -> sku l <> sku it ->
                               In l (handleQtyChange (sku it) n b)).
  { intros n l Hl Hne. unfold handleQtyChange. apply in_map_iff. exists l.
    apply String.eqb_neq in Hne. rewrite Hne. now split. }
  repeat split; try (apply Hinc || apply Hdec || apply Hskus).
  - apply Hqty. apply Hinc.
  - apply Hqty. apply Hdec.
  - apply Forall_forall. intros l Hl Hne. split; now apply Hother.
Qed.

(** X17: for a parsed proposal the returned upsell list is the
    proposal's upsell array filtered to the candidate SKUs, in order and
    with its lines as proposed: neither the merge nor the out-of-stock
    pass touches it, and no quantity is reasserted on it. *)
Theorem upsell_is_the_filtered_proposal (q : string) (cart : list CartItem)
    (hits catalog : list Product) (parsed : Parsed) :
  (String.length q =? 0)%nat = false ->
  endIntent q = false ->
  upsellOf (handler q cart hits catalog (Valid parsed))
  = filterToCandidates (candidateSkusOf hits cart catalog) (r_upsell parsed).
Proof.
  intros Hq Hend. unfold handler. rewrite Hq, Hend.
  set (m := merge _ _ _ _ _). set (r := orElse _ _).
  pose proof (nudge_keeps_lines q catalog m r) as [_ [Hu _]].
  destruct (pvcLeakNudge q catalog (m, r)) as [plan' reply']. simpl in *.
  rewrite Hu. unfold m. now rewrite merge_upsell.
Qed.

Lemma upsell_is_the_filtered_proposal_witness :
  map Sample.skuQty
      (upsellOf (handler "necesito un cople" [] [Sample.cople; Sample.teflon]
                         [Sample.cople; Sample.teflon]
                         (Valid (mkParsed "Plan" [] (Some [])
                                   (Some [Sample.rawLine "PTF-12" (Some 0%Z); RJunk;
                                          Sample.rawLine "WR-8IN" (Some 1%Z)])
                                   None None))))
  = [("PTF-12", Some (Finite 0))].
Proof.
  rewrite (upsell_is_the_filtered_proposal "necesito un cople" []
             [Sample.cople; Sample.teflon] [Sample.cople; Sample.teflon]
             (mkParsed "Plan" [] (Some [])
                (Some [Sample.rawLine "PTF-12" (Some 0%Z); RJunk;
                       Sample.rawLine "WR-8IN" (Some 1%Z)])
                None None) eq_refl eq_refl).
  reflexivity.
Defined.
